(** * MineClicker: a shallow embedding of [mineclicker/lib.py]

    The engine of the game is the Python class [MineClicker].  Its three
    numpy arrays are lists of rows of integers, its methods are computations
    in a state-and-exception monad over the record of the instance
    attributes, and the values a caller can hand to the two sanitising
    entry points ([valid_location] and the constructor) are an inductive
    type of Python values: [None], integers, floats, strings and tuples
    of these.  Booleans, lists and the other iterables of Python are not
    among them, and what is proved of the constructor is proved of lists
    of these values. *)

From Stdlib Require Import ZArith List Bool Lia String Ascii.
From stdpp Require Import base tactics option list list_numbers strings
  gmap.

Open Scope Z_scope.
Set Warnings "-register-all".

(** ** Python values, exceptions and outcomes *)

Inductive exn : Set :=
  TypeError | ValueError | IndexError | OverflowError.

Inductive result (A : Type) : Type :=
| Ok (a : A)
| Raise (e : exn).
Arguments Ok {A} a.
Arguments Raise {A} e.

(** A Python float: not a number, an infinity, or the number [m * 2^e]. *)
Inductive pyfloat : Set :=
| FNan
| FInf (negative : bool)
| FNum (m e : Z).

(** The values that reach the engine from the tests and from the command
    line: [None], integers, floats, strings and tuples.  [PyInt] is an
    [int] that is not a [bool], and a string is the UTF-8 encoding of a
    [str].  Locations are documented as tuples; a boolean and a list are
    left out, numpy reads them as a mask and as a selection of rows and
    not as the index of a cell. *)
Inductive value : Type :=
| PyNone
| PyInt (z : Z)
| PyFloat (f : pyfloat)
| PyStr (s : string)
| PyTuple (items : list value).

(** The characters of a string: in UTF-8 a character starts at every byte
    that is not of the form [10xxxxxx]. *)
Definition is_continuation (c : ascii) : bool :=
  let n := Z.of_nat (nat_of_ascii c) in (128 <=? n) && (n <? 192).

Fixpoint characters (s : string) : list string :=
  match s with
  | EmptyString => []
  | String c s' =>
      match s' with
      | EmptyString => [String c EmptyString]
      | String c' _ =>
          if is_continuation c' then
            match characters s' with
            | [] => [String c EmptyString]
            | ch :: rest => String c ch :: rest
            end
          else String c EmptyString :: characters s'
      end
  end.

(** [[row, col] = location]: sequence unpacking into exactly two targets.
    A tuple gives its items, a string its characters; a value that is not
    iterable is a [TypeError], a wrong number of items a [ValueError]. *)
Definition unpack2 (v : value) : result (value * value) :=
  match v with
  | PyTuple [a; b] => Ok (a, b)
  | PyTuple _ => Raise ValueError
  | PyStr s =>
      match characters s with
      | [a; b] => Ok (PyStr a, PyStr b)
      | _ => Raise ValueError
      end
  | PyInt _ => Raise TypeError
  | PyFloat _ => Raise TypeError
  | PyNone => Raise TypeError
  end.

(** [f >= n] and [f < n] for a float and an integer, which Python
    compares as the numbers they are; every comparison with [nan] is
    false. *)
Definition float_ge (f : pyfloat) (n : Z) : bool :=
  match f with
  | FNan => false
  | FInf negative => negb negative
  | FNum m e => if 0 <=? e then n <=? m * 2 ^ e else n * 2 ^ (- e) <=? m
  end.

Definition float_lt (f : pyfloat) (n : Z) : bool :=
  match f with
  | FNan => false
  | FInf negative => negative
  | FNum m e => if 0 <=? e then m * 2 ^ e <? n else m <? n * 2 ^ (- e)
  end.

(** [v >= n] and [v < n] against an integer [n]: only a number on the
    left is ordered with an integer; a string, a tuple or [None] is a
    [TypeError]. *)
Definition py_ge (v : value) (n : Z) : result bool :=
  match v with
  | PyInt z => Ok (n <=? z)
  | PyFloat f => Ok (float_ge f n)
  | _ => Raise TypeError
  end.

Definition py_lt (v : value) (n : Z) : result bool :=
  match v with
  | PyInt z => Ok (z <? n)
  | PyFloat f => Ok (float_lt f n)
  | _ => Raise TypeError
  end.

(** ** numpy arrays of shape (rows, cols) *)

Abbreviation ndarray A := (list (list A)) (only parsing).

Definition np_full {A} (nrows ncols : Z) (v : A) : ndarray A :=
  replicate (Z.to_nat nrows) (replicate (Z.to_nat ncols) v).

Definition nrows {A} (a : ndarray A) : Z := Z.of_nat (length a).

Definition ncols {A} (a : ndarray A) : Z :=
  match a with
  | [] => 0
  | row :: _ => Z.of_nat (length row)
  end.

(** An index along an axis of length [n]: [0 <= i < n] is itself, a
    negative index [-n <= i < 0] counts from the end, anything else is
    outside the axis. *)
Definition norm_index (n i : Z) : result nat :=
  if (0 <=? i) && (i <? n) then Ok (Z.to_nat i)
  else if (- n <=? i) && (i <? 0) then Ok (Z.to_nat (i + n))
  else Raise IndexError.

(** How numpy reads an integer of an index, before it looks at the array:
    as a C integer of 64 bits.  An integer from [2^63] to [2^64 - 1] is an
    [OverflowError]; one further out is not taken for an integer at all
    and refused with an [IndexError]. *)
Definition as_intp (i : Z) : result Z :=
  if (- 2 ^ 63 <=? i) && (i <? 2 ^ 63) then Ok i
  else if (2 ^ 63 <=? i) && (i <? 2 ^ 64) then Raise OverflowError
  else Raise IndexError.

(** The exception for an index that denotes no entry: the one of the
    first of its two integers that is not read, and an [IndexError] when
    both are read and one is out of its axis.  An axis has fewer than
    [2^63] entries, so that an index inside its axis is always read. *)
Definition index_error (loc : Z * Z) : exn :=
  match as_intp (fst loc) with
  | Raise e => e
  | Ok _ =>
      match as_intp (snd loc) with
      | Raise e => e
      | Ok _ => IndexError
      end
  end.

(** The entry in row [r], column [c], if there is one. *)
Definition cell {A} (a : ndarray A) (r c : nat) : option A :=
  a !! r ≫= (.!! c).

(** [a[(row, col)]] *)
Definition getitem {A} (a : ndarray A) (loc : Z * Z) : result A :=
  match norm_index (nrows a) (fst loc) with
  | Raise _ => Raise (index_error loc)
  | Ok r =>
      match norm_index (ncols a) (snd loc) with
      | Raise _ => Raise (index_error loc)
      | Ok c =>
          match cell a r c with
          | Some v => Ok v
          | None => Raise IndexError
          end
      end
  end.

(** [a[(row, col)] = v] *)
Definition setitem {A} (a : ndarray A) (loc : Z * Z) (v : A)
  : result (ndarray A) :=
  match norm_index (nrows a) (fst loc) with
  | Raise _ => Raise (index_error loc)
  | Ok r =>
      match norm_index (ncols a) (snd loc) with
      | Raise _ => Raise (index_error loc)
      | Ok c =>
          match a !! r with
          | Some row => Ok (<[r := <[c := v]> row]> a)
          | None => Raise IndexError
          end
      end
  end.

(** [(a == v)] and [np.where(a)] used as a mask of the same shape. *)
Definition eq_mask (a : ndarray Z) (v : Z) : ndarray bool :=
  map (map (Z.eqb v)) a.

Definition nonzero_mask (a : ndarray Z) : ndarray bool :=
  map (map (fun x => negb (x =? 0))) a.

(** [mask.any()] *)
Definition any (m : ndarray bool) : bool :=
  existsb (existsb id) m.

(** [a[mask] = v] for a mask of the shape of [a]. *)
Definition mask_assign {A} (mask : ndarray bool) (v : A) (a : ndarray A)
  : ndarray A :=
  zip_with (zip_with (fun (m : bool) (x : A) => if m then v else x)) mask a.

(** ** The instance *)

Definition unexplored : Z := 9.
Definition mine : Z := 10.
Definition exploded : Z := 11.
Definition flag : Z := 12.

Record MineClicker : Type := mkMineClicker {
  won : bool;
  lost : bool;
  quit : bool;
  rows : Z;
  cols : Z;
  grid : ndarray Z;
  flagged : ndarray Z;
  swept : ndarray Z;
  number_of_mines : Z
}.

Definition set_won (b : bool) (s : MineClicker) : MineClicker :=
  mkMineClicker b (lost s) (quit s) (rows s) (cols s)
    (grid s) (flagged s) (swept s) (number_of_mines s).
Definition set_lost (b : bool) (s : MineClicker) : MineClicker :=
  mkMineClicker (won s) b (quit s) (rows s) (cols s)
    (grid s) (flagged s) (swept s) (number_of_mines s).
Definition set_quit (b : bool) (s : MineClicker) : MineClicker :=
  mkMineClicker (won s) (lost s) b (rows s) (cols s)
    (grid s) (flagged s) (swept s) (number_of_mines s).
Definition set_grid (g : ndarray Z) (s : MineClicker) : MineClicker :=
  mkMineClicker (won s) (lost s) (quit s) (rows s) (cols s)
    g (flagged s) (swept s) (number_of_mines s).
Definition set_flagged (f : ndarray Z) (s : MineClicker) : MineClicker :=
  mkMineClicker (won s) (lost s) (quit s) (rows s) (cols s)
    (grid s) f (swept s) (number_of_mines s).
Definition set_swept (w : ndarray Z) (s : MineClicker) : MineClicker :=
  mkMineClicker (won s) (lost s) (quit s) (rows s) (cols s)
    (grid s) (flagged s) w (number_of_mines s).
Definition set_number_of_mines (n : Z) (s : MineClicker) : MineClicker :=
  mkMineClicker (won s) (lost s) (quit s) (rows s) (cols s)
    (grid s) (flagged s) (swept s) n.

(** [0 <= row < rows] and [0 <= col < cols] *)
Definition in_bounds (s : MineClicker) (loc : Z * Z) : bool :=
  (0 <=? fst loc) && (fst loc <? rows s) &&
  (0 <=? snd loc) && (snd loc <? cols s).

(** ** Methods as computations on [self]

    A method reads and writes the attributes of [self] and may raise; an
    exception leaves the attributes as they were when it was raised. *)

Definition M (A : Type) : Type := MineClicker -> result A * MineClicker.

Definition ret {A} (a : A) : M A := fun s => (Ok a, s).
Definition raise {A} (e : exn) : M A := fun s => (Raise e, s).
Definition bind {A B} (m : M A) (k : A -> M B) : M B :=
  fun s =>
    match m s with
    | (Ok a, s') => k a s'
    | (Raise e, s') => (Raise e, s')
    end.
Definition get : M MineClicker := fun s => (Ok s, s).
Definition modify (f : MineClicker -> MineClicker) : M unit :=
  fun s => (Ok tt, f s).
Definition lift {A} (r : result A) : M A := fun s => (r, s).

Declare Scope py_scope.
Delimit Scope py_scope with py.
Notation "x <- m ;; k" := (bind m (fun x => k))
  (at level 100, m at next level, right associativity) : py_scope.
Notation "m ;; k" := (bind m (fun _ => k))
  (at level 100, right associativity) : py_scope.
Open Scope py_scope.

(** [a or b], evaluated left to right, [b] only when [a] is false. *)
Definition py_or (a b : M bool) : M bool :=
  x <- a ;; if x then ret true else b.

(** [for x in xs: body] *)
Fixpoint for_each {A} (xs : list A) (body : A -> M unit) : M unit :=
  match xs with
  | [] => ret tt
  | x :: xs' => body x ;; for_each xs' body
  end.

(** [valid_location] (lib.py 296-317).  Only the unpacking is inside the
    [try]; the four comparisons are evaluated after it, left to right. *)
Definition valid_location (location : value) : M bool :=
  self <- get ;;
  match unpack2 location with
  | Raise _ => ret false
  | Ok (row, col) =>
      c <- py_or (lift (py_ge row (rows self)))
             (py_or (lift (py_lt row 0))
                (py_or (lift (py_ge col (cols self)))
                   (lift (py_lt col 0)))) ;;
      if c then ret false else ret true
  end.

(** A location given as a pair of integers, as a Python tuple. *)
Definition loc_value (loc : Z * Z) : value :=
  PyTuple [PyInt (fst loc); PyInt (snd loc)].

(** A numpy index given as a Python value.  After [valid_location] has
    answered [True] it is a tuple of two numbers; numpy takes only
    integers for the index of a cell and refuses a float with an
    [IndexError]. *)
Definition as_index (location : value) : result (Z * Z) :=
  match location with
  | PyTuple [PyInt r; PyInt c] => Ok (r, c)
  | _ => Raise IndexError
  end.

(** A tuple of two items one of which is a float. *)
Definition holds_float (location : value) : bool :=
  match location with
  | PyTuple [PyFloat _; _] | PyTuple [_; PyFloat _] => true
  | _ => false
  end.

(** The attributes set by lines 89-112 of the constructor; the mine counter
    is assigned by either branch that follows. *)
Definition fresh : MineClicker :=
  mkMineClicker false false false 8 8
    (np_full 8 8 unexplored) (np_full 8 8 0) (np_full 8 8 0) 0.

(** The body of the loop over a sample of flat indices (lib.py 122-124). *)
Definition place_sampled (location : Z) : M unit :=
  self <- get ;;
  let location := (location / cols self, location mod cols self) in
  g <- lift (setitem (grid self) location mine) ;;
  modify (set_grid g).

(** The body of the loop over an explicit list (lib.py 127-130). *)
Definition place_if_valid (location : value) : M unit :=
  v <- valid_location location ;;
  if (v : bool) then
    self <- get ;;
    i <- lift (as_index location) ;;
    g <- lift (setitem (grid self) i mine) ;;
    modify (set_grid g) ;;
    modify (fun s => set_number_of_mines (number_of_mines s + 1) s)
  else ret tt.

(** [__init__] from line 114 on.  [sample] is what
    [rand.sample(range(rows*cols), number_of_mines)] returned; it is read
    only when [locations] is [None]. *)
Definition __init__ (locations : option (list value)) (sample : list Z)
  : M unit :=
  match locations with
  | None =>
      modify (set_number_of_mines 10) ;;
      for_each sample place_sampled
  | Some locations =>
      modify (set_number_of_mines 0) ;;
      for_each locations place_if_valid
  end.

(** [MineClicker(locations)]: the object, unless the constructor raised. *)
Definition new (locations : option (list value)) (sample : list Z)
  : result MineClicker :=
  match __init__ locations sample fresh with
  | (Ok _, s) => Ok s
  | (Raise e, _) => Raise e
  end.

(** The entries of an explicit list that are locations of the board, in
    the order of the list and with their repetitions. *)
Definition valid_locations (locations : list value) : list (Z * Z) :=
  omap (fun v =>
          match as_index v with
          | Ok p => if in_bounds fresh p then Some p else None
          | Raise _ => None
          end) locations.

(** A placement in which no cell is named twice: a list without a repeated
    valid location, or what [rand.sample] returns, ten distinct indices of
    [range(rows*cols)]. *)
Definition distinct_placement (locations : option (list value))
    (sample : list Z) : Prop :=
  match locations with
  | Some l => NoDup (valid_locations l)
  | None =>
      NoDup sample /\ length sample = 10%nat /\
      forall i, i ∈ sample -> 0 <= i < rows fresh * cols fresh
  end.

(** Entries of the float array returned by [player_view]: [nan], or the
    float of an integer. *)
Inductive float_val : Set :=
| nan
| fl (z : Z).

(** What the player sees of a cell holding [g] under a flag entry [f]. *)
Definition shown (g f : Z) : float_val :=
  if f =? 1 then fl flag
  else if (g =? mine) || (g =? unexplored) then nan
  else fl g.

(** [player_view] (lib.py 175-197) *)
Definition player_view : M (ndarray float_val) :=
  self <- get ;;
  let view := np_full (rows self) (cols self) (fl 0) in
  let view := zip_with (zip_with (fun (_ : float_val) g => fl g))
                view (grid self) in
  let mine_mask := eq_mask (grid self) mine in
  let view := mask_assign mine_mask nan view in
  let unexplored_mask := eq_mask (grid self) unexplored in
  let view := mask_assign unexplored_mask nan view in
  let flag_mask := eq_mask (flagged self) 1 in
  let view := mask_assign flag_mask (fl flag) view in
  ret view.

(** [flag_tile] (lib.py 226-236): the right-hand side is read first, [not]
    of it is written back as 0 or 1. *)
Definition flag_tile (location : Z * Z) : M unit :=
  self <- get ;;
  v <- lift (getitem (flagged self) location) ;;
  f <- lift (setitem (flagged self) location (if v =? 0 then 1 else 0)) ;;
  modify (set_flagged f).

(** [clear_swept_flags] (lib.py 238-244) *)
Definition clear_swept_flags : M unit :=
  modify (fun self =>
    set_flagged (mask_assign (nonzero_mask (swept self)) 0 (flagged self))
      self).

(** [valid_location] on a candidate neighbour and the test of the cell:
    the body of the loop of [sum_adjacent_mines]. *)
Definition count_if_mine (adjacent_mines : Z) (location : Z * Z) : M Z :=
  v <- valid_location (loc_value location) ;;
  if (v : bool) then
    self <- get ;;
    g <- lift (getitem (grid self) location) ;;
    if g =? mine then ret (adjacent_mines + 1) else ret adjacent_mines
  else ret adjacent_mines.

Fixpoint for_fold {A S} (xs : list A) (acc : S) (body : S -> A -> M S)
  : M S :=
  match xs with
  | [] => ret acc
  | x :: xs' => acc' <- body acc x ;; for_fold xs' acc' body
  end.

(** [sum_adjacent_mines] (lib.py 267-294) *)
Definition sum_adjacent_mines (location : Z * Z) : M Z :=
  let adjacent_mines := 0 in
  let '(row, col) := location in
  let adjacent_locations :=
    [(row + 1, col);
     (row - 1, col);
     (row, col + 1);
     (row, col - 1);
     (row + 1, col + 1);
     (row + 1, col - 1);
     (row - 1, col + 1);
     (row - 1, col - 1)] in
  for_fold adjacent_locations adjacent_mines count_if_mine.

(** [check_game_state] (lib.py 319-329) *)
Definition check_game_state : M unit :=
  self <- get ;;
  if any (eq_mask (grid self) exploded) then modify (set_lost true)
  else if negb (any (eq_mask (grid self) unexplored)) then
    modify (set_won true)
  else ret tt.

(** [sweep_tile] (lib.py 246-265) *)
Definition sweep_tile (location : Z * Z) : M unit :=
  self <- get ;;
  w <- lift (setitem (swept self) location 1) ;;
  modify (set_swept w) ;;
  self <- get ;;
  cell <- lift (getitem (grid self) location) ;;
  (if cell =? mine then
     g <- lift (setitem (grid self) location exploded) ;;
     modify (set_grid g)
   else
     n <- sum_adjacent_mines location ;;
     self <- get ;;
     g <- lift (setitem (grid self) location n) ;;
     modify (set_grid g)) ;;
  check_game_state.

(** [exit_game] (lib.py 331-337) *)
Definition exit_game : M unit := modify (set_quit true).

(** The sweep command of [cli_take_action] (lib.py 158-159): the tile is
    swept and the flags of swept tiles are cleared. *)
Definition cli_sweep (location : Z * Z) : M unit :=
  sweep_tile location ;; clear_swept_flags.

(** ** Runs of the engine *)

Inductive op : Set :=
| Sweep (location : Z * Z)
| ToggleFlag (location : Z * Z)
| ClearSweptFlags
| RequestQuit.

Definition run_op (o : op) : M unit :=
  match o with
  | Sweep location => sweep_tile location
  | ToggleFlag location => flag_tile location
  | ClearSweptFlags => clear_swept_flags
  | RequestQuit => exit_game
  end.

(** The instance after a call, whether it returned or raised. *)
Definition after (o : op) (s : MineClicker) : MineClicker := snd (run_op o s).

Definition run (ops : list op) (s : MineClicker) : MineClicker :=
  fold_left (fun s o => after o s) ops s.


(** A run in which [sweep_tile] is never called on a cell that holds an
    exploded mine. *)
Definition holds_exploded (s : MineClicker) (p : Z * Z) : bool :=
  match getitem (grid s) p with
  | Ok v => v =? exploded
  | Raise _ => false
  end.

Fixpoint no_resweep (ops : list op) (s : MineClicker) : bool :=
  match ops with
  | [] => true
  | o :: ops' =>
      match o with
      | Sweep location => negb (holds_exploded s location)
      | _ => true
      end && no_resweep ops' (after o s)
  end.

(** A run in which [sweep_tile] is called only while the game is neither
    won nor lost, as the command loop does. *)
Fixpoint sweeps_in_play (ops : list op) (s : MineClicker) : bool :=
  match ops with
  | [] => true
  | o :: ops' =>
      match o with
      | Sweep _ => negb (won s) && negb (lost s)
      | _ => true
      end && sweeps_in_play ops' (after o s)
  end.

(** ** Shapes and the representation invariant *)

Definition shape {A} (a : ndarray A) (nr nc : nat) : Prop :=
  length a = nr /\ Forall (fun row => length row = nc) a.

(** What the constructor establishes and every method keeps: a board with
    at least one cell, the three arrays of the shape of the board, and a
    flag overlay of zeros and ones. *)
Record wf (s : MineClicker) : Prop := mk_wf {
  wf_rows : 0 < rows s;
  wf_cols : 0 < cols s;
  wf_grid : shape (grid s) (Z.to_nat (rows s)) (Z.to_nat (cols s));
  wf_flagged : shape (flagged s) (Z.to_nat (rows s)) (Z.to_nat (cols s));
  wf_swept : shape (swept s) (Z.to_nat (rows s)) (Z.to_nat (cols s));
  wf_bool_flags : Forall (Forall (fun v => v = 0 \/ v = 1)) (flagged s)
}.

(** Number of entries of an array that satisfy [P]:
    [np.sum(P(a), axis=(0, 1))]. *)
Definition count_cells (P : Z -> bool) (a : ndarray Z) : Z :=
  Z.of_nat (length (filter P (concat a))).

Definition b2z (b : bool) : Z := if b then 1 else 0.

Definition is_mine (v : Z) : bool := v =? mine.
Definition is_mine_or_exploded (v : Z) : bool :=
  (v =? mine) || (v =? exploded).

(** *** The adjacency count in the words of the specification

    The cells of the board, row by row. *)
Definition cells (s : MineClicker) : list (Z * Z) :=
  r ← seqZ 0 (rows s); (fun c => (r, c)) <$> seqZ 0 (cols s).

(** [p] is one of the eight cells around [loc]: one step away at most
    along each axis, and not [loc] itself. *)
Definition is_neighbour (loc p : Z * Z) : bool :=
  (Z.abs (fst p - fst loc) <=? 1) && (Z.abs (snd p - snd loc) <=? 1) &&
  negb ((fst p =? fst loc) && (snd p =? snd loc)).

(** The cell at [p] currently holds an undetonated mine. *)
Definition holds_mine (s : MineClicker) (p : Z * Z) : bool :=
  match getitem (grid s) p with
  | Ok v => v =? mine
  | Raise _ => false
  end.

(** The number of cells of the board that are neighbours of [loc] and hold
    a mine. *)
Definition mines_around (s : MineClicker) (loc : Z * Z) : Z :=
  Z.of_nat (length
    (filter (fun p => is_neighbour loc p && holds_mine s p) (cells s))).

(** The value [sweep_tile] writes into a cell that held [old]. *)
Definition revealed (s : MineClicker) (loc : Z * Z) (old : Z) : Z :=
  if old =? mine then exploded else mines_around s loc.

(** The candidates [sum_adjacent_mines] goes through, in its order. *)
Definition adjacent_locations (loc : Z * Z) : list (Z * Z) :=
  let '(row, col) := loc in
  [(row + 1, col);
   (row - 1, col);
   (row, col + 1);
   (row, col - 1);
   (row + 1, col + 1);
   (row + 1, col - 1);
   (row - 1, col + 1);
   (row - 1, col - 1)].

(** Every cell of the board but the first one. *)
Definition all_but_first : list value :=
  loc_value <$> filter (fun p => p <> (0, 0)) (cells fresh).

(** The entry a location denotes in an array of [nr] rows and [nc]
    columns. *)
Definition resolve (nr nc : nat) (loc : Z * Z) : result (nat * nat) :=
  match norm_index (Z.of_nat nr) (fst loc) with
  | Raise _ => Raise (index_error loc)
  | Ok r =>
      match norm_index (Z.of_nat nc) (snd loc) with
      | Raise _ => Raise (index_error loc)
      | Ok c => Ok (r, c)
      end
  end.

(** ** The command line: strings, parsing and the command loop *)

(** [s.split(sep)] for a separator of one character: the pieces between
    the occurrences of [sep], empty pieces included. *)
Fixpoint split (sep : ascii) (s : string) : list string :=
  match s with
  | EmptyString => [EmptyString]
  | String c s' =>
      if Ascii.eqb c sep then EmptyString :: split sep s'
      else
        match split sep s' with
        | tok :: toks => String c tok :: toks
        | [] => [String c EmptyString]
        end
  end.

(** [sep.join(pieces)] *)
Fixpoint join (sep : ascii) (pieces : list string) : string :=
  match pieces with
  | [] => EmptyString
  | [piece] => piece
  | piece :: rest => append piece (String sep (join sep rest))
  end.

(** Occurrences of a character in a string. *)
Fixpoint occurrences (c : ascii) (s : string) : nat :=
  match s with
  | EmptyString => O
  | String a s' => (if Ascii.eqb a c then 1 else 0) + occurrences c s'
  end.

(** [s.lstrip(c)], [s.rstrip(c)] and [s.strip(c)] for a set of one
    character. *)
Fixpoint lstrip (c : ascii) (s : string) : string :=
  match s with
  | EmptyString => EmptyString
  | String a s' => if Ascii.eqb a c then lstrip c s' else s
  end.

Fixpoint rstrip (c : ascii) (s : string) : string :=
  match s with
  | EmptyString => EmptyString
  | String a s' =>
      match rstrip c s' with
      | EmptyString =>
          if Ascii.eqb a c then EmptyString else String a EmptyString
      | t => String a t
      end
  end.

Definition strip (c : ascii) (s : string) : string := rstrip c (lstrip c s).

(** [c in s] for a string [c] of one character. *)
Fixpoint contains (c : ascii) (s : string) : bool :=
  match s with
  | EmptyString => false
  | String a s' => Ascii.eqb a c || contains c s'
  end.

(** [l[i]] on a list: an [IndexError] past the end. *)
Definition list_item {A} (l : list A) (i : nat) : result A :=
  match l !! i with
  | Some x => Ok x
  | None => Raise IndexError
  end.

Definition bind_result {A B} (r : result A) (k : A -> result B) : result B :=
  match r with
  | Ok a => k a
  | Raise e => Raise e
  end.

(** [try: body except Exception: handler] *)
Definition try_except {A} (body handler : M A) : M A :=
  fun s =>
    match body s with
    | (Raise _, s') => handler s'
    | r => r
    end.

(** [parse_coords] (lib.py 199-224).  The builtin [int] is a parameter:
    a function from strings to an integer or an exception. *)
Definition parse_coords (int : string -> result Z) (user_string : string)
  : M (option (Z * Z)) :=
  let parsing := split " " user_string in
  if negb (length parsing =? 2)%nat then ret None
  else
    try_except
      (row <- lift (bind_result (list_item parsing 0) int) ;;
       col <- lift (bind_result (list_item parsing 1) int) ;;
       let location := (row, col) in
       v <- valid_location (loc_value location) ;;
       if (v : bool) then ret (Some location) else ret None)
      (ret None).

(** What [cli_take_action] prints: the masked board, the prompt with the
    number of mines, the refusal of a command, the unmasked board. *)
Inductive output : Type :=
| ShowView (view : list (list float_val))
| Prompt (mines : Z)
| NotUnderstood
| ShowEndgame (endgame : list (list float_val)).

(** [(a == v)] for a float array and an integer. *)
Definition float_eq_mask (a : ndarray float_val) (v : Z) : ndarray bool :=
  map (map (fun x => match x with fl z => z =? v | nan => false end)) a.

(** The board printed at the end of a game (lib.py 166-168). *)
Definition endgame_board (self : MineClicker) : ndarray float_val :=
  let endgame := np_full (rows self) (cols self) (fl 0) in
  let endgame := zip_with (zip_with (fun (_ : float_val) g => fl g))
                   endgame (grid self) in
  mask_assign (float_eq_mask endgame unexplored) nan endgame.

(** The end of [cli_take_action] (lib.py 165-173). *)
Definition show_endgame (out : list output) : M (list output) :=
  self <- get ;;
  if won self || lost self then ret (out ++ [ShowEndgame (endgame_board self)])
  else ret out.

(** [cli_take_action] (lib.py 132-173); [user_string] is the line [input]
    returned, the value is what was printed. *)
Definition cli_take_action (int : string -> result Z) (user_string : string)
  : M (list output) :=
  view <- player_view ;;
  self <- get ;;
  let out := [ShowView view; Prompt (number_of_mines self)] in
  if String.eqb user_string "q" then
    exit_game ;; show_endgame out
  else
    location <- parse_coords int (strip "f" user_string) ;;
    match location with
    | Some location =>
        (if contains "f" user_string then flag_tile location
         else sweep_tile location) ;;
        clear_swept_flags ;;
        show_endgame out
    | None => ret (out ++ [NotUnderstood])
    end.

(** ** The program: [__main__.py] *)

(** The dictionary of [check_yes]. *)
Definition answers : gmap string bool :=
  list_to_map
    [("Yes", true); ("yes", true); ("Y", true); ("y", true);
     ("No", false); ("no", false); ("N", false); ("n", false)]%string.

(** [check_yes] (__main__.py 10-28) *)
Definition check_yes (user_string : string) : option bool :=
  answers !! user_string.

(** The lines read by the three prompts of the end of a round, one for
    each flag that is up; the last one read is [continue_string]. *)
Definition read_if (b : bool) (inputs : list string)
    (continue_string : option string)
  : option (option string * list string) :=
  if b then
    match inputs with
    | [] => None
    | line :: rest => Some (Some line, rest)
    end
  else Some (continue_string, inputs).

(** [while clear_answer is False] (__main__.py 65-71) *)
Fixpoint ask_until_clear (inputs : list string)
  : option (string * list string) :=
  match inputs with
  | [] => None
  | continue_string :: rest =>
      match check_yes continue_string with
      | Some _ => Some (continue_string, rest)
      | None => ask_until_clear rest
      end
  end.

(** The end of a round (__main__.py 51-73): the value is the local [quit]
    and the lines left; [None] when [input] has no line to return. *)
Definition end_of_round (game : MineClicker) (inputs : list string)
  : option (bool * list string) :=
  '(a, inputs) ← read_if (won game) inputs None;
  '(a, inputs) ← read_if (lost game) inputs a;
  '(a, inputs) ← read_if (quit game) inputs a;
  continue_string ← a;
  '(continue_string, inputs) ←
    match check_yes continue_string with
    | None => ask_until_clear inputs
    | Some _ => Some (continue_string, inputs)
    end;
  match check_yes continue_string with
  | Some true => Some (false, inputs)
  | _ => Some (true, inputs)
  end.

(** The rounds of a game (__main__.py 47-50): actions are taken until one
    of the three flags is up.  An exception of [cli_take_action]
    ends them; [None] means [input] has no line to return. *)
Fixpoint play (int : string -> result Z) (inputs : list string)
    (game : MineClicker) : result (option (MineClicker * list string)) :=
  match inputs with
  | [] => Ok None
  | user_string :: rest =>
      match cli_take_action int user_string game with
      | (Raise e, _) => Raise e
      | (Ok _, game) =>
          if lost game || won game || quit game then Ok (Some (game, rest))
          else play int rest game
      end
  end.

(** How a session ends: the loop is left after a "no", or [input] has no
    more line, or an exception escapes.  Each carries the games that were
    played to their end. *)
Inductive session : Type :=
| Thanks (games : list MineClicker)
| AwaitingInput (games : list MineClicker)
| Crashed (e : exn) (games : list MineClicker).

(** [run_cli_game] (__main__.py 31-76).  [sample n] is what [rand.sample]
    returns for the n-th game; every game reads at least one line, which
    bounds the number of games by the number of lines. *)
Fixpoint games_loop (fuel : nat) (int : string -> result Z)
    (locations : option (list value)) (sample : nat -> list Z) (n : nat)
    (inputs : list string) (played : list MineClicker) : session :=
  match fuel with
  | O => AwaitingInput played
  | S fuel =>
      match new locations (sample n) with
      | Raise e => Crashed e played
      | Ok game =>
          match play int inputs game with
          | Raise e => Crashed e played
          | Ok None => AwaitingInput played
          | Ok (Some (game, inputs)) =>
              match end_of_round game inputs with
              | None => AwaitingInput (played ++ [game])
              | Some (true, _) => Thanks (played ++ [game])
              | Some (false, inputs) =>
                  games_loop fuel int locations sample (S n) inputs
                    (played ++ [game])
              end
          end
      end
  end.

Definition run_cli_game (int : string -> result Z)
    (locations : option (list value)) (sample : nat -> list Z)
    (inputs : list string) : session :=
  games_loop (S (length inputs)) int locations sample 0 inputs [].

(** The list of locations of the command line (__main__.py 85-89). *)
Fixpoint parse_args (int : string -> result Z) (strings : list string)
  : result (list value) :=
  match strings with
  | [] => Ok []
  | string :: rest =>
      let string := split "," string in
      bind_result (bind_result (list_item string 0) int) (fun row =>
      bind_result (bind_result (list_item string 1) int) (fun col =>
      bind_result (parse_args int rest) (fun locations =>
      Ok (loc_value (row, col) :: locations))))
  end.

(** The program (__main__.py 83-96): [argv] is [sys.argv]. *)
Definition main (int : string -> result Z) (argv : list string)
    (sample : nat -> list Z) (inputs : list string) : session :=
  let locations :=
    if (1 <? length argv)%nat then
      match parse_args int (tail argv) with
      | Ok locations => Some locations
      | Raise _ => None
      end
    else None in
  run_cli_game int locations sample inputs.

(** ** Predicates on instances *)


(** No swept cell is flagged. *)
Definition swept_unflagged (s : MineClicker) : Prop :=
  forall r c w, cell (swept s) r c = Some w -> w <> 0 ->
                cell (flagged s) r c = Some 0.

(** A board on which mines are being laid: the attributes of [fresh] but
    for the counter and a grid of unexplored and mined cells. *)
Definition laying (s : MineClicker) : Prop :=
  exists g n,
    s = set_number_of_mines n (set_grid g fresh) /\
    shape g 8 8 /\
    Forall (Forall (fun v => v = unexplored \/ v = mine)) g.

(** The cells a sample of flat indices denotes: [divmod(i, cols)]. *)
Definition sampled_locations (sample : list Z) : list (Z * Z) :=
  (fun i => (i / cols fresh, i mod cols fresh)) <$> sample.

(** A game in which no mine has been swept: nothing is lost or exploded,
    the mines are where [s0] has them, and every unexplored cell of the
    board is on the list [rest]. *)
Definition sweeping (s0 s : MineClicker) (rest : list (Z * Z)) : Prop :=
  wf s /\ rows s = rows s0 /\ cols s = cols s0 /\ lost s = false /\
  (forall q, in_bounds s0 q = true -> getitem (grid s) q <> Ok exploded) /\
  (forall q, in_bounds s0 q = true -> holds_mine s q = holds_mine s0 q) /\
  (forall q, in_bounds s0 q = true ->
             getitem (grid s) q = Ok unexplored -> q ∈ rest).

(** The calls [cli_take_action] makes on the instance for a line of
    input. *)
Definition cli_ops (int : string -> result Z) (user_string : string)
    (s : MineClicker) : list op :=
  if String.eqb user_string "q" then [RequestQuit]
  else
    match fst (parse_coords int (strip "f" user_string) s) with
    | Ok (Some location) =>
        [if contains "f" user_string then ToggleFlag location
         else Sweep location;
         ClearSweptFlags]
    | _ => []
    end.

(** The location of a call, if it has one. *)
Definition op_location (o : op) : option (Z * Z) :=
  match o with
  | Sweep location | ToggleFlag location => Some location
  | _ => None
  end.

(** What [cli_take_action] prints after the board and the prompt. *)
Definition cli_tail (int : string -> result Z) (user_string : string)
    (s s' : MineClicker) : list output :=
  match cli_ops int user_string s with
  | [] => [NotUnderstood]
  | _ => if won s' || lost s' then [ShowEndgame (endgame_board s')] else []
  end.

(** A function that agrees with [int] on the strings made of ASCII digits
    with an optional sign; [int] accepts more (blanks around the number,
    underscores between digits).  It stands for the parameter [int] in
    examples. *)
Fixpoint digits_value (acc : Z) (s : string) : result Z :=
  match s with
  | EmptyString => Ok acc
  | String c s' =>
      let n := Z.of_nat (nat_of_ascii c) in
      if (48 <=? n) && (n <=? 57) then digits_value (10 * acc + (n - 48)) s'
      else Raise ValueError
  end.

Definition decimal (s : string) : result Z :=
  match s with
  | EmptyString => Raise ValueError
  | String "-" (String c s' as ds) =>
      bind_result (digits_value 0 ds) (fun n => Ok (- n))
  | String "+" (String c s' as ds) => digits_value 0 ds
  | ds => digits_value 0 ds
  end.

(** The three flags of a game: none is up while it is played, exactly one
    is up when it has ended. *)
Definition in_play (s : MineClicker) : Prop :=
  won s = false /\ lost s = false /\ quit s = false.

Definition one_flag (s : MineClicker) : Prop :=
  (won s = true /\ lost s = false /\ quit s = false) \/
  (won s = false /\ lost s = true /\ quit s = false) \/
  (won s = false /\ lost s = false /\ quit s = true).

(** A game played to its end at the prompt. *)
Definition ended (game : MineClicker) : Prop :=
  one_flag game /\ wf game /\ swept_unflagged game.

(** The board of the test of [sweep_tile], with three mines, and a board
    with a mine on every cell but the first. *)
Definition test_locations : list value :=
  [loc_value (1, 6); loc_value (3, 1); loc_value (5, 1)].

Definition test_board : MineClicker :=
  Eval vm_compute in
    match new (Some test_locations) [] with
    | Ok s => s
    | Raise _ => fresh
    end.

Definition crowded_board : MineClicker :=
  Eval vm_compute in
    match new (Some all_but_first) [] with
    | Ok s => s
    | Raise _ => fresh
    end.

(** ** Arrays: reading and writing one entry *)

Section Arrays.
Context {A : Type}.
Implicit Types (a : ndarray A) (v : A).

Lemma shape_ncols a nr nc :
  shape a nr nc -> (0 < nr)%nat -> ncols a = Z.of_nat nc.
Proof.
  intros [Hl Hf] Hpos. destruct a as [|row a']; simpl in *; [lia|].
  inversion Hf; subst. reflexivity.
Qed.

Lemma shape_nrows a nr nc : shape a nr nc -> nrows a = Z.of_nat nr.
Proof. intros [Hl _]. unfold nrows. lia. Qed.

Lemma shape_row a nr nc r row :
  shape a nr nc -> a !! r = Some row -> length row = nc.
Proof.
  intros [_ Hf] Hr. rewrite Forall_lookup in Hf. exact (Hf r row Hr).
Qed.

Lemma norm_index_lt n i k : norm_index n i = Ok k -> (Z.of_nat k < n).
Proof.
  unfold norm_index. intros H.
  destruct ((0 <=? i) && (i <? n)) eqn:E1.
  - inversion H; subst. lia.
  - destruct ((- n <=? i) && (i <? 0)) eqn:E2; [|discriminate].
    inversion H; subst. lia.
Qed.

Lemma norm_index_in_range n i :
  0 <= i < n -> norm_index n i = Ok (Z.to_nat i).
Proof.
  intros H. unfold norm_index.
  replace ((0 <=? i) && (i <? n)) with true; [reflexivity|].
  symmetry. apply andb_true_iff. lia.
Qed.

Lemma norm_index_out_of_range n i :
  n <= i \/ i < - n -> norm_index n i = Raise IndexError.
Proof.
  intros H. unfold norm_index.
  replace ((0 <=? i) && (i <? n)) with false
    by (symmetry; apply andb_false_iff; lia).
  replace ((- n <=? i) && (i <? 0)) with false
    by (symmetry; apply andb_false_iff; lia).
  reflexivity.
Qed.

Lemma resolve_lt nr nc loc r c :
  resolve nr nc loc = Ok (r, c) -> (r < nr)%nat /\ (c < nc)%nat.
Proof.
  unfold resolve. intros H.
  destruct (norm_index (Z.of_nat nr) (fst loc)) as [r'|] eqn:Er;
    [|discriminate].
  destruct (norm_index (Z.of_nat nc) (snd loc)) as [c'|] eqn:Ec;
    [|discriminate].
  inversion H; subst.
  apply norm_index_lt in Er, Ec. lia.
Qed.

Lemma cell_lt a nr nc r c :
  shape a nr nc -> (r < nr)%nat -> (c < nc)%nat -> is_Some (cell a r c).
Proof.
  intros Hs Hr Hc. unfold cell.
  destruct (a !! r) as [row|] eqn:Er.
  - simpl. apply lookup_lt_is_Some.
    rewrite (shape_row _ _ _ _ _ Hs Er). exact Hc.
  - apply lookup_ge_None in Er. destruct Hs as [Hl _]. lia.
Qed.

Lemma getitem_resolve a nr nc loc :
  shape a nr nc -> (0 < nr)%nat ->
  getitem a loc =
    match resolve nr nc loc with
    | Ok (r, c) =>
        match cell a r c with Some v => Ok v | None => Raise IndexError end
    | Raise e => Raise e
    end.
Proof.
  intros Hs Hpos. unfold getitem, resolve.
  rewrite (shape_nrows _ _ _ Hs), (shape_ncols _ _ _ Hs Hpos).
  destruct (norm_index _ (fst loc)); [|reflexivity].
  destruct (norm_index _ (snd loc)); reflexivity.
Qed.

Lemma setitem_resolve a nr nc loc v :
  shape a nr nc -> (0 < nr)%nat ->
  setitem a loc v =
    match resolve nr nc loc with
    | Ok (r, c) =>
        match a !! r with
        | Some row => Ok (<[r := <[c := v]> row]> a)
        | None => Raise IndexError
        end
    | Raise e => Raise e
    end.
Proof.
  intros Hs Hpos. unfold setitem, resolve.
  rewrite (shape_nrows _ _ _ Hs), (shape_ncols _ _ _ Hs Hpos).
  destruct (norm_index _ (fst loc)); [|reflexivity].
  destruct (norm_index _ (snd loc)); reflexivity.
Qed.

Lemma shape_insert a nr nc r c v row :
  shape a nr nc -> a !! r = Some row ->
  shape (<[r := <[c := v]> row]> a) nr nc.
Proof.
  intros Hs Hr. pose proof (shape_row _ _ _ _ _ Hs Hr) as Hrow.
  destruct Hs as [Hl Hf]. split.
  - rewrite length_insert. exact Hl.
  - apply Forall_insert; [exact Hf|].
    cbv beta. rewrite length_insert. exact Hrow.
Qed.

Lemma cell_insert a r c v row r' c' :
  a !! r = Some row -> (c < length row)%nat ->
  cell (<[r := <[c := v]> row]> a) r' c' =
    if decide (r' = r /\ c' = c) then Some v else cell a r' c'.
Proof.
  intros Hr Hc. unfold cell.
  destruct (decide (r' = r)) as [->|Hne].
  - rewrite list_lookup_insert_eq by (eapply lookup_lt_Some; eauto).
    rewrite Hr. simpl.
    destruct (decide (c' = c)) as [->|Hnc].
    + rewrite list_lookup_insert_eq by exact Hc.
      rewrite decide_True by done. reflexivity.
    + rewrite list_lookup_insert_ne by congruence.
      rewrite decide_False by (intros [_ ?]; congruence). reflexivity.
  - rewrite list_lookup_insert_ne by congruence.
    rewrite decide_False by (intros [? _]; congruence). reflexivity.
Qed.

(** Outcome of a read and of a write at a location, in an array of a
    known shape: both raise together, and a write changes the one entry
    the location resolves to. *)
Lemma setitem_ok a nr nc loc v :
  shape a nr nc -> (0 < nr)%nat ->
  forall r c, resolve nr nc loc = Ok (r, c) ->
  exists a' old row,
    setitem a loc v = Ok a' /\ getitem a loc = Ok old /\
    shape a' nr nc /\ cell a r c = Some old /\
    a !! r = Some row /\ row !! c = Some old /\
    a' = <[r := <[c := v]> row]> a /\
    (forall r' c', cell a' r' c' =
       if decide (r' = r /\ c' = c) then Some v else cell a r' c').
Proof.
  intros Hs Hpos r c Hres.
  destruct (resolve_lt _ _ _ _ _ Hres) as [Hr Hc].
  destruct (cell_lt a nr nc r c Hs Hr Hc) as [old Hold].
  pose proof Hold as Hold'. unfold cell in Hold'.
  destruct (a !! r) as [row|] eqn:Erow; [|discriminate]. simpl in Hold'.
  exists (<[r := <[c := v]> row]> a), old, row.
  rewrite (setitem_resolve _ _ _ _ _ Hs Hpos),
          (getitem_resolve _ _ _ _ Hs Hpos), Hres, Erow, Hold.
  split_and!; try reflexivity; try assumption.
  - apply shape_insert; assumption.
  - intros r' c'. apply cell_insert; [exact Erow|].
    rewrite (shape_row _ _ _ _ _ Hs Erow). exact Hc.
Qed.

Lemma setitem_raise a nr nc loc v e :
  shape a nr nc -> (0 < nr)%nat ->
  resolve nr nc loc = Raise e ->
  setitem a loc v = Raise e /\ getitem a loc = Raise e.
Proof.
  intros Hs Hpos Hres.
  rewrite (setitem_resolve _ _ _ _ _ Hs Hpos),
          (getitem_resolve _ _ _ _ Hs Hpos), Hres.
  split; reflexivity.
Qed.
End Arrays.

(** ** The methods on a well-formed instance *)

Lemma valid_location_pair s loc :
  valid_location (loc_value loc) s = (Ok (in_bounds s loc), s).
Proof.
  destruct loc as [r c].
  unfold valid_location, in_bounds, loc_value, py_or, bind, lift, get, ret.
  simpl.
  destruct (rows s <=? r) eqn:E1; simpl.
  { replace (r <? rows s) with false by lia.
    rewrite andb_false_r. reflexivity. }
  destruct (r <? 0) eqn:E2; simpl.
  { replace (0 <=? r) with false by lia. reflexivity. }
  destruct (cols s <=? c) eqn:E3; simpl.
  { replace (c <? cols s) with false by lia.
    rewrite andb_false_r. reflexivity. }
  destruct (c <? 0) eqn:E4; simpl.
  { replace (0 <=? c) with false by lia.
    rewrite andb_false_r. reflexivity. }
  replace (0 <=? r) with true by lia. replace (r <? rows s) with true by lia.
  replace (0 <=? c) with true by lia. replace (c <? cols s) with true by lia.
  reflexivity.
Qed.

Lemma in_bounds_spec s loc :
  in_bounds s loc = true <->
  0 <= fst loc < rows s /\ 0 <= snd loc < cols s.
Proof. unfold in_bounds. rewrite !andb_true_iff. lia. Qed.

Lemma resolve_in_bounds s loc :
  wf s -> in_bounds s loc = true ->
  resolve (Z.to_nat (rows s)) (Z.to_nat (cols s)) loc =
    Ok (Z.to_nat (fst loc), Z.to_nat (snd loc)).
Proof.
  intros Hwf Hb. apply in_bounds_spec in Hb. unfold resolve.
  rewrite !norm_index_in_range by lia. reflexivity.
Qed.

Lemma rows_pos_nat s : wf s -> (0 < Z.to_nat (rows s))%nat.
Proof. intros Hwf. pose proof (wf_rows s Hwf). lia. Qed.

(** A read of the grid inside the board returns the cell. *)
Lemma getitem_grid_in_bounds s loc :
  wf s -> in_bounds s loc = true ->
  exists v, getitem (grid s) loc = Ok v /\
            cell (grid s) (Z.to_nat (fst loc)) (Z.to_nat (snd loc)) = Some v.
Proof.
  intros Hwf Hb.
  destruct (setitem_ok (grid s) _ _ loc 0 (wf_grid s Hwf) (rows_pos_nat s Hwf)
              _ _ (resolve_in_bounds s loc Hwf Hb))
    as (a' & old & row & _ & Hget & _ & Hcell & _).
  exists old. split; assumption.
Qed.

Lemma count_if_mine_spec s acc p :
  wf s ->
  count_if_mine acc p s =
    (Ok (acc + if in_bounds s p && holds_mine s p then 1 else 0), s).
Proof.
  intros Hwf. unfold count_if_mine, bind.
  rewrite valid_location_pair.
  destruct (in_bounds s p) eqn:Hb; simpl.
  - destruct (getitem_grid_in_bounds s p Hwf Hb) as (v & Hget & _).
    unfold get, lift, holds_mine. rewrite Hget.
    destruct (v =? mine); unfold ret; [reflexivity|].
    f_equal. f_equal. lia.
  - unfold ret. f_equal. f_equal. lia.
Qed.

Lemma for_fold_count_if_mine s ps acc :
  wf s ->
  for_fold ps acc count_if_mine s =
    (Ok (acc + Z.of_nat (length
            (filter (fun p => in_bounds s p && holds_mine s p) ps))), s).
Proof.
  intros Hwf. revert acc. induction ps as [|p ps IH]; intros acc; simpl.
  - unfold ret. f_equal. f_equal. lia.
  - unfold bind. rewrite count_if_mine_spec by exact Hwf.
    rewrite IH.
    destruct (in_bounds s p && holds_mine s p) eqn:E.
    + rewrite filter_cons_True by (cbv beta; rewrite E; exact I).
      f_equal. f_equal. simpl length. lia.
    + rewrite filter_cons_False by (cbv beta; rewrite E; exact id).
      f_equal. f_equal. lia.
Qed.

Lemma sum_adjacent_mines_spec s loc :
  wf s ->
  sum_adjacent_mines loc s =
    (Ok (Z.of_nat (length
           (filter (fun p => in_bounds s p && holds_mine s p)
              (adjacent_locations loc)))), s).
Proof.
  intros Hwf. destruct loc as [row col].
  unfold sum_adjacent_mines, adjacent_locations.
  rewrite for_fold_count_if_mine by exact Hwf. reflexivity.
Qed.

(** ** The loop of [sum_adjacent_mines] counts the mined neighbours *)

Lemma elem_of_cells s p : p ∈ cells s <-> in_bounds s p = true.
Proof.
  destruct p as [r c]. unfold cells. rewrite list_elem_of_bind, in_bounds_spec.
  simpl. split.
  - intros (r' & Hc & Hr). apply list_elem_of_fmap in Hc as (c' & Heq & Hc).
    inversion Heq; subst. apply elem_of_seqZ in Hr, Hc. lia.
  - intros [Hr Hc]. exists r. split.
    + apply list_elem_of_fmap. exists c. split; [reflexivity|].
      apply elem_of_seqZ. lia.
    + apply elem_of_seqZ. lia.
Qed.

Lemma NoDup_cells s : NoDup (cells s).
Proof.
  unfold cells. apply NoDup_bind.
  - intros r1 r2 [r c] _ _ H1 H2.
    apply list_elem_of_fmap in H1 as (c1 & E1 & _).
    apply list_elem_of_fmap in H2 as (c2 & E2 & _). congruence.
  - intros r _. apply NoDup_fmap_2; [|apply NoDup_seqZ].
    intros c1 c2 E. congruence.
  - apply NoDup_seqZ.
Qed.

Lemma NoDup_adjacent_locations loc : NoDup (adjacent_locations loc).
Proof.
  destruct loc as [row col]. unfold adjacent_locations.
  repeat (apply NoDup_cons; split;
          [rewrite ?elem_of_cons, elem_of_nil; intros H;
           repeat (destruct H as [H|H]; [inversion H; lia|]); exact H|]).
  apply NoDup_nil. exact I.
Qed.

Lemma is_neighbour_adjacent loc p :
  is_neighbour loc p = true <-> p ∈ adjacent_locations loc.
Proof.
  destruct loc as [row col], p as [r c].
  unfold is_neighbour, adjacent_locations. simpl.
  rewrite !andb_true_iff, negb_true_iff, andb_false_iff.
  rewrite ?elem_of_cons, elem_of_nil. split.
  - intros [[Hr Hc] Hne].
    assert (r = row - 1 \/ r = row \/ r = row + 1) as Hr' by lia.
    assert (c = col - 1 \/ c = col \/ c = col + 1) as Hc' by lia.
    destruct Hr' as [-> | [-> | ->]], Hc' as [-> | [-> | ->]]; try tauto.
    destruct Hne as [Hne|Hne]; lia.
  - intros H.
    repeat (destruct H as [H|H];
            [inversion H; subst; split; [split|]; lia|]).
    destruct H.
Qed.

Lemma neighbours_on_board s loc :
  filter (fun p => is_neighbour loc p) (cells s)
  ≡ₚ filter (fun p => in_bounds s p) (adjacent_locations loc).
Proof.
  apply NoDup_Permutation.
  - apply NoDup_filter, NoDup_cells.
  - apply NoDup_filter, NoDup_adjacent_locations.
  - intros p. rewrite !list_elem_of_filter, elem_of_cells.
    rewrite <- is_neighbour_adjacent, !Is_true_true. tauto.
Qed.

Lemma filter_andb {A} (f g : A -> bool) (l : list A) :
  filter (fun x => f x && g x) l = filter (fun x => g x) (filter (fun x => f x) l).
Proof.
  rewrite list_filter_filter. apply list_filter_iff.
  intros x. rewrite andb_True. tauto.
Qed.

(** The value computed by [sum_adjacent_mines] is the number of board
    cells around the location that hold a mine. *)
Lemma sum_adjacent_mines_mines_around s loc :
  wf s -> sum_adjacent_mines loc s = (Ok (mines_around s loc), s).
Proof.
  intros Hwf. rewrite sum_adjacent_mines_spec by exact Hwf.
  unfold mines_around. rewrite !filter_andb.
  rewrite (neighbours_on_board s loc). reflexivity.
Qed.

Lemma mines_around_bounds s loc : wf s -> 0 <= mines_around s loc <= 8.
Proof.
  intros Hwf.
  pose proof (sum_adjacent_mines_mines_around s loc Hwf) as H.
  rewrite sum_adjacent_mines_spec in H by exact Hwf.
  assert (mines_around s loc =
          Z.of_nat (length (filter (fun p => in_bounds s p && holds_mine s p)
                              (adjacent_locations loc)))) as ->
    by congruence.
  pose proof (length_filter
    (fun p => in_bounds s p && holds_mine s p) (adjacent_locations loc)) as Hl.
  assert (length (adjacent_locations loc) = 8%nat) as Hlen
    by (destruct loc; reflexivity).
  lia.
Qed.

(** ** Counting cells across a write *)

Lemma filter_length_insert (P : Z -> bool) (row : list Z) c v old :
  row !! c = Some old ->
  (length (filter P (<[c := v]> row)) + (if P old then 1 else 0) =
   length (filter P row) + (if P v then 1 else 0))%nat.
Proof.
  intros Hc.
  rewrite insert_take_drop by (eapply lookup_lt_Some; eauto).
  rewrite <- (take_drop_middle row c old Hc) at 3.
  rewrite !filter_app, !length_app, !filter_cons.
  destruct (P old) eqn:Eo, (P v) eqn:Ev;
    repeat (first [rewrite decide_True by (rewrite ?Eo, ?Ev; exact I)
                  |rewrite decide_False by (rewrite ?Eo, ?Ev; exact id)]);
    simpl; lia.
Qed.

Lemma count_cells_insert (P : Z -> bool) (a : list (list Z)) r c v row old :
  a !! r = Some row -> row !! c = Some old ->
  count_cells P (<[r := <[c := v]> row]> a) + b2z (P old) =
  count_cells P a + b2z (P v).
Proof.
  intros Hr Hc. unfold count_cells.
  pose proof (filter_length_insert P row c v old Hc) as Hrow.
  rewrite insert_take_drop by (eapply lookup_lt_Some; eauto).
  rewrite <- (take_drop_middle a r row Hr) at 3.
  rewrite !concat_app, !concat_cons, !filter_app, !length_app.
  unfold b2z. destruct (P old), (P v); lia.
Qed.

(** ** Masks *)

Section Masks.
Context {A B : Type}.

Lemma cell_map (f : A -> B) (a : list (list A)) r c :
  cell (map (map f) a) r c = f <$> cell a r c.
Proof.
  unfold cell. change (map (map f) a) with (map f <$> a).
  rewrite list_lookup_fmap. destruct (a !! r) as [row|]; simpl; [|reflexivity].
  change (map f row) with (f <$> row). apply list_lookup_fmap.
Qed.

Lemma shape_map (f : A -> B) (a : list (list A)) nr nc :
  shape a nr nc -> shape (map (map f) a) nr nc.
Proof.
  intros [Hl Hf]. split.
  - rewrite length_map. exact Hl.
  - apply Forall_forall. intros row' Hin.
    apply list_elem_of_In, in_map_iff in Hin as (row & <- & Hin).
    rewrite length_map. rewrite Forall_forall in Hf.
    apply Hf, list_elem_of_In, Hin.
Qed.

Lemma cell_zip_with {C} (f : A -> B -> C) (a : list (list A))
    (b : list (list B)) r c :
  cell (zip_with (zip_with f) a b) r c =
    match cell a r c, cell b r c with
    | Some x, Some y => Some (f x y)
    | _, _ => None
    end.
Proof.
  unfold cell. rewrite lookup_zip_with.
  destruct (a !! r) as [ra|]; simpl; [|reflexivity].
  destruct (b !! r) as [rb|]; simpl.
  - rewrite lookup_zip_with.
    destruct (ra !! c); simpl; [|reflexivity].
    destruct (rb !! c); reflexivity.
  - destruct (ra !! c); reflexivity.
Qed.

Lemma shape_zip_with {C} (f : A -> B -> C) (a : list (list A))
    (b : list (list B)) nr nc :
  shape a nr nc -> shape b nr nc -> shape (zip_with (zip_with f) a b) nr nc.
Proof.
  intros [Hla Hfa] [Hlb Hfb]. split.
  - rewrite length_zip_with. lia.
  - apply Forall_lookup. intros i row Hi.
    apply lookup_zip_with_Some in Hi as (ra & rb & -> & Ha & Hb).
    rewrite Forall_lookup in Hfa. rewrite Forall_lookup in Hfb.
    rewrite length_zip_with, (Hfa i ra Ha), (Hfb i rb Hb). lia.
Qed.
End Masks.

Lemma cell_mask_assign {A} (m : list (list bool)) (v : A) (a : list (list A))
    r c :
  cell (mask_assign m v a) r c =
    match cell m r c, cell a r c with
    | Some b, Some x => Some (if b then v else x)
    | _, _ => None
    end.
Proof. unfold mask_assign. apply cell_zip_with. Qed.

Lemma cell_np_full {A} (nr nc : Z) (v : A) r c :
  (r < Z.to_nat nr)%nat -> (c < Z.to_nat nc)%nat ->
  cell (np_full nr nc v) r c = Some v.
Proof.
  intros Hr Hc. unfold cell, np_full.
  rewrite lookup_replicate_2 by exact Hr. simpl.
  apply lookup_replicate_2. exact Hc.
Qed.

Lemma shape_np_full {A} (nr nc : Z) (v : A) :
  shape (np_full nr nc v) (Z.to_nat nr) (Z.to_nat nc).
Proof.
  split.
  - unfold np_full. apply length_replicate.
  - unfold np_full. apply Forall_replicate, length_replicate.
Qed.

(** [v in a] for an array: some entry is [v]. *)
Lemma any_eq_mask (a : list (list Z)) v :
  any (eq_mask a v) = true <-> exists r c, cell a r c = Some v.
Proof.
  unfold any, eq_mask. rewrite existsb_exists. split.
  - intros (mrow & Hin & Hex).
    apply in_map_iff in Hin as (row & <- & Hin).
    apply existsb_exists in Hex as (b & Hb & Hid).
    apply in_map_iff in Hb as (x & <- & Hx).
    unfold id in Hid. apply Z.eqb_eq in Hid. subst x.
    apply list_elem_of_In, list_elem_of_lookup in Hin as (r & Hr).
    apply list_elem_of_In, list_elem_of_lookup in Hx as (c & Hc).
    exists r, c. unfold cell. rewrite Hr. exact Hc.
  - intros (r & c & Hcell). unfold cell in Hcell.
    destruct (a !! r) as [row|] eqn:Hr; [|discriminate]. simpl in Hcell.
    exists (map (Z.eqb v) row). split.
    + apply in_map, list_elem_of_In, list_elem_of_lookup. eauto.
    + apply existsb_exists. exists true. split; [|reflexivity].
      apply in_map_iff. exists v. split; [apply Z.eqb_refl|].
      apply list_elem_of_In, list_elem_of_lookup. eauto.
Qed.

(** ** The methods keep the representation invariant *)

Lemma wf_fresh : wf fresh.
Proof.
  split; simpl; try lia; try apply shape_np_full.
  unfold np_full. apply Forall_replicate, Forall_replicate. left. reflexivity.
Qed.

Lemma wf_set_grid s g :
  wf s -> shape g (Z.to_nat (rows s)) (Z.to_nat (cols s)) -> wf (set_grid g s).
Proof. intros [] Hg. split; simpl; assumption. Qed.

Lemma wf_set_swept s w :
  wf s -> shape w (Z.to_nat (rows s)) (Z.to_nat (cols s)) -> wf (set_swept w s).
Proof. intros [] Hw. split; simpl; assumption. Qed.

Lemma wf_set_flagged s f :
  wf s -> shape f (Z.to_nat (rows s)) (Z.to_nat (cols s)) ->
  Forall (Forall (fun v => v = 0 \/ v = 1)) f -> wf (set_flagged f s).
Proof. intros [] Hf Hb. split; simpl; assumption. Qed.

Lemma wf_set_won s b : wf s -> wf (set_won b s).
Proof. intros []. split; simpl; assumption. Qed.

Lemma wf_set_lost s b : wf s -> wf (set_lost b s).
Proof. intros []. split; simpl; assumption. Qed.

Lemma wf_set_quit s b : wf s -> wf (set_quit b s).
Proof. intros []. split; simpl; assumption. Qed.

Lemma wf_set_number_of_mines s n : wf s -> wf (set_number_of_mines n s).
Proof. intros []. split; simpl; assumption. Qed.

Lemma setitem_shape {A} (a a' : list (list A)) nr nc loc v :
  shape a nr nc -> (0 < nr)%nat -> setitem a loc v = Ok a' -> shape a' nr nc.
Proof.
  intros Hs Hpos Hset.
  destruct (resolve nr nc loc) as [[r c]|e] eqn:Hres.
  - destruct (setitem_ok a nr nc loc v Hs Hpos r c Hres)
      as (a2 & old & row & Hset' & _ & Hshape & _).
    congruence.
  - destruct (setitem_raise a nr nc loc v e Hs Hpos Hres) as [Hset' _].
    congruence.
Qed.

Lemma check_game_state_run s :
  check_game_state s =
    (Ok tt,
     if any (eq_mask (grid s) exploded) then set_lost true s
     else if negb (any (eq_mask (grid s) unexplored)) then set_won true s
     else s).
Proof.
  unfold check_game_state, bind, get, modify, ret.
  destruct (any (eq_mask (grid s) exploded)); [reflexivity|].
  destruct (negb (any (eq_mask (grid s) unexplored))); reflexivity.
Qed.

Lemma wf_check_game_state s : wf s -> wf (snd (check_game_state s)).
Proof.
  intros Hwf. rewrite check_game_state_run. simpl.
  destruct (any (eq_mask (grid s) exploded)); [apply wf_set_lost, Hwf|].
  destruct (negb (any (eq_mask (grid s) unexplored)));
    [apply wf_set_won, Hwf|exact Hwf].
Qed.

(** [sweep_tile] at a location the arrays accept: one entry of [swept] and
    one entry of [grid] are written, then the outcome is re-evaluated. *)
Lemma sweep_tile_ok s loc r c :
  wf s ->
  resolve (Z.to_nat (rows s)) (Z.to_nat (cols s)) loc = Ok (r, c) ->
  exists old grow srow,
    grid s !! r = Some grow /\ grow !! c = Some old /\
    swept s !! r = Some srow /\
    sweep_tile loc s =
      check_game_state
        (set_grid (<[r := <[c := revealed s loc old]> grow]> (grid s))
           (set_swept (<[r := <[c := 1]> srow]> (swept s)) s)).
Proof.
  intros Hwf Hres.
  destruct (setitem_ok (swept s) _ _ loc 1 (wf_swept s Hwf)
              (rows_pos_nat s Hwf) r c Hres)
    as (w & sold & srow & Hsetw & _ & Hshw & _ & Hsrow & _ & Hw & _).
  assert (wf (set_swept w s)) as Hwf' by (apply wf_set_swept; assumption).
  destruct (setitem_ok (grid s) _ _ loc (revealed s loc exploded)
              (wf_grid s Hwf) (rows_pos_nat s Hwf) r c Hres)
    as (g0 & old & grow & _ & Hget & _ & _ & Hgrow & Hold & _).
  destruct (setitem_ok (grid s) _ _ loc (revealed s loc old)
              (wf_grid s Hwf) (rows_pos_nat s Hwf) r c Hres)
    as (g & old' & grow' & Hsetg & _ & _ & _ & Hgrow' & _ & Hg & _).
  assert (grow' = grow) as -> by congruence.
  exists old, grow, srow. split_and!; try assumption.
  unfold sweep_tile, bind, get, lift, modify. rewrite Hsetw. simpl.
  rewrite Hget. unfold revealed in *.
  destruct (old =? mine) eqn:Eold.
  - rewrite Hsetg. subst. reflexivity.
  - rewrite (sum_adjacent_mines_mines_around _ loc Hwf'). simpl.
    change (mines_around (set_swept w s) loc) with (mines_around s loc).
    rewrite Hsetg. subst. reflexivity.
Qed.

Lemma sweep_tile_raise s loc e :
  wf s ->
  resolve (Z.to_nat (rows s)) (Z.to_nat (cols s)) loc = Raise e ->
  sweep_tile loc s = (Raise e, s).
Proof.
  intros Hwf Hres.
  destruct (setitem_raise (swept s) _ _ loc 1 e (wf_swept s Hwf)
              (rows_pos_nat s Hwf) Hres) as [Hset _].
  unfold sweep_tile, bind, get, lift. rewrite Hset. reflexivity.
Qed.

(** [flag_tile] at a location the arrays accept flips one entry of
    [flagged]. *)
Lemma flag_tile_ok s loc r c :
  wf s ->
  resolve (Z.to_nat (rows s)) (Z.to_nat (cols s)) loc = Ok (r, c) ->
  exists old frow,
    flagged s !! r = Some frow /\ frow !! c = Some old /\
    flag_tile loc s =
      (Ok tt,
       set_flagged
         (<[r := <[c := if old =? 0 then 1 else 0]> frow]> (flagged s)) s).
Proof.
  intros Hwf Hres.
  destruct (setitem_ok (flagged s) _ _ loc 0 (wf_flagged s Hwf)
              (rows_pos_nat s Hwf) r c Hres)
    as (f0 & old & frow & _ & Hget & _ & _ & Hfrow & Hold & _).
  destruct (setitem_ok (flagged s) _ _ loc (if old =? 0 then 1 else 0)
              (wf_flagged s Hwf) (rows_pos_nat s Hwf) r c Hres)
    as (f & old' & frow' & Hset & _ & _ & _ & Hfrow' & _ & Hf & _).
  assert (frow' = frow) as -> by congruence.
  exists old, frow. split_and!; try assumption.
  unfold flag_tile, bind, get, lift, modify. rewrite Hget, Hset.
  subst f. reflexivity.
Qed.

Lemma flag_tile_raise s loc e :
  wf s ->
  resolve (Z.to_nat (rows s)) (Z.to_nat (cols s)) loc = Raise e ->
  flag_tile loc s = (Raise e, s).
Proof.
  intros Hwf Hres.
  destruct (setitem_raise (flagged s) _ _ loc 0 e (wf_flagged s Hwf)
              (rows_pos_nat s Hwf) Hres) as [_ Hget].
  unfold flag_tile, bind, get, lift. rewrite Hget. reflexivity.
Qed.

Lemma wf_sweep_tile s loc : wf s -> wf (snd (sweep_tile loc s)).
Proof.
  intros Hwf.
  destruct (resolve (Z.to_nat (rows s)) (Z.to_nat (cols s)) loc)
    as [[r c]|e] eqn:Hres.
  - destruct (sweep_tile_ok s loc r c Hwf Hres)
      as (old & grow & srow & Hg & Ho & Hs & ->).
    apply wf_check_game_state, wf_set_grid.
    + apply wf_set_swept; [exact Hwf|].
      apply shape_insert; [apply (wf_swept s Hwf)|exact Hs].
    + simpl. apply shape_insert; [apply (wf_grid s Hwf)|exact Hg].
  - rewrite (sweep_tile_raise s loc e Hwf Hres). exact Hwf.
Qed.

Lemma wf_flag_tile s loc : wf s -> wf (snd (flag_tile loc s)).
Proof.
  intros Hwf.
  destruct (resolve (Z.to_nat (rows s)) (Z.to_nat (cols s)) loc)
    as [[r c]|e] eqn:Hres.
  - destruct (flag_tile_ok s loc r c Hwf Hres) as (old & frow & Hf & Ho & ->).
    simpl. apply wf_set_flagged; [exact Hwf| |].
    + apply shape_insert; [apply (wf_flagged s Hwf)|exact Hf].
    + pose proof (wf_bool_flags s Hwf) as Hb.
      apply Forall_insert; [exact Hb|].
      rewrite Forall_lookup in Hb. apply Forall_insert; [exact (Hb r frow Hf)|].
      destruct (old =? 0); [right|left]; reflexivity.
  - rewrite (flag_tile_raise s loc e Hwf Hres). exact Hwf.
Qed.

Lemma wf_clear_swept_flags s : wf s -> wf (snd (clear_swept_flags s)).
Proof.
  intros Hwf. unfold clear_swept_flags, modify. simpl.
  apply wf_set_flagged; [exact Hwf| |].
  - unfold mask_assign. apply shape_zip_with; [|apply (wf_flagged s Hwf)].
    unfold nonzero_mask. apply shape_map, (wf_swept s Hwf).
  - pose proof (wf_bool_flags s Hwf) as Hb. unfold mask_assign.
    apply Forall_lookup. intros r row Hr.
    apply lookup_zip_with_Some in Hr as (mrow & frow & -> & _ & Hf).
    rewrite Forall_lookup in Hb. pose proof (Hb r frow Hf) as Hrow.
    apply Forall_lookup. intros c v Hc.
    apply lookup_zip_with_Some in Hc as (m & x & -> & _ & Hx).
    rewrite Forall_lookup in Hrow.
    destruct m; [left; reflexivity|exact (Hrow c x Hx)].
Qed.

Lemma wf_after o s : wf s -> wf (after o s).
Proof.
  intros Hwf. unfold after. destruct o as [loc|loc| |]; simpl.
  - apply wf_sweep_tile, Hwf.
  - apply wf_flag_tile, Hwf.
  - apply wf_clear_swept_flags, Hwf.
  - apply wf_set_quit, Hwf.
Qed.

Lemma wf_run ops s : wf s -> wf (run ops s).
Proof.
  revert s. induction ops as [|o ops IH]; intros s Hwf; simpl.
  - exact Hwf.
  - apply IH, wf_after, Hwf.
Qed.

(** ** The constructor *)

Lemma valid_location_state v s : snd (valid_location v s) = s.
Proof.
  unfold valid_location, bind, get, py_or, lift, ret. simpl.
  destruct (unpack2 v) as [[row col]|e]; [|reflexivity].
  destruct (py_ge row (rows s)) as [[|]|]; try reflexivity.
  destruct (py_lt row 0) as [[|]|]; try reflexivity.
  destruct (py_ge col (cols s)) as [[|]|]; try reflexivity.
  destruct (py_lt col 0) as [[|]|]; reflexivity.
Qed.

(** The items of a string are strings. *)
Lemma unpack2_str s a b :
  unpack2 (PyStr s) = Ok (a, b) -> exists x y, a = PyStr x /\ b = PyStr y.
Proof.
  unfold unpack2. destruct (characters s) as [|x [|y [|]]]; try discriminate.
  intros H. inversion H. eauto.
Qed.

(** [valid_location] answers [True] only for a tuple of two numbers: a
    tuple of two integers inside the board, or one that holds a float,
    which numpy does not take for an index. *)
Lemma valid_location_true v s :
  fst (valid_location v s) = Ok true ->
  (exists p, v = loc_value p /\ in_bounds s p = true) \/
  (holds_float v = true /\ as_index v = Raise IndexError).
Proof.
  intros H.
  destruct v as [|z|f|str|items].
  - discriminate.
  - discriminate.
  - discriminate.
  - exfalso. revert H.
    unfold valid_location, bind, get, py_or, lift, ret. cbn [fst].
    destruct (unpack2 (PyStr str)) as [[a b]|e] eqn:Hu; [|discriminate].
    destruct (unpack2_str _ _ _ Hu) as (x & y & -> & ->). discriminate.
  - destruct items as [|a [|b [|]]]; try discriminate.
    destruct a as [|r|f| |]; destruct b as [|c|g| |];
      try (right; split; reflexivity);
      try (exfalso; revert H;
           unfold valid_location, py_or, bind, get, lift, ret; simpl;
           repeat match goal with
                  | |- context [if ?x then _ else _] => destruct x; simpl
                  end;
           discriminate).
    left. exists (r, c). split; [reflexivity|].
    change (PyTuple [PyInt r; PyInt c]) with (loc_value (r, c)) in H.
    rewrite valid_location_pair in H. simpl in H. congruence.
Qed.

Lemma valid_location_false_not_valid v s :
  fst (valid_location v s) = Ok false ->
  forall p, as_index v = Ok p -> in_bounds s p = false.
Proof.
  intros H p Hp.
  assert (v = loc_value p) as ->.
  { destruct v as [| | | |items]; try discriminate.
    destruct items as [|[] [|[] [|]]]; try discriminate.
    simpl in Hp. inversion Hp; subst. reflexivity. }
  rewrite valid_location_pair in H. simpl in H. congruence.
Qed.

Lemma getitem_setitem {A} (a a' : list (list A)) nr nc p q v :
  shape a nr nc -> (0 < nr)%nat ->
  0 <= fst p < Z.of_nat nr -> 0 <= snd p < Z.of_nat nc ->
  0 <= fst q < Z.of_nat nr -> 0 <= snd q < Z.of_nat nc ->
  setitem a p v = Ok a' ->
  getitem a' q = if decide (q = p) then Ok v else getitem a q.
Proof.
  intros Hs Hpos Hp1 Hp2 Hq1 Hq2 Hset.
  assert (resolve nr nc p = Ok (Z.to_nat (fst p), Z.to_nat (snd p))) as Hrp
    by (unfold resolve; rewrite !norm_index_in_range by lia; reflexivity).
  assert (resolve nr nc q = Ok (Z.to_nat (fst q), Z.to_nat (snd q))) as Hrq
    by (unfold resolve; rewrite !norm_index_in_range by lia; reflexivity).
  destruct (setitem_ok a nr nc p v Hs Hpos _ _ Hrp)
    as (a2 & old & row & Hset' & _ & Hsh & _ & _ & _ & _ & Hcell).
  assert (a2 = a') as -> by congruence.
  rewrite (getitem_resolve a' nr nc q Hsh Hpos), Hrq, Hcell.
  rewrite (getitem_resolve a nr nc q Hs Hpos), Hrq.
  destruct p as [pr pc], q as [qr qc]. simpl in *.
  destruct (decide ((qr, qc) = (pr, pc))) as [E|E].
  - inversion E; subst. rewrite decide_True by done. reflexivity.
  - rewrite decide_False; [reflexivity|].
    intros [E1 E2]. apply E. f_equal; lia.
Qed.

(** Placing a mine on an unexplored cell of the board. *)
Lemma place_mine s p g :
  wf s -> in_bounds s p = true ->
  getitem (grid s) p = Ok unexplored ->
  setitem (grid s) p mine = Ok g ->
  shape g (Z.to_nat (rows s)) (Z.to_nat (cols s)) /\
  count_cells is_mine_or_exploded g =
    count_cells is_mine_or_exploded (grid s) + 1 /\
  (forall q, in_bounds s q = true -> q <> p ->
             getitem g q = getitem (grid s) q).
Proof.
  intros Hwf Hb Hget Hset.
  pose proof (wf_rows s Hwf) as Hrows. pose proof (wf_cols s Hwf) as Hcols.
  destruct (setitem_ok (grid s) _ _ p mine (wf_grid s Hwf)
              (rows_pos_nat s Hwf) _ _ (resolve_in_bounds s p Hwf Hb))
    as (g' & old & row & Hset' & Hget' & Hsh & _ & Hrow & Hold & Hg & _).
  assert (g' = g) as -> by congruence.
  assert (old = unexplored) as -> by congruence.
  split_and!.
  - exact Hsh.
  - pose proof (count_cells_insert is_mine_or_exploded (grid s)
                  _ _ mine row unexplored Hrow Hold) as Hc.
    rewrite <- Hg in Hc. simpl in Hc. lia.
  - intros q Hq Hne. apply in_bounds_spec in Hb, Hq.
    rewrite (getitem_setitem (grid s) g (Z.to_nat (rows s))
               (Z.to_nat (cols s)) p q mine (wf_grid s Hwf)
               (rows_pos_nat s Hwf)) by (assumption || lia).
    rewrite decide_False by exact Hne. reflexivity.
Qed.

Lemma in_bounds_fresh s p :
  rows s = 8 -> cols s = 8 -> in_bounds s p = in_bounds fresh p.
Proof. intros Hr Hc. unfold in_bounds. rewrite Hr, Hc. reflexivity. Qed.

Lemma valid_locations_cons_valid p rest :
  in_bounds fresh p = true ->
  valid_locations (loc_value p :: rest) = p :: valid_locations rest.
Proof.
  intros Hb. unfold valid_locations. simpl.
  destruct p as [r c]. simpl in *. rewrite Hb. reflexivity.
Qed.

Lemma valid_locations_cons_invalid v rest :
  (forall p, as_index v = Ok p -> in_bounds fresh p = false) ->
  valid_locations (v :: rest) = valid_locations rest.
Proof.
  intros H. unfold valid_locations. simpl.
  destruct (as_index v) as [p|e] eqn:E; [|reflexivity].
  rewrite (H p eq_refl). reflexivity.
Qed.

(** One round of the loop over an explicit list. *)
Lemma place_if_valid_run v s :
  wf s -> rows s = 8 -> cols s = 8 ->
  (exists e, place_if_valid v s = (Raise e, s)) \/
  (place_if_valid v s = (Ok tt, s) /\
   forall rest, valid_locations (v :: rest) = valid_locations rest) \/
  (exists p g,
     v = loc_value p /\ in_bounds s p = true /\
     setitem (grid s) p mine = Ok g /\
     (forall rest, valid_locations (v :: rest) = p :: valid_locations rest) /\
     place_if_valid v s =
       (Ok tt, set_number_of_mines (number_of_mines s + 1) (set_grid g s))).
Proof.
  intros Hwf Hr Hc.
  pose proof (valid_location_state v s) as Hst.
  unfold place_if_valid, bind.
  destruct (valid_location v s) as [[[|]|e] s1] eqn:E;
    simpl in Hst; subst s1.
  - destruct (valid_location_true v s) as [(p & -> & Hb)|[_ Hfloat]];
      [rewrite E; reflexivity| |];
      [right; right|left; exists IndexError; unfold get, lift;
                    rewrite Hfloat; reflexivity].
    destruct (setitem_ok (grid s) _ _ p mine (wf_grid s Hwf)
                (rows_pos_nat s Hwf) _ _ (resolve_in_bounds s p Hwf Hb))
      as (g & old & row & Hset & _).
    exists p, g. split_and!; try done.
    + intros rest. apply valid_locations_cons_valid.
      rewrite <- (in_bounds_fresh s p Hr Hc). exact Hb.
    + unfold get, lift, modify. destruct p as [pr pc]. simpl.
      simpl in Hset. rewrite Hset. reflexivity.
  - right. left. split; [reflexivity|].
    intros rest. apply valid_locations_cons_invalid.
    intros p Hp. rewrite <- (in_bounds_fresh s p Hr Hc).
    apply (valid_location_false_not_valid v s); [rewrite E; reflexivity|exact Hp].
  - left. exists e. reflexivity.
Qed.

(** The loop over an explicit list, when it runs to its end: the counter
    grows by the number of valid entries, repetitions included; when no
    valid entry is repeated, so does the number of mined cells. *)
Lemma explicit_loop locations : forall s s',
  wf s -> rows s = 8 -> cols s = 8 ->
  for_each locations place_if_valid s = (Ok tt, s') ->
  exists g,
    s' = set_number_of_mines
           (number_of_mines s + Z.of_nat (length (valid_locations locations)))
           (set_grid g s) /\
    shape g (Z.to_nat (rows s)) (Z.to_nat (cols s)) /\
    (NoDup (valid_locations locations) ->
     (forall p, p ∈ valid_locations locations ->
                getitem (grid s) p = Ok unexplored) ->
     count_cells is_mine_or_exploded g =
       count_cells is_mine_or_exploded (grid s) +
       Z.of_nat (length (valid_locations locations))).
Proof.
  induction locations as [|v rest IH]; intros s s' Hwf Hr Hc Hrun.
  - simpl in Hrun. inversion Hrun; subst s'.
    exists (grid s). split_and!.
    + destruct s. unfold set_number_of_mines, set_grid. simpl. f_equal. lia.
    + apply (wf_grid s Hwf).
    + intros _ _. simpl. lia.
  - simpl in Hrun. unfold bind in Hrun.
    destruct (place_if_valid_run v s Hwf Hr Hc)
      as [(e & Hstep)|[(Hstep & Hval)|(p & g & -> & Hb & Hset & Hval & Hstep)]];
      rewrite Hstep in Hrun.
    + discriminate.
    + destruct (IH s s' Hwf Hr Hc Hrun) as (g & -> & Hsh & Hcount).
      exists g. rewrite Hval. split_and!; done.
    + set (s1 := set_number_of_mines (number_of_mines s + 1) (set_grid g s))
        in *.
      assert (shape g (Z.to_nat (rows s)) (Z.to_nat (cols s))) as Hshg
        by (eapply setitem_shape;
            [apply (wf_grid s Hwf)|apply (rows_pos_nat s Hwf)|exact Hset]).
      assert (wf s1) as Hwf1
        by (apply wf_set_number_of_mines, wf_set_grid; assumption).
      destruct (IH s1 s' Hwf1 Hr Hc Hrun) as (g' & -> & Hsh & Hcount).
      exists g'. rewrite Hval. split_and!.
      * unfold s1, set_number_of_mines, set_grid. simpl. f_equal.
        rewrite Nat2Z.inj_succ. lia.
      * exact Hsh.
      * intros Hnd Hun. apply NoDup_cons in Hnd as [Hnotin Hnd].
        assert (getitem (grid s) p = Ok unexplored) as Hgp
          by (apply Hun; left).
        destruct (place_mine s p g Hwf Hb Hgp Hset) as (_ & Hcg & Hother).
        rewrite Hcount.
        -- simpl (grid s1). rewrite Hcg. simpl length.
           rewrite Nat2Z.inj_succ. lia.
        -- exact Hnd.
        -- intros q Hq. simpl (grid s1). rewrite Hother.
           ++ apply Hun. right. exact Hq.
           ++ unfold valid_locations in Hq.
              apply list_elem_of_omap in Hq as (v' & _ & Hv').
              destruct (as_index v') as [q'|]; [|discriminate].
              destruct (in_bounds fresh q') eqn:Eq; [|discriminate].
              inversion Hv'; subst q'.
              rewrite (in_bounds_fresh s q Hr Hc). exact Eq.
           ++ intros ->. exact (Hnotin Hq).
Qed.

Lemma getitem_fresh p :
  in_bounds fresh p = true -> getitem (grid fresh) p = Ok unexplored.
Proof.
  intros Hb.
  destruct (getitem_grid_in_bounds fresh p wf_fresh Hb) as (v & -> & Hcell).
  apply in_bounds_spec in Hb. simpl in Hb.
  unfold fresh in Hcell. simpl in Hcell.
  rewrite cell_np_full in Hcell by lia. congruence.
Qed.

Lemma valid_locations_in_bounds l p :
  p ∈ valid_locations l -> in_bounds fresh p = true.
Proof.
  unfold valid_locations. intros Hp.
  apply list_elem_of_omap in Hp as (v & _ & Hv).
  destruct (as_index v) as [q|]; [|discriminate].
  destruct (in_bounds fresh q) eqn:Eq; [|discriminate].
  inversion Hv; subst. exact Eq.
Qed.

Lemma divmod_in_bounds i :
  0 <= i < 64 -> in_bounds fresh (i / 8, i mod 8) = true.
Proof.
  intros Hi. apply in_bounds_spec. simpl.
  pose proof (Z.mod_pos_bound i 8 ltac:(lia)).
  pose proof (Z.div_mod i 8 ltac:(lia)).
  assert (0 <= i / 8) by (apply Z.div_pos; lia).
  assert (i / 8 < 8) by (apply Z.div_lt_upper_bound; lia).
  lia.
Qed.

(** The loop over a sample of distinct indices of the board runs to its
    end and mines one more cell at every round. *)
Lemma sampled_loop sample : forall s,
  wf s -> rows s = 8 -> cols s = 8 ->
  NoDup sample ->
  (forall i, i ∈ sample ->
     0 <= i < 64 /\ getitem (grid s) (i / 8, i mod 8) = Ok unexplored) ->
  exists g,
    for_each sample place_sampled s = (Ok tt, set_grid g s) /\
    shape g (Z.to_nat (rows s)) (Z.to_nat (cols s)) /\
    count_cells is_mine_or_exploded g =
      count_cells is_mine_or_exploded (grid s) + Z.of_nat (length sample).
Proof.
  induction sample as [|i rest IH]; intros s Hwf Hr Hc Hnd Hun.
  - exists (grid s). split_and!.
    + simpl. unfold ret. destruct s; reflexivity.
    + apply (wf_grid s Hwf).
    + simpl. lia.
  - apply NoDup_cons in Hnd as [Hnotin Hnd].
    destruct (Hun i ltac:(left)) as [Hi Hgi].
    assert (in_bounds s (i / 8, i mod 8) = true) as Hb
      by (rewrite (in_bounds_fresh s _ Hr Hc); apply divmod_in_bounds, Hi).
    destruct (setitem_ok (grid s) _ _ (i / 8, i mod 8) mine (wf_grid s Hwf)
                (rows_pos_nat s Hwf) _ _ (resolve_in_bounds s _ Hwf Hb))
      as (g & old & row & Hset & _ & Hshg & _).
    destruct (place_mine s _ g Hwf Hb Hgi Hset) as (_ & Hcg & Hother).
    assert (wf (set_grid g s)) as Hwf1 by (apply wf_set_grid; assumption).
    destruct (IH (set_grid g s) Hwf1 Hr Hc Hnd) as (g' & Hrun & Hsh & Hcount).
    { intros j Hj. destruct (Hun j ltac:(right; exact Hj)) as [Hj1 Hj2].
      split; [exact Hj1|]. simpl (grid _). rewrite Hother.
      - exact Hj2.
      - rewrite (in_bounds_fresh s _ Hr Hc). apply divmod_in_bounds, Hj1.
      - intros E. inversion E as [[E1 E2]].
        pose proof (Z.div_mod i 8 ltac:(lia)).
        pose proof (Z.div_mod j 8 ltac:(lia)).
        assert (j = i) by lia. subst j. exact (Hnotin Hj). }
    exists g'. split_and!.
    + simpl. unfold bind. unfold place_sampled at 1.
      unfold bind, get, lift, modify. rewrite Hc, Hset. exact Hrun.
    + exact Hsh.
    + rewrite Hcount. simpl (grid _). rewrite Hcg. simpl length.
      rewrite Nat2Z.inj_succ. lia.
Qed.

Lemma count_fresh : count_cells is_mine_or_exploded (grid fresh) = 0.
Proof. reflexivity. Qed.

(** The instance returned by the constructor. *)
Lemma new_explicit locations sample s0 :
  new (Some locations) sample = Ok s0 ->
  exists g,
    s0 = set_number_of_mines (Z.of_nat (length (valid_locations locations)))
           (set_grid g fresh) /\
    wf s0 /\
    (NoDup (valid_locations locations) ->
     count_cells is_mine_or_exploded (grid s0) = number_of_mines s0).
Proof.
  unfold new, __init__, bind, modify. intros Hnew.
  destruct (for_each locations place_if_valid (set_number_of_mines 0 fresh))
    as [[[]|e] s'] eqn:Hrun; [|discriminate].
  inversion Hnew; subst s'.
  destruct (explicit_loop locations _ _
              (wf_set_number_of_mines fresh 0 wf_fresh) eq_refl eq_refl Hrun)
    as (g & -> & Hsh & Hcount).
  exists g. split_and!.
  - reflexivity.
  - apply wf_set_number_of_mines, wf_set_grid;
      [apply wf_set_number_of_mines, wf_fresh|exact Hsh].
  - intros Hnd. simpl. rewrite Hcount; [reflexivity|exact Hnd|].
    intros p Hp. apply getitem_fresh, (valid_locations_in_bounds _ _ Hp).
Qed.

Lemma new_random sample :
  distinct_placement None sample ->
  exists g,
    new None sample = Ok (set_grid g (set_number_of_mines 10 fresh)) /\
    shape g 8 8 /\
    count_cells is_mine_or_exploded g = 10.
Proof.
  intros (Hnd & Hlen & Hrange).
  destruct (sampled_loop sample (set_number_of_mines 10 fresh)
              (wf_set_number_of_mines fresh 10 wf_fresh) eq_refl eq_refl Hnd)
    as (g & Hrun & Hsh & Hcount).
  { intros i Hi. pose proof (Hrange i Hi) as Hr. simpl in Hr.
    split; [lia|]. apply getitem_fresh, divmod_in_bounds. lia. }
  exists g. split_and!.
  - unfold new, __init__, bind, modify. rewrite Hrun. reflexivity.
  - exact Hsh.
  - rewrite Hcount, Hlen. reflexivity.
Qed.

(** Every instance the constructor returns is well formed, with the three
    outcome flags down; with a placement that names no cell twice, the
    counter is the number of mined cells. *)
Lemma new_wf locations sample s0 :
  new locations sample = Ok s0 ->
  (locations = None -> distinct_placement None sample) ->
  wf s0 /\ won s0 = false /\ lost s0 = false /\ quit s0 = false /\
  (distinct_placement locations sample ->
   count_cells is_mine_or_exploded (grid s0) = number_of_mines s0).
Proof.
  intros Hnew Hsample. destruct locations as [l|].
  - destruct (new_explicit l sample s0 Hnew) as (g & -> & Hwf & Hcount).
    split_and!; try reflexivity; [exact Hwf|exact Hcount].
  - destruct (new_random sample (Hsample eq_refl)) as (g & Hnew' & Hsh & Hc).
    rewrite Hnew' in Hnew. inversion Hnew; subst s0.
    split_and!; try reflexivity.
    + apply wf_set_grid; [apply wf_set_number_of_mines, wf_fresh|exact Hsh].
    + intros _. exact Hc.
Qed.

(** ** Reads inside the board *)

Lemma getitem_in_bounds {A} (a : list (list A)) s loc :
  wf s -> shape a (Z.to_nat (rows s)) (Z.to_nat (cols s)) ->
  in_bounds s loc = true ->
  exists v, getitem a loc = Ok v /\
            cell a (Z.to_nat (fst loc)) (Z.to_nat (snd loc)) = Some v.
Proof.
  intros Hwf Hsh Hb.
  rewrite (getitem_resolve a _ _ loc Hsh (rows_pos_nat s Hwf)).
  rewrite (resolve_in_bounds s loc Hwf Hb).
  apply in_bounds_spec in Hb.
  destruct (cell_lt a _ _ (Z.to_nat (fst loc)) (Z.to_nat (snd loc)) Hsh)
    as [v Hv]; [lia|lia|].
  exists v. rewrite Hv. split; reflexivity.
Qed.

Lemma getitem_cell {A} (a : list (list A)) s loc v :
  wf s -> shape a (Z.to_nat (rows s)) (Z.to_nat (cols s)) ->
  in_bounds s loc = true ->
  getitem a loc = Ok v <->
  cell a (Z.to_nat (fst loc)) (Z.to_nat (snd loc)) = Some v.
Proof.
  intros Hwf Hsh Hb.
  destruct (getitem_in_bounds a s loc Hwf Hsh Hb) as (v' & Hg & Hc).
  rewrite Hg, Hc. split; congruence.
Qed.

(** ** C4: [check_game_state] *)

(** C4.  [check_game_state] looks for an exploded cell first: on a grid
    with an exploded cell it sets [lost] and leaves [won] as it was; on a
    grid with no exploded and no unexplored cell it sets [won]; on any
    other grid it changes nothing.  It never raises and touches no other
    attribute. *)
Theorem C4_check_game_state s :
  let s' := snd (check_game_state s) in
  fst (check_game_state s) = Ok tt /\
  ((exists r c, cell (grid s) r c = Some exploded) ->
   s' = set_lost true s /\ lost s' = true /\ won s' = won s) /\
  (~ (exists r c, cell (grid s) r c = Some exploded) ->
   ~ (exists r c, cell (grid s) r c = Some unexplored) ->
   s' = set_won true s /\ won s' = true /\ lost s' = lost s) /\
  (~ (exists r c, cell (grid s) r c = Some exploded) ->
   (exists r c, cell (grid s) r c = Some unexplored) ->
   s' = s).
Proof.
  cbv zeta. rewrite check_game_state_run. simpl.
  split; [reflexivity|]. split_and!.
  - intros He. apply any_eq_mask in He. rewrite He. auto.
  - intros He Hu.
    destruct (any (eq_mask (grid s) exploded)) eqn:E1;
      [exfalso; apply He, any_eq_mask, E1|].
    destruct (any (eq_mask (grid s) unexplored)) eqn:E2;
      [exfalso; apply Hu, any_eq_mask, E2|].
    simpl. auto.
  - intros He Hu.
    destruct (any (eq_mask (grid s) exploded)) eqn:E1;
      [exfalso; apply He, any_eq_mask, E1|].
    apply any_eq_mask in Hu. rewrite Hu. reflexivity.
Qed.

(** The board of the last case of the test of [check_game_state]: an
    exploded cell and no unexplored cell. *)
Lemma C4_check_game_state_witness :
  let s := set_grid [[1; 1]; [1; 11]] fresh in
  lost (snd (check_game_state s)) = true /\
  won (snd (check_game_state s)) = false.
Proof.
  cbv zeta.
  destruct (C4_check_game_state (set_grid [[1; 1]; [1; 11]] fresh))
    as (_ & H & _).
  destruct H as (_ & Hl & Hw).
  - exists 1%nat, 1%nat. reflexivity.
  - split; [exact Hl|exact Hw].
Defined.


(** ** C7: [player_view] *)

(** C7.  On a well-formed instance [player_view] returns an array of the
    shape of the board in which a flagged cell shows the flag marker, an
    unflagged cell holding a mine or unexplored shows [nan], and every
    other cell shows the value of the grid; the instance is left as it
    was. *)
Theorem C7_player_view s :
  wf s ->
  exists view,
    player_view s = (Ok view, s) /\
    shape view (Z.to_nat (rows s)) (Z.to_nat (cols s)) /\
    forall r c g f,
      cell (grid s) r c = Some g -> cell (flagged s) r c = Some f ->
      cell view r c = Some (shown g f) /\
      (f = 1 -> cell view r c = Some (fl flag)) /\
      (f <> 1 -> g = mine \/ g = unexplored -> cell view r c = Some nan) /\
      (f <> 1 -> g <> mine -> g <> unexplored -> cell view r c = Some (fl g)).
Proof.
  intros Hwf. eexists. split; [reflexivity|]. split.
  - unfold mask_assign, eq_mask.
    repeat (apply shape_zip_with || apply shape_map || apply shape_np_full);
      try apply (wf_grid s Hwf); apply (wf_flagged s Hwf).
  - intros r c g f Hg Hf.
    assert (cell (mask_assign (eq_mask (flagged s) 1) (fl flag)
              (mask_assign (eq_mask (grid s) unexplored) nan
                 (mask_assign (eq_mask (grid s) mine) nan
                    (zip_with (zip_with (fun (_ : float_val) g0 => fl g0))
                       (np_full (rows s) (cols s) (fl 0)) (grid s))))) r c
            = Some (shown g f)) as Hshown.
    { assert ((r < Z.to_nat (rows s))%nat /\ (c < Z.to_nat (cols s))%nat)
        as [Hr Hc].
      { unfold cell in Hg. destruct (grid s !! r) as [row|] eqn:Erow;
          [|discriminate]. simpl in Hg.
        pose proof (shape_row _ _ _ _ _ (wf_grid s Hwf) Erow) as Hlen.
        apply lookup_lt_Some in Erow, Hg.
        destruct (wf_grid s Hwf) as [Hl _]. lia. }
      rewrite !cell_mask_assign, cell_zip_with. unfold eq_mask.
      rewrite !cell_map, Hg, Hf, cell_np_full by assumption.
      cbn -[Z.eqb]. unfold shown, mine, unexplored.
      rewrite (Z.eqb_sym 1 f), (Z.eqb_sym 9 g), (Z.eqb_sym 10 g).
      destruct (f =? 1); [reflexivity|].
      destruct (g =? 10), (g =? 9); reflexivity. }
    split_and!.
    + exact Hshown.
    + intros ->. rewrite Hshown. reflexivity.
    + intros Hne Hmu. rewrite Hshown. unfold shown.
      replace (f =? 1) with false by lia.
      replace ((g =? mine) || (g =? unexplored)) with true; [reflexivity|].
      symmetry. apply orb_true_iff. lia.
    + intros Hne Hm Hu. rewrite Hshown. unfold shown.
      replace (f =? 1) with false by lia.
      replace (g =? mine) with false by lia.
      replace (g =? unexplored) with false by lia. reflexivity.
Qed.

Lemma C7_player_view_witness :
  exists view,
    player_view fresh = (Ok view, fresh) /\
    cell view 0 0 = Some nan.
Proof.
  destruct (C7_player_view fresh wf_fresh) as (view & Hrun & _ & Hcells).
  exists view. split; [exact Hrun|].
  destruct (Hcells 0%nat 0%nat unexplored 0 eq_refl eq_refl) as [H _].
  exact H.
Defined.

(** ** C8: [valid_location] *)

(** On a tuple of two integers [valid_location] returns, and answers
    whether the pair lies on the board. *)
Lemma valid_location_integers s r c :
  valid_location (PyTuple [PyInt r; PyInt c]) s =
    (Ok (bool_decide (0 <= r < rows s /\ 0 <= c < cols s)), s).
Proof.
  change (PyTuple [PyInt r; PyInt c]) with (loc_value (r, c)).
  rewrite valid_location_pair. f_equal. f_equal.
  destruct (in_bounds s (r, c)) eqn:E.
  - symmetry. apply bool_decide_eq_true. apply in_bounds_spec in E. exact E.
  - symmetry. apply bool_decide_eq_false. intros H.
    apply (in_bounds_spec s (r, c)) in H. congruence.
Qed.

(** A value that does not unpack into two items is answered [False]. *)
Lemma valid_location_not_a_pair s v e :
  unpack2 v = Raise e -> valid_location v s = (Ok false, s).
Proof.
  intros H. unfold valid_location, bind, get, ret. rewrite H. reflexivity.
Qed.

(** The only exception [valid_location] lets through is the [TypeError] of
    a comparison, after an unpacking that gave two items that are not both
    integers. *)
Lemma valid_location_raises v s e :
  fst (valid_location v s) = Raise e ->
  e = TypeError /\
  exists a b, unpack2 v = Ok (a, b) /\
              ~ (exists r c, a = PyInt r /\ b = PyInt c).
Proof.
  unfold valid_location, py_or, bind, get, lift, ret. simpl.
  destruct (unpack2 v) as [[a b]|e'] eqn:Hu; [|discriminate].
  intros H.
  assert (e = TypeError /\ ~ (exists r c, a = PyInt r /\ b = PyInt c))
    as [He Hn].
  { split.
    - destruct a as [|r|f|?|?], b as [|c|g|?|?]; simpl in H;
        repeat match type of H with
               | context [if ?x then _ else _] => destruct x; simpl in H
               end;
        first [discriminate|inversion H; reflexivity].
    - intros (r & c & -> & ->). simpl in H.
      repeat match type of H with
             | context [if ?x then _ else _] => destruct x; simpl in H
             end;
        discriminate. }
  split; [exact He|]. exists a, b. split; [reflexivity|exact Hn].
Qed.

(** C8.  [valid_location] on the two-character string ["ab"]: the
    unpacking succeeds, the comparison of ["a"] with the number of rows is
    outside the [try] and raises [TypeError]; strings of another length,
    as in the tests, are answered [False]. *)
Theorem C8_valid_location_raises_on_two_characters :
  valid_location (PyStr "ab") fresh = (Raise TypeError, fresh) /\
  valid_location (PyTuple [PyInt 0; PyStr "a"]) fresh
    = (Raise TypeError, fresh) /\
  valid_location (PyStr "fsdaf") fresh = (Ok false, fresh) /\
  valid_location (PyStr "1 2") fresh = (Ok false, fresh).
Proof. repeat split. Qed.

(** A character is not a byte: a string of one character that takes two
    bytes does not unpack into two items, and a tuple of two numbers one
    of which is a float is answered by its position on the board. *)
Lemma valid_location_characters_and_floats :
  valid_location (PyStr "é") fresh = (Ok false, fresh) /\
  valid_location (PyStr "éa") fresh = (Raise TypeError, fresh) /\
  valid_location (PyTuple [PyFloat (FNum 3 (-1)); PyInt 2]) fresh
    = (Ok true, fresh) /\
  valid_location (PyTuple [PyFloat (FNum 17 (-1)); PyInt 2]) fresh
    = (Ok false, fresh) /\
  valid_location (PyTuple [PyFloat FNan; PyInt 2]) fresh = (Ok true, fresh) /\
  valid_location (PyFloat (FNum 3 (-1))) fresh = (Ok false, fresh).
Proof. repeat split. Qed.

(** ** C9: [flag_tile] at an invalid location *)

(** C9 as stated fails: [(-1, -1)] is not a valid location, yet
    [flag_tile] returns and raises the flag of the last cell of the
    board. *)
Lemma C9_negative_index_wraps :
  valid_location (loc_value (-1, -1)) fresh = (Ok false, fresh) /\
  exists s',
    flag_tile (-1, -1) fresh = (Ok tt, s') /\
    getitem (flagged fresh) (7, 7) = Ok 0 /\
    getitem (flagged s') (7, 7) = Ok 1.
Proof.
  split; [reflexivity|]. eexists. repeat split.
Qed.

(** *** Indices outside and inside the axes *)

Lemma norm_index_wrap n i :
  0 < n -> - n <= i < n -> norm_index n i = Ok (Z.to_nat (i mod n)).
Proof.
  intros Hn Hi. unfold norm_index.
  destruct ((0 <=? i) && (i <? n)) eqn:E1.
  - rewrite Z.mod_small by lia. reflexivity.
  - apply andb_false_iff in E1.
    replace ((- n <=? i) && (i <? 0)) with true
      by (symmetry; apply andb_true_iff; lia).
    assert (i mod n = i + n) as ->; [|reflexivity].
    symmetry. apply (Z.mod_unique i n (-1) (i + n)); lia.
Qed.

Lemma resolve_wrap s r c :
  wf s -> - rows s <= r < rows s -> - cols s <= c < cols s ->
  resolve (Z.to_nat (rows s)) (Z.to_nat (cols s)) (r, c) =
    Ok (Z.to_nat (r mod rows s), Z.to_nat (c mod cols s)).
Proof.
  intros Hwf Hr Hc.
  pose proof (wf_rows s Hwf). pose proof (wf_cols s Hwf).
  unfold resolve. simpl. rewrite !Z2Nat.id by lia.
  rewrite !norm_index_wrap by lia. reflexivity.
Qed.

Lemma resolve_out_of_range s r c :
  wf s ->
  rows s <= r \/ r < - rows s \/ cols s <= c \/ c < - cols s ->
  resolve (Z.to_nat (rows s)) (Z.to_nat (cols s)) (r, c)
  = Raise (index_error (r, c)).
Proof.
  intros Hwf Hout.
  pose proof (wf_rows s Hwf). pose proof (wf_cols s Hwf).
  unfold resolve. cbn [fst snd]. rewrite !Z2Nat.id by lia.
  destruct (decide (rows s <= r \/ r < - rows s)) as [Hr|Hr].
  - rewrite (norm_index_out_of_range _ r) by lia. reflexivity.
  - rewrite (norm_index_wrap _ r) by lia.
    rewrite (norm_index_out_of_range _ c) by lia. reflexivity.
Qed.

(** The exception of an index that denotes no entry. *)
Lemma index_error_cases r c :
  (index_error (r, c) = IndexError \/ index_error (r, c) = OverflowError) /\
  (- 2 ^ 63 <= r < 2 ^ 63 -> - 2 ^ 63 <= c < 2 ^ 63 ->
   index_error (r, c) = IndexError) /\
  (2 ^ 63 <= r < 2 ^ 64 -> index_error (r, c) = OverflowError) /\
  (- 2 ^ 63 <= r < 2 ^ 63 -> 2 ^ 63 <= c < 2 ^ 64 ->
   index_error (r, c) = OverflowError).
Proof.
  unfold index_error, as_intp. cbn [fst snd].
  destruct (Z.leb_spec (- 2 ^ 63) r), (Z.ltb_spec r (2 ^ 63)),
    (Z.leb_spec (2 ^ 63) r), (Z.ltb_spec r (2 ^ 64)),
    (Z.leb_spec (- 2 ^ 63) c), (Z.ltb_spec c (2 ^ 63)),
    (Z.leb_spec (2 ^ 63) c), (Z.ltb_spec c (2 ^ 64));
    cbn [andb]; split_and!; intros; first [lia|auto].
Qed.

(** Inside [-rows, rows) and [-cols, cols) a negative index counts from
    the end of its axis. *)
Lemma flag_tile_wraps s r c :
  wf s -> - rows s <= r < rows s -> - cols s <= c < cols s ->
  flag_tile (r, c) s = flag_tile (r mod rows s, c mod cols s) s.
Proof.
  intros Hwf Hr Hc.
  pose proof (wf_rows s Hwf). pose proof (wf_cols s Hwf).
  pose proof (Z.mod_pos_bound r (rows s) ltac:(lia)).
  pose proof (Z.mod_pos_bound c (cols s) ltac:(lia)).
  assert (in_bounds s (r mod rows s, c mod cols s) = true) as Hb
    by (apply in_bounds_spec; simpl; lia).
  destruct (flag_tile_ok s (r, c) _ _ Hwf (resolve_wrap s r c Hwf Hr Hc))
    as (old & frow & Hf & Ho & ->).
  destruct (flag_tile_ok s _ _ _ Hwf (resolve_in_bounds s _ Hwf Hb))
    as (old' & frow' & Hf' & Ho' & ->).
  cbn [fst snd] in *.
  assert (frow' = frow) as -> by congruence.
  assert (old' = old) as -> by congruence.
  reflexivity.
Qed.

(** [flag_tile] on the board flips the entry of the location. *)
Lemma flag_tile_flips s loc :
  wf s -> in_bounds s loc = true ->
  exists old s1,
    flag_tile loc s = (Ok tt, s1) /\
    getitem (flagged s) loc = Ok old /\
    getitem (flagged s1) loc = Ok (if old =? 0 then 1 else 0).
Proof.
  intros Hwf Hb.
  pose proof (resolve_in_bounds s loc Hwf Hb) as Hres.
  destruct (flag_tile_ok s loc _ _ Hwf Hres) as (old & frow & Hf & Ho & Hrun).
  set (r := Z.to_nat (fst loc)) in *. set (c := Z.to_nat (snd loc)) in *.
  set (s1 := set_flagged
               (<[r := <[c := if old =? 0 then 1 else 0]> frow]> (flagged s))
               s) in *.
  assert (wf s1) as Hwf1.
  { replace s1 with (snd (flag_tile loc s)) by (rewrite Hrun; reflexivity).
    apply wf_flag_tile, Hwf. }
  assert ((r < length (flagged s))%nat) as Hr
    by (eapply lookup_lt_Some; eauto).
  assert ((c < length frow)%nat) as Hc by (eapply lookup_lt_Some; eauto).
  exists old, s1. split_and!.
  - exact Hrun.
  - apply (getitem_cell (flagged s) s loc old Hwf (wf_flagged s Hwf) Hb).
    unfold cell. fold r c. rewrite Hf. exact Ho.
  - apply (getitem_cell (flagged s1) s loc _ Hwf (wf_flagged s1 Hwf1) Hb).
    unfold cell. fold r c. simpl.
    rewrite list_lookup_insert_eq by exact Hr. simpl.
    apply list_lookup_insert_eq. exact Hc.
Qed.

(** C9, amended.  On a well-formed instance [flag_tile] raises, and
    changes nothing, at every location whose row is outside [-rows, rows)
    or whose column is outside [-cols, cols).  The exception is the one
    of numpy: an [IndexError] when both indices are C integers of 64 bits,
    an [OverflowError] when the first index that is not one lies from
    [2^63] to [2^64 - 1].  Inside the two ranges a negative index is not
    rejected: it counts from the end of its axis, and the flag of that
    cell is flipped. *)
Theorem C9_flag_tile_out_of_range s r c :
  wf s ->
  (rows s <= r \/ r < - rows s \/ cols s <= c \/ c < - cols s ->
   exists e,
     flag_tile (r, c) s = (Raise e, s) /\
     (e = IndexError \/ e = OverflowError) /\
     (- 2 ^ 63 <= r < 2 ^ 63 -> - 2 ^ 63 <= c < 2 ^ 63 -> e = IndexError) /\
     (2 ^ 63 <= r < 2 ^ 64 -> e = OverflowError) /\
     (- 2 ^ 63 <= r < 2 ^ 63 -> 2 ^ 63 <= c < 2 ^ 64 ->
      e = OverflowError)) /\
  (- rows s <= r < rows s -> - cols s <= c < cols s ->
   let target := (r mod rows s, c mod cols s) in
   in_bounds s target = true /\
   exists old s',
     flag_tile (r, c) s = (Ok tt, s') /\
     getitem (flagged s) target = Ok old /\
     getitem (flagged s') target = Ok (if old =? 0 then 1 else 0)).
Proof.
  intros Hwf. split.
  - intros Hout. exists (index_error (r, c)). split.
    + apply flag_tile_raise; [exact Hwf|].
      apply resolve_out_of_range; assumption.
    + apply index_error_cases.
  - intros Hr Hc target.
    pose proof (wf_rows s Hwf). pose proof (wf_cols s Hwf).
    pose proof (Z.mod_pos_bound r (rows s) ltac:(lia)).
    pose proof (Z.mod_pos_bound c (cols s) ltac:(lia)).
    assert (in_bounds s target = true) as Hb
      by (apply in_bounds_spec; simpl; lia).
    split; [exact Hb|].
    rewrite (flag_tile_wraps s r c Hwf Hr Hc). fold target.
    apply flag_tile_flips; assumption.
Qed.

(** The location of the test of [flag_tile], one past the last cell; a
    row that is no C integer of 64 bits; and the last cell, counted from
    the end. *)
Lemma C9_flag_tile_out_of_range_witness :
  flag_tile (8, 8) fresh = (Raise IndexError, fresh) /\
  flag_tile (2 ^ 63, 0) fresh = (Raise OverflowError, fresh) /\
  exists s',
    flag_tile (-1, -1) fresh = (Ok tt, s') /\
    getitem (flagged s') (7, 7) = Ok 1.
Proof.
  split_and!.
  - destruct (C9_flag_tile_out_of_range fresh 8 8 wf_fresh) as [Hout _].
    destruct Hout as (e & Hrun & _ & Hidx & _); [left; simpl; lia|].
    rewrite Hrun, Hidx by lia. reflexivity.
  - destruct (C9_flag_tile_out_of_range fresh (2 ^ 63) 0 wf_fresh)
      as [Hout _].
    destruct Hout as (e & Hrun & _ & _ & Hover & _); [left; simpl; lia|].
    rewrite Hrun, Hover by lia. reflexivity.
  - destruct (C9_flag_tile_out_of_range fresh (-1) (-1) wf_fresh)
      as [_ Hin].
    destruct Hin as (_ & old & s' & Hrun & Hold & Hnew);
      [simpl; lia|simpl; lia|].
    exists s'. split; [exact Hrun|].
    vm_compute in Hold. inversion Hold; subst old. exact Hnew.
Defined.

(** ** C10: flagging twice *)

(** C10.  On a well-formed instance and at a location of the board,
    [flag_tile] returns and changes one entry of the flag overlay between 0
    and 1, and nothing else; a second call returns and gives back the
    instance the first call started from. *)
Theorem C10_flag_tile_twice s loc :
  wf s -> in_bounds s loc = true ->
  exists s1 old,
    flag_tile loc s = (Ok tt, s1) /\
    flag_tile loc s1 = (Ok tt, s) /\
    getitem (flagged s) loc = Ok old /\
    getitem (flagged s1) loc = Ok (if old =? 0 then 1 else 0) /\
    grid s1 = grid s /\ swept s1 = swept s /\
    won s1 = won s /\ lost s1 = lost s /\ quit s1 = quit s.
Proof.
  intros Hwf Hb.
  pose proof (resolve_in_bounds s loc Hwf Hb) as Hres.
  destruct (flag_tile_ok s loc _ _ Hwf Hres) as (old & frow & Hf & Ho & Hrun).
  set (r := Z.to_nat (fst loc)) in *. set (c := Z.to_nat (snd loc)) in *.
  set (s1 := set_flagged
               (<[r := <[c := if old =? 0 then 1 else 0]> frow]> (flagged s))
               s) in *.
  assert (wf s1) as Hwf1.
  { replace s1 with (snd (flag_tile loc s)) by (rewrite Hrun; reflexivity).
    apply wf_flag_tile, Hwf. }
  assert (old = 0 \/ old = 1) as Hbool.
  { pose proof (wf_bool_flags s Hwf) as Hall.
    rewrite Forall_lookup in Hall. pose proof (Hall r frow Hf) as Hrow.
    rewrite Forall_lookup in Hrow. exact (Hrow c old Ho). }
  destruct (flag_tile_ok s1 loc r c Hwf1 Hres)
    as (old1 & frow1 & Hf1 & Ho1 & Hrun1).
  assert ((r < length (flagged s))%nat) as Hr
    by (eapply lookup_lt_Some; eauto).
  assert ((c < length frow)%nat) as Hc by (eapply lookup_lt_Some; eauto).
  simpl in Hf1. rewrite list_lookup_insert_eq in Hf1 by exact Hr.
  inversion Hf1; subst frow1.
  rewrite list_lookup_insert_eq in Ho1 by exact Hc.
  inversion Ho1; subst old1.
  exists s1, old. split_and!; try reflexivity.
  - exact Hrun.
  - rewrite Hrun1. f_equal. simpl.
    rewrite !list_insert_insert_eq.
    assert ((if (if old =? 0 then 1 else 0) =? 0 then 1 else 0) = old) as ->
      by (destruct Hbool as [-> | ->]; reflexivity).
    rewrite (list_insert_id frow c old Ho).
    rewrite (list_insert_id (flagged s) r frow Hf).
    destruct s; reflexivity.
  - apply (getitem_cell (flagged s) s loc old Hwf (wf_flagged s Hwf) Hb).
    unfold cell. fold r c. rewrite Hf. exact Ho.
  - apply (getitem_cell (flagged s1) s loc _ Hwf (wf_flagged s1 Hwf1) Hb).
    unfold cell. fold r c. simpl.
    rewrite list_lookup_insert_eq by exact Hr. simpl.
    apply list_lookup_insert_eq. exact Hc.
Qed.

(** The first step of the test of flagging: the tile at [(1, 2)]. *)
Lemma C10_flag_tile_twice_witness :
  exists s1,
    flag_tile (1, 2) fresh = (Ok tt, s1) /\
    flag_tile (1, 2) s1 = (Ok tt, fresh) /\
    getitem (flagged s1) (1, 2) = Ok 1.
Proof.
  destruct (C10_flag_tile_twice fresh (1, 2) wf_fresh eq_refl)
    as (s1 & old & H1 & H2 & Hold & Hnew & _).
  exists s1. split_and!; [exact H1|exact H2|].
  rewrite Hnew. vm_compute in Hold. inversion Hold; subst old. reflexivity.
Defined.

(** ** C3: [sweep_tile] *)

Lemma cell_Some_lt {A} (a : list (list A)) nr nc r c v :
  shape a nr nc -> cell a r c = Some v -> (r < nr)%nat /\ (c < nc)%nat.
Proof.
  intros Hs Hcell. unfold cell in Hcell.
  destruct (a !! r) as [row|] eqn:Erow; [|discriminate]. simpl in Hcell.
  pose proof (shape_row _ _ _ _ _ Hs Erow) as Hlen.
  apply lookup_lt_Some in Erow, Hcell. destruct Hs as [Hl _]. lia.
Qed.

Lemma setitem_insert {A} (a : list (list A)) nr nc loc r c row v :
  shape a nr nc -> (0 < nr)%nat -> resolve nr nc loc = Ok (r, c) ->
  a !! r = Some row ->
  setitem a loc v = Ok (<[r := <[c := v]> row]> a).
Proof.
  intros Hs Hpos Hres Hrow.
  rewrite (setitem_resolve a nr nc loc v Hs Hpos), Hres, Hrow. reflexivity.
Qed.

(** The instance after [sweep_tile] at a location of the board. *)
Lemma sweep_tile_in_bounds s loc :
  wf s -> in_bounds s loc = true ->
  exists old g w,
    getitem (grid s) loc = Ok old /\
    setitem (grid s) loc (revealed s loc old) = Ok g /\
    setitem (swept s) loc 1 = Ok w /\
    wf (set_grid g (set_swept w s)) /\
    sweep_tile loc s = check_game_state (set_grid g (set_swept w s)).
Proof.
  intros Hwf Hb.
  pose proof (resolve_in_bounds s loc Hwf Hb) as Hres.
  destruct (sweep_tile_ok s loc _ _ Hwf Hres)
    as (old & grow & srow & Hg & Ho & Hs & Hrun).
  eexists old, _, _. split_and!.
  - apply (getitem_cell (grid s) s loc old Hwf (wf_grid s Hwf) Hb).
    unfold cell. rewrite Hg. exact Ho.
  - exact (setitem_insert (grid s) _ _ loc _ _ grow _ (wf_grid s Hwf)
             (rows_pos_nat s Hwf) Hres Hg).
  - exact (setitem_insert (swept s) _ _ loc _ _ srow _ (wf_swept s Hwf)
             (rows_pos_nat s Hwf) Hres Hs).
  - apply wf_set_grid.
    + apply wf_set_swept; [exact Hwf|].
      apply shape_insert; [apply (wf_swept s Hwf)|exact Hs].
    + simpl. apply shape_insert; [apply (wf_grid s Hwf)|exact Hg].
  - exact Hrun.
Qed.

Lemma check_game_state_keeps s :
  let s' := snd (check_game_state s) in
  grid s' = grid s /\ swept s' = swept s /\ flagged s' = flagged s /\
  quit s' = quit s /\ number_of_mines s' = number_of_mines s /\
  rows s' = rows s /\ cols s' = cols s.
Proof.
  cbv zeta. rewrite check_game_state_run. simpl.
  destruct (any (eq_mask (grid s) exploded)); [repeat split|].
  destruct (negb (any (eq_mask (grid s) unexplored))); repeat split.
Qed.

(** C3.  At a location of the board of a well-formed instance,
    [sweep_tile] returns; the entry of [swept] at the location is 1; the
    cell is [exploded] if it held a mine, and otherwise the number of board
    cells around it that hold a mine, a number from 0 to 8; no other cell
    of either array changes; and the outcome is evaluated again on the new
    board: [lost] is set when a cell of it is exploded, as it is after the
    sweep of a mine, and [won] is then as it was; when no cell is exploded
    [lost] is as it was, and [won] is set if no cell is unexplored and is
    as it was if one is.  Nothing else changes. *)
Theorem C3_sweep_tile s loc :
  wf s -> in_bounds s loc = true ->
  exists s' old,
    sweep_tile loc s = (Ok tt, s') /\
    getitem (grid s) loc = Ok old /\
    getitem (swept s') loc = Ok 1 /\
    getitem (grid s') loc =
      Ok (if old =? mine then exploded else mines_around s loc) /\
    0 <= mines_around s loc <= 8 /\
    (forall q, in_bounds s q = true -> q <> loc ->
       getitem (grid s') q = getitem (grid s) q /\
       getitem (swept s') q = getitem (swept s) q) /\
    flagged s' = flagged s /\
    check_game_state (set_grid (grid s') (set_swept (swept s') s))
      = (Ok tt, s') /\
    (old = mine -> lost s' = true /\ won s' = won s) /\
    ((exists r c, cell (grid s') r c = Some exploded) ->
     lost s' = true /\ won s' = won s) /\
    (~ (exists r c, cell (grid s') r c = Some exploded) ->
     lost s' = lost s /\
     ((exists r c, cell (grid s') r c = Some unexplored) ->
      won s' = won s) /\
     (~ (exists r c, cell (grid s') r c = Some unexplored) ->
      won s' = true)) /\
    quit s' = quit s /\ number_of_mines s' = number_of_mines s /\
    rows s' = rows s /\ cols s' = cols s.
Proof.
  intros Hwf Hb.
  destruct (sweep_tile_in_bounds s loc Hwf Hb)
    as (old & g & w & Hget & Hsetg & Hsetw & Hwf1 & Hrun).
  set (s1 := set_grid g (set_swept w s)) in *.
  destruct (check_game_state_keeps s1) as (Eg & Ew & Ef & Eq & En & Er & Ec).
  pose proof (check_game_state_run s1) as Hcheck.
  assert ((exists r c, cell (grid (snd (check_game_state s1))) r c
                       = Some exploded) ->
          lost (snd (check_game_state s1)) = true /\
          won (snd (check_game_state s1)) = won s) as Hlost.
  { rewrite Eg. intros He. apply any_eq_mask in He.
    rewrite Hcheck. cbn [snd]. rewrite He. split; reflexivity. }
  exists (snd (check_game_state s1)), old.
  pose proof (in_bounds_spec s loc) as Hloc. apply Hloc in Hb as Hb'.
  pose proof (wf_rows s Hwf) as Hrows. pose proof (wf_cols s Hwf) as Hcols.
  assert (forall {A} (a a' : list (list A)) v q,
            shape a (Z.to_nat (rows s)) (Z.to_nat (cols s)) ->
            setitem a loc v = Ok a' -> in_bounds s q = true ->
            getitem a' q = if decide (q = loc) then Ok v else getitem a q)
    as Hread.
  { intros A a a' v q Hsh Hset Hq. apply in_bounds_spec in Hq.
    apply (getitem_setitem a a' (Z.to_nat (rows s)) (Z.to_nat (cols s))
             loc q v Hsh (rows_pos_nat s Hwf)); try lia. exact Hset. }
  split_and!.
  - rewrite Hrun, Hcheck. reflexivity.
  - exact Hget.
  - rewrite Ew. simpl.
    rewrite (Hread _ _ _ _ loc (wf_swept s Hwf) Hsetw Hb).
    rewrite decide_True by reflexivity. reflexivity.
  - rewrite Eg. simpl.
    rewrite (Hread _ _ _ _ loc (wf_grid s Hwf) Hsetg Hb).
    rewrite decide_True by reflexivity. reflexivity.
  - apply (mines_around_bounds s loc Hwf).
  - apply (mines_around_bounds s loc Hwf).
  - intros q Hq Hne. rewrite Eg, Ew. simpl.
    rewrite (Hread _ _ _ _ q (wf_grid s Hwf) Hsetg Hq).
    rewrite (Hread _ _ _ _ q (wf_swept s Hwf) Hsetw Hq).
    rewrite !decide_False by exact Hne. split; reflexivity.
  - rewrite Ef. reflexivity.
  - rewrite Eg, Ew. simpl. fold s1.
    replace (set_grid g (set_swept w s)) with s1 by reflexivity.
    rewrite Hcheck. reflexivity.
  - intros ->. apply Hlost.
    exists (Z.to_nat (fst loc)), (Z.to_nat (snd loc)).
    apply (getitem_cell (grid (snd (check_game_state s1))) s loc exploded Hwf).
    + rewrite Eg. apply (wf_grid s1 Hwf1).
    + exact Hb.
    + rewrite Eg. simpl.
      rewrite (Hread _ _ _ _ loc (wf_grid s Hwf) Hsetg Hb).
      rewrite decide_True by reflexivity. reflexivity.
  - exact Hlost.
  - rewrite Eg. intros He.
    destruct (any (eq_mask (grid s1) exploded)) eqn:E1;
      [exfalso; apply He, any_eq_mask, E1|].
    rewrite Hcheck. cbn [snd]. split_and!.
    + destruct (negb (any (eq_mask (grid s1) unexplored))); reflexivity.
    + intros Hu. apply any_eq_mask in Hu. rewrite Hu. reflexivity.
    + intros Hu.
      destruct (any (eq_mask (grid s1) unexplored)) eqn:E2;
        [exfalso; apply Hu, any_eq_mask, E2|].
      reflexivity.
  - rewrite Eq. reflexivity.
  - rewrite En. reflexivity.
  - rewrite Er. reflexivity.
  - rewrite Ec. reflexivity.
Qed.

(** The board of the test of [sweep_tile]: the tile at [(4, 1)] lies
    between the mines at [(3, 1)] and [(5, 1)]. *)
Lemma C3_sweep_tile_witness :
  exists s0 s',
    new (Some [loc_value (1, 6); loc_value (3, 1); loc_value (5, 1)]) []
      = Ok s0 /\
    sweep_tile (4, 1) s0 = (Ok tt, s') /\
    getitem (swept s') (4, 1) = Ok 1 /\
    getitem (grid s') (4, 1) = Ok 2.
Proof.
  eexists. 
  match goal with
  | |- exists s', ?n = Ok ?s0 /\ _ =>
      assert (n = Ok s0) as Hnew by reflexivity
  end.
  destruct (new_explicit _ _ _ Hnew) as (g & _ & Hwf & _).
  destruct (C3_sweep_tile _ (4, 1) Hwf eq_refl)
    as (s' & old & Hrun & Hold & Hsw & Hgr & _).
  exists s'. split_and!; [exact Hnew|exact Hrun|exact Hsw|].
  rewrite Hgr. vm_compute in Hold. inversion Hold; subst old.
  reflexivity.
Defined.

(** ** C6: flags of swept cells *)

Lemma sweep_tile_keeps_flagged s loc :
  wf s -> flagged (snd (sweep_tile loc s)) = flagged s.
Proof.
  intros Hwf.
  destruct (resolve (Z.to_nat (rows s)) (Z.to_nat (cols s)) loc)
    as [[r c]|e] eqn:Hres.
  - destruct (sweep_tile_ok s loc r c Hwf Hres)
      as (old & grow & srow & _ & _ & _ & ->).
    destruct (check_game_state_keeps
                (set_grid (<[r := <[c := revealed s loc old]> grow]> (grid s))
                   (set_swept (<[r := <[c := 1]> srow]> (swept s)) s)))
      as (_ & _ & Ef & _).
    rewrite Ef. reflexivity.
  - rewrite (sweep_tile_raise s loc e Hwf Hres). reflexivity.
Qed.

(** [sweep_tile] at a location of the board returns and marks it swept. *)
Lemma sweep_tile_marks_swept s loc :
  wf s -> in_bounds s loc = true ->
  exists s2,
    sweep_tile loc s = (Ok tt, s2) /\
    getitem (swept s2) loc = Ok 1 /\
    rows s2 = rows s /\ cols s2 = cols s.
Proof.
  intros Hwf Hb.
  destruct (sweep_tile_in_bounds s loc Hwf Hb)
    as (old & g & w & _ & _ & Hsetw & _ & Hrun).
  destruct (check_game_state_keeps (set_grid g (set_swept w s)))
    as (_ & Ew & _ & _ & _ & Er & Ec).
  exists (snd (check_game_state (set_grid g (set_swept w s)))).
  apply in_bounds_spec in Hb as Hb'.
  split_and!.
  - rewrite Hrun, check_game_state_run. reflexivity.
  - rewrite Ew. simpl.
    rewrite (getitem_setitem (swept s) w (Z.to_nat (rows s))
               (Z.to_nat (cols s)) loc loc 1 (wf_swept s Hwf)
               (rows_pos_nat s Hwf)); try lia; [|exact Hsetw].
    rewrite decide_True by reflexivity. reflexivity.
  - exact Er.
  - exact Ec.
Qed.

(** C6 as stated fails for [sweep_tile] on its own: a flagged tile that is
    swept is then both swept and flagged. *)
Lemma C6_swept_tile_still_flagged :
  exists s1 s2,
    flag_tile (1, 2) fresh = (Ok tt, s1) /\
    sweep_tile (1, 2) s1 = (Ok tt, s2) /\
    getitem (swept s2) (1, 2) = Ok 1 /\
    getitem (flagged s2) (1, 2) = Ok 1.
Proof. eexists _, _. repeat split. Qed.

(** After [clear_swept_flags] no swept cell is flagged. *)
Lemma clear_swept_flags_clears s :
  wf s ->
  exists s',
    clear_swept_flags s = (Ok tt, s') /\
    swept s' = swept s /\ grid s' = grid s /\
    forall r c w, cell (swept s') r c = Some w -> w <> 0 ->
                  cell (flagged s') r c = Some 0.
Proof.
  intros Hwf. eexists. split; [reflexivity|]. simpl.
  split_and!; try reflexivity.
  intros r c w Hw Hne.
  destruct (cell_Some_lt _ _ _ _ _ _ (wf_swept s Hwf) Hw) as [Hr Hc].
  destruct (cell_lt (flagged s) _ _ r c (wf_flagged s Hwf) Hr Hc) as [f Hf].
  rewrite cell_mask_assign. unfold nonzero_mask.
  rewrite cell_map, Hw, Hf. simpl.
  replace (w =? 0) with false by lia. reflexivity.
Qed.

(** C6, amended.  The sweep command of the command loop, [sweep_tile]
    followed by [clear_swept_flags], returns at every location of the board
    of a well-formed instance and leaves no cell both swept and flagged;
    [sweep_tile] itself does not write to the flag overlay. *)
Theorem C6_no_swept_cell_flagged_after_clearing s loc :
  wf s -> in_bounds s loc = true ->
  exists s',
    cli_sweep loc s = (Ok tt, s') /\
    (forall r c w, cell (swept s') r c = Some w -> w <> 0 ->
                   cell (flagged s') r c = Some 0) /\
    getitem (swept s') loc = Ok 1 /\
    getitem (flagged s') loc = Ok 0 /\
    flagged (snd (sweep_tile loc s)) = flagged s.
Proof.
  intros Hwf Hb.
  destruct (sweep_tile_marks_swept s loc Hwf Hb) as (s2 & Hrun & Hsw & Er & Ec).
  assert (wf s2) as Hwf2.
  { replace s2 with (snd (sweep_tile loc s)) by (rewrite Hrun; reflexivity).
    apply wf_sweep_tile, Hwf. }
  destruct (clear_swept_flags_clears s2 Hwf2) as (s' & Hclear & Esw & _ & Hall).
  assert (in_bounds s2 loc = true) as Hb2
    by (unfold in_bounds; rewrite Er, Ec; exact Hb).
  assert (wf s') as Hwf'.
  { replace s' with (snd (clear_swept_flags s2))
      by (rewrite Hclear; reflexivity).
    apply wf_clear_swept_flags, Hwf2. }
  assert (rows s' = rows s2 /\ cols s' = cols s2) as [Er' Ec']
    by (unfold clear_swept_flags, modify in Hclear; inversion Hclear;
        split; reflexivity).
  assert (in_bounds s' loc = true) as Hb'
    by (unfold in_bounds; rewrite Er', Ec'; exact Hb2).
  exists s'. split_and!.
  - unfold cli_sweep, bind. rewrite Hrun. exact Hclear.
  - exact Hall.
  - rewrite Esw. exact Hsw.
  - apply (getitem_cell (flagged s') s' loc 0 Hwf' (wf_flagged s' Hwf') Hb').
    apply (Hall _ _ 1); [|lia].
    apply (getitem_cell (swept s') s' loc 1 Hwf' (wf_swept s' Hwf') Hb').
    rewrite Esw. exact Hsw.
  - apply sweep_tile_keeps_flagged, Hwf.
Qed.

(** The second scenario of the test of flagging: flag, sweep, clear. *)
Lemma C6_no_swept_cell_flagged_after_clearing_witness :
  exists s1 s',
    flag_tile (2, 1) fresh = (Ok tt, s1) /\
    cli_sweep (2, 1) s1 = (Ok tt, s') /\
    getitem (flagged s1) (2, 1) = Ok 1 /\
    getitem (flagged s') (2, 1) = Ok 0.
Proof.
  eexists.
  match goal with
  | |- exists s', ?f = (Ok tt, ?s1) /\ _ =>
      assert (f = (Ok tt, s1)) as Hflag by reflexivity
  end.
  match type of Hflag with
  | _ = (_, ?s1) =>
      assert (wf s1) as Hwf
        by (change s1 with (snd (flag_tile (2, 1) fresh));
            apply wf_flag_tile, wf_fresh)
  end.
  destruct (C6_no_swept_cell_flagged_after_clearing _ (2, 1) Hwf eq_refl)
    as (s' & Hrun & _ & _ & Hf & _).
  exists s'. split_and!; [exact Hflag|exact Hrun|reflexivity|exact Hf].
Defined.

(** ** C1: the counter of the constructor *)

(** When the constructor returns, the counter is the number of valid
    entries of the list, each repetition counted. *)
Lemma new_counts_every_valid_entry locations sample s :
  new (Some locations) sample = Ok s ->
  number_of_mines s = Z.of_nat (length (valid_locations locations)).
Proof.
  intros Hnew. destruct (new_explicit _ _ _ Hnew) as (g & -> & _).
  reflexivity.
Qed.

(** The list of the test of the constructor: four valid entries, an entry
    off the board and a string of seven characters. *)
Example new_test_setup_game_with_mines :
  exists s,
    new (Some [loc_value (0, 1); loc_value (4, 5); loc_value (6, 2);
               loc_value (0, 4); loc_value (-1, -1); PyStr "waffles"]) []
      = Ok s /\
    number_of_mines s = 4 /\ count_cells is_mine (grid s) = 4.
Proof. eexists. repeat split. Qed.

(** C1.  The constructor on a list that names the cell [(0, 1)] twice
    returns an instance with one mined cell and a counter of 2, where the
    list has one distinct valid location; on a list with the two-character
    string ["ab"] it raises [TypeError] instead of skipping the entry. *)
Theorem C1_constructor_counts_duplicates_and_raises :
  (exists s,
     new (Some [loc_value (0, 1); loc_value (0, 1)]) [] = Ok s /\
     number_of_mines s = 2 /\
     count_cells is_mine (grid s) = 1 /\
     length (remove_dups
               (valid_locations [loc_value (0, 1); loc_value (0, 1)]))
       = 1%nat) /\
  new (Some [PyStr "ab"; loc_value (0, 1)]) [] = Raise TypeError.
Proof.
  split; [eexists; split_and!|]; try reflexivity.
Qed.

(** ** C2: the number of mined cells along a run *)

Lemma run_cons o ops s : run (o :: ops) s = run ops (after o s).
Proof. reflexivity. Qed.

Lemma run_app ops ops' s : run (ops ++ ops') s = run ops' (run ops s).
Proof. unfold run. apply fold_left_app. Qed.

Lemma getitem_resolved {A} (a : list (list A)) nr nc loc r c row v :
  shape a nr nc -> (0 < nr)%nat -> resolve nr nc loc = Ok (r, c) ->
  a !! r = Some row -> row !! c = Some v -> getitem a loc = Ok v.
Proof.
  intros Hs Hpos Hres Hrow Hv.
  rewrite (getitem_resolve a nr nc loc Hs Hpos), Hres.
  unfold cell. rewrite Hrow. simpl. rewrite Hv. reflexivity.
Qed.

(** The two ways [sweep_tile] rewrites a cell: a cell that is not exploded
    keeps its status of mined or not mined, an exploded cell becomes a
    count. *)
Lemma sweep_tile_mines s loc :
  wf s ->
  number_of_mines (snd (sweep_tile loc s)) = number_of_mines s /\
  count_cells is_mine_or_exploded (grid (snd (sweep_tile loc s))) =
    count_cells is_mine_or_exploded (grid s) - b2z (holds_exploded s loc).
Proof.
  intros Hwf.
  destruct (resolve (Z.to_nat (rows s)) (Z.to_nat (cols s)) loc)
    as [[r c]|e] eqn:Hres.
  - destruct (sweep_tile_ok s loc r c Hwf Hres)
      as (old & grow & srow & Hg & Ho & Hs & ->).
    match goal with
    | |- context [check_game_state ?s1] =>
        destruct (check_game_state_keeps s1) as (Eg & _ & _ & _ & En & _)
    end.
    rewrite Eg, En. simpl. split; [reflexivity|].
    pose proof (count_cells_insert is_mine_or_exploded (grid s) r c
                  (revealed s loc old) grow old Hg Ho) as Hcount.
    unfold holds_exploded.
    rewrite (getitem_resolved (grid s) _ _ loc r c grow old (wf_grid s Hwf)
               (rows_pos_nat s Hwf) Hres Hg Ho).
    pose proof (mines_around_bounds s loc Hwf) as Hn.
    unfold revealed, is_mine_or_exploded, mine, exploded in *.
    destruct (old =? 10) eqn:E1; simpl in Hcount |- *.
    + replace (old =? 11) with false by lia. simpl. lia.
    + replace (mines_around s loc =? 10) with false in Hcount by lia.
      replace (mines_around s loc =? 11) with false in Hcount by lia.
      destruct (old =? 11); simpl in *; lia.
  - rewrite (sweep_tile_raise s loc e Hwf Hres). simpl.
    unfold holds_exploded.
    destruct (setitem_raise (grid s) _ _ loc 0 e (wf_grid s Hwf)
                (rows_pos_nat s Hwf) Hres) as [_ ->].
    simpl. split; [reflexivity|lia].
Qed.

Lemma flag_tile_keeps s loc :
  wf s ->
  let s' := snd (flag_tile loc s) in
  grid s' = grid s /\ swept s' = swept s /\ won s' = won s /\
  lost s' = lost s /\ quit s' = quit s /\
  number_of_mines s' = number_of_mines s.
Proof.
  intros Hwf.
  destruct (resolve (Z.to_nat (rows s)) (Z.to_nat (cols s)) loc)
    as [[r c]|e] eqn:Hres.
  - destruct (flag_tile_ok s loc r c Hwf Hres) as (old & frow & _ & _ & ->).
    repeat split.
  - rewrite (flag_tile_raise s loc e Hwf Hres). repeat split.
Qed.

Lemma after_keeps_mines s o :
  wf s ->
  match o with
  | Sweep location => holds_exploded s location = false
  | _ => True
  end ->
  number_of_mines (after o s) = number_of_mines s /\
  count_cells is_mine_or_exploded (grid (after o s)) =
    count_cells is_mine_or_exploded (grid s).
Proof.
  intros Hwf Hok. unfold after. destruct o as [loc|loc| |]; simpl.
  - destruct (sweep_tile_mines s loc Hwf) as [Hn Hc].
    rewrite Hn, Hc, Hok. simpl. split; [reflexivity|lia].
  - destruct (flag_tile_keeps s loc Hwf) as (Eg & _ & _ & _ & _ & En).
    rewrite Eg, En. split; reflexivity.
  - split; reflexivity.
  - split; reflexivity.
Qed.

Lemma run_keeps_mines ops : forall s,
  wf s -> no_resweep ops s = true ->
  number_of_mines (run ops s) = number_of_mines s /\
  count_cells is_mine_or_exploded (grid (run ops s)) =
    count_cells is_mine_or_exploded (grid s).
Proof.
  induction ops as [|o ops IH]; intros s Hwf Hok.
  - split; reflexivity.
  - rewrite run_cons. simpl in Hok. apply andb_true_iff in Hok as [Ho Hrest].
    destruct (after_keeps_mines s o Hwf) as [Hn Hc].
    { destruct o; try exact I. apply negb_true_iff, Ho. }
    destruct (IH (after o s) (wf_after o s Hwf) Hrest) as [Hn' Hc'].
    rewrite Hn', Hc', Hn, Hc. split; reflexivity.
Qed.

(** C2 as stated fails: after a mine has been detonated, a second
    [sweep_tile] on it writes a count over the exploded cell, and the board
    of an instance that counts one mine holds none. *)
Lemma C2_second_sweep_removes_the_mine :
  exists s0,
    new (Some [loc_value (0, 0)]) [] = Ok s0 /\
    number_of_mines (run [Sweep (0, 0); Sweep (0, 0)] s0) = 1 /\
    count_cells is_mine_or_exploded
      (grid (run [Sweep (0, 0)] s0)) = 1 /\
    count_cells is_mine_or_exploded
      (grid (run [Sweep (0, 0); Sweep (0, 0)] s0)) = 0.
Proof. eexists. repeat split. Qed.

(** C2, amended.  From an instance built with a placement that names no
    cell twice, along every run of [sweep_tile], [flag_tile],
    [clear_swept_flags] and [exit_game] in which no exploded cell is swept
    again, the number of cells holding a mine or an exploded mine is
    [number_of_mines]. *)
Theorem C2_mined_cells_constant locations sample s0 ops :
  new locations sample = Ok s0 ->
  distinct_placement locations sample ->
  no_resweep ops s0 = true ->
  count_cells is_mine_or_exploded (grid (run ops s0)) =
    number_of_mines (run ops s0).
Proof.
  intros Hnew Hplace Hok.
  destruct (new_wf locations sample s0 Hnew) as (Hwf & _ & _ & _ & Hcount).
  { intros ->. exact Hplace. }
  destruct (run_keeps_mines ops s0 Hwf Hok) as [Hn Hc].
  rewrite Hn, Hc. apply Hcount, Hplace.
Qed.

(** The board of the test of [sweep_tile], swept around and on a mine. *)
Lemma C2_mined_cells_constant_witness :
  exists s0,
    new (Some [loc_value (1, 6); loc_value (3, 1); loc_value (5, 1)]) []
      = Ok s0 /\
    let s := run [Sweep (0, 5); ToggleFlag (1, 6); Sweep (4, 1);
                  Sweep (1, 6); ClearSweptFlags; RequestQuit] s0 in
    count_cells is_mine_or_exploded (grid s) = 3 /\
    count_cells is_mine_or_exploded (grid s) = number_of_mines s.
Proof.
  eexists. split; [reflexivity|]. cbv zeta. split; [reflexivity|].
  apply (C2_mined_cells_constant
           (Some [loc_value (1, 6); loc_value (3, 1); loc_value (5, 1)]) []).
  - reflexivity.
  - change (NoDup [(1, 6); (3, 1); (5, 1)]).
    repeat (apply NoDup_cons; split;
            [rewrite ?elem_of_cons, elem_of_nil; intros H;
             repeat (destruct H as [H|H]; [discriminate|]); exact H|]).
    apply NoDup_nil_2.
  - reflexivity.
Defined.

(** ** C5: the outcome flags along a run *)

Lemma sweep_tile_flags s loc :
  wf s ->
  let s' := snd (sweep_tile loc s) in
  (won s' = won s /\ lost s' = lost s) \/
  (won s' = won s /\ lost s' = true) \/
  (won s' = true /\ lost s' = lost s).
Proof.
  intros Hwf.
  destruct (resolve (Z.to_nat (rows s)) (Z.to_nat (cols s)) loc)
    as [[r c]|e] eqn:Hres.
  - destruct (sweep_tile_ok s loc r c Hwf Hres)
      as (old & grow & srow & _ & _ & _ & ->).
    cbv zeta. rewrite check_game_state_run. simpl.
    match goal with
    | |- context [any (eq_mask ?g exploded)] =>
        destruct (any (eq_mask g exploded)); simpl;
        [right; left; split; reflexivity|];
        destruct (any (eq_mask g unexplored)); simpl;
        [left; split; reflexivity|right; right; split; reflexivity]
    end.
  - rewrite (sweep_tile_raise s loc e Hwf Hres). left. split; reflexivity.
Qed.

(** No call resets a flag; a call made while at most one flag is up, and
    which is not a sweep after the end of the game, leaves at most one flag
    up. *)
Lemma after_flags s o :
  wf s ->
  (won s = true -> won (after o s) = true) /\
  (lost s = true -> lost (after o s) = true) /\
  (match o with
   | Sweep _ => negb (won s) && negb (lost s) = true
   | _ => True
   end ->
   ~ (won s = true /\ lost s = true) ->
   ~ (won (after o s) = true /\ lost (after o s) = true)).
Proof.
  intros Hwf. unfold after. destruct o as [loc|loc| |]; simpl.
  - destruct (sweep_tile_flags s loc Hwf) as [[-> ->]|[[-> ->]|[-> ->]]];
      split_and!; try tauto.
    + intros Hplay _ [Hw _]. apply andb_true_iff in Hplay as [Hplay _].
      rewrite Hw in Hplay. discriminate.
    + intros Hplay _ [_ Hl]. apply andb_true_iff in Hplay as [_ Hplay].
      rewrite Hl in Hplay. discriminate.
  - destruct (flag_tile_keeps s loc Hwf) as (_ & _ & -> & -> & _).
    tauto.
  - tauto.
  - tauto.
Qed.

Lemma run_flags_monotone ops : forall s,
  wf s ->
  (won s = true -> won (run ops s) = true) /\
  (lost s = true -> lost (run ops s) = true).
Proof.
  induction ops as [|o ops IH]; intros s Hwf.
  - split; intros H; exact H.
  - rewrite run_cons.
    destruct (after_flags s o Hwf) as (Hw & Hl & _).
    destruct (IH (after o s) (wf_after o s Hwf)) as [Hw' Hl'].
    split; auto.
Qed.

Lemma run_flags_exclusive ops : forall s,
  wf s -> sweeps_in_play ops s = true ->
  ~ (won s = true /\ lost s = true) ->
  ~ (won (run ops s) = true /\ lost (run ops s) = true).
Proof.
  induction ops as [|o ops IH]; intros s Hwf Hplay Hex.
  - exact Hex.
  - rewrite run_cons. simpl in Hplay.
    apply andb_true_iff in Hplay as [Ho Hrest].
    destruct (after_flags s o Hwf) as (_ & _ & Hstep).
    apply (IH (after o s) (wf_after o s Hwf) Hrest).
    apply Hstep; [|exact Hex]. destruct o; try exact I. exact Ho.
Qed.

(** C5 as stated fails: on a board with a single free cell, the sweep of
    that cell wins the game and a further sweep, of a mine, loses it; both
    flags are then up. *)
Lemma C5_won_then_lost :
  exists s0,
    new (Some all_but_first) [] = Ok s0 /\
    number_of_mines s0 = 63 /\
    won (run [Sweep (0, 0)] s0) = true /\
    lost (run [Sweep (0, 0)] s0) = false /\
    won (run [Sweep (0, 0); Sweep (0, 1)] s0) = true /\
    lost (run [Sweep (0, 0); Sweep (0, 1)] s0) = true.
Proof. eexists. split_and!; vm_compute; reflexivity. Qed.

(** C5, amended.  Along every run from a constructed instance a flag that
    is up stays up; and in a run where [sweep_tile] is only called while
    the game is neither won nor lost, [won] and [lost] are never both
    up. *)
Theorem C5_flags_terminal_and_exclusive_in_play locations sample s0 ops :
  new locations sample = Ok s0 ->
  (locations = None -> distinct_placement None sample) ->
  (forall more,
     (won (run ops s0) = true -> won (run (ops ++ more) s0) = true) /\
     (lost (run ops s0) = true -> lost (run (ops ++ more) s0) = true)) /\
  (sweeps_in_play ops s0 = true ->
   ~ (won (run ops s0) = true /\ lost (run ops s0) = true)).
Proof.
  intros Hnew Hsample.
  destruct (new_wf locations sample s0 Hnew Hsample)
    as (Hwf & Hw & Hl & _).
  split.
  - intros more. rewrite run_app.
    apply run_flags_monotone, wf_run, Hwf.
  - intros Hplay. apply (run_flags_exclusive ops s0 Hwf Hplay).
    rewrite Hw. intros [? _]. discriminate.
Qed.

(** The board of the test of [sweep_tile]: after the mine at [(1, 6)] is
    swept the game is lost, stays lost, and is not won. *)
Lemma C5_flags_terminal_and_exclusive_in_play_witness :
  exists s0,
    new (Some [loc_value (1, 6); loc_value (3, 1); loc_value (5, 1)]) []
      = Ok s0 /\
    lost (run [Sweep (4, 1); Sweep (1, 6)] s0) = true /\
    lost (run ([Sweep (4, 1); Sweep (1, 6)] ++ [ToggleFlag (0, 0); Sweep (0, 0)])
            s0) = true /\
    ~ (won (run [Sweep (4, 1); Sweep (1, 6)] s0) = true /\
       lost (run [Sweep (4, 1); Sweep (1, 6)] s0) = true).
Proof.
  eexists. split; [reflexivity|].
  match goal with
  | |- lost (run ?ops ?s0) = true /\ _ =>
      destruct (C5_flags_terminal_and_exclusive_in_play
                  (Some [loc_value (1, 6); loc_value (3, 1); loc_value (5, 1)])
                  [] s0 ops eq_refl) as [Hmono Hex]
  end.
  - intros H. discriminate H.
  - split_and!.
    + reflexivity.
    + apply (Hmono [ToggleFlag (0, 0); Sweep (0, 0)]). reflexivity.
    + apply Hex. reflexivity.
Defined.

(** ** Strings: [split] and [join] *)

Lemma split_not_nil sep s : split sep s <> [].
Proof.
  destruct s as [|c s']; simpl; [discriminate|].
  destruct (Ascii.eqb c sep); [discriminate|].
  destruct (split sep s'); discriminate.
Qed.

Lemma join_cons_cons sep a b rest :
  join sep (a :: b :: rest) = append a (String sep (join sep (b :: rest))).
Proof. reflexivity. Qed.

Lemma join_split sep s : join sep (split sep s) = s.
Proof.
  induction s as [|c s' IH]; [reflexivity|]. cbn [split].
  pose proof (split_not_nil sep s') as Hne.
  destruct (Ascii.eqb c sep) eqn:E.
  - apply Ascii.eqb_eq in E. subst c.
    destruct (split sep s') as [|t ts] eqn:Es; [congruence|].
    rewrite join_cons_cons, IH. reflexivity.
  - destruct (split sep s') as [|t ts] eqn:Es; [congruence|].
    destruct ts as [|t' ts'].
    + cbn [join] in *. rewrite IH. reflexivity.
    + rewrite join_cons_cons in *. rewrite <- IH. reflexivity.
Qed.

Lemma split_pieces sep s : Forall (fun tok => contains sep tok = false) (split sep s).
Proof.
  induction s as [|c s' IH]; simpl.
  - constructor; [reflexivity|constructor].
  - destruct (Ascii.eqb c sep) eqn:E.
    + constructor; [reflexivity|exact IH].
    + destruct (split sep s') as [|t ts].
      * constructor; [simpl; rewrite E; reflexivity|constructor].
      * inversion IH; subst. constructor; [simpl; rewrite E; assumption|assumption].
Qed.

Lemma split_no_sep sep a : contains sep a = false -> split sep a = [a].
Proof.
  induction a as [|c a' IH]; simpl; [reflexivity|].
  intros H. apply orb_false_iff in H as [E Ha]. rewrite E, (IH Ha). reflexivity.
Qed.

Lemma split_append sep a b :
  contains sep a = false ->
  split sep (append a (String sep b)) = a :: split sep b.
Proof.
  induction a as [|c a' IH]; simpl.
  - intros _. rewrite Ascii.eqb_refl. reflexivity.
  - intros H. apply orb_false_iff in H as [E Ha]. rewrite E, (IH Ha). reflexivity.
Qed.

Lemma length_split sep s : length (split sep s) = S (occurrences sep s).
Proof.
  induction s as [|c s' IH]; [reflexivity|]. simpl.
  destruct (Ascii.eqb c sep); simpl; [rewrite IH; reflexivity|].
  pose proof (split_not_nil sep s').
  destruct (split sep s'); [congruence|]. simpl in *. exact IH.
Qed.

(** [split] gives two pieces exactly on a string with one separator. *)
Lemma split_two sep s a b :
  split sep s = [a; b] <->
  s = append a (String sep b) /\ contains sep a = false /\ contains sep b = false.
Proof.
  split.
  - intros H. pose proof (join_split sep s) as Hj. rewrite H in Hj.
    pose proof (split_pieces sep s) as Hp. rewrite H in Hp.
    apply Forall_cons in Hp as [Ha Hp]. apply Forall_cons in Hp as [Hb _].
    cbn [join] in Hj. auto.
  - intros (-> & Ha & Hb). rewrite (split_append sep a b Ha), (split_no_sep sep b Hb).
    reflexivity.
Qed.

(** X1.  [split] and [join] are inverse on the side of [split]: joining
    the pieces with the separator gives the string back; there is one
    piece more than separators in the string, so never no piece; and no
    piece contains the separator. *)
Theorem X1_split_join sep s :
  join sep (split sep s) = s /\
  length (split sep s) = S (occurrences sep s) /\
  Forall (fun piece => contains sep piece = false) (split sep s).
Proof.
  split_and!.
  - apply join_split.
  - apply length_split.
  - apply split_pieces.
Qed.

(** ** [parse_coords] *)

Lemma parse_coords_run int u s :
  parse_coords int u s =
    (Ok match split " " u with
        | [a; b] =>
            match int a, int b with
            | Ok r, Ok c => if in_bounds s (r, c) then Some (r, c) else None
            | _, _ => None
            end
        | _ => None
        end, s).
Proof.
  unfold parse_coords.
  destruct (split " " u) as [|a [|b [|c rest]]]; try reflexivity.
  simpl. unfold try_except, bind, lift, list_item, bind_result. simpl.
  destruct (int a) as [r|e]; [|reflexivity].
  destruct (int b) as [c|e]; [|reflexivity].
  rewrite valid_location_pair.
  destruct (in_bounds s (r, c)); reflexivity.
Qed.

(** X2.  [parse_coords] never raises and leaves the instance alone.  It
    returns a location exactly when the string is two pieces around a
    single space, [int] accepts both, and the pair they give lies on the
    board; in every other case it returns [None]. *)
Theorem X2_parse_coords int u s :
  exists res,
    parse_coords int u s = (Ok res, s) /\
    forall loc,
      res = Some loc <->
      exists a b,
        u = append a (String " " b) /\
        contains " " a = false /\ contains " " b = false /\
        int a = Ok (fst loc) /\ int b = Ok (snd loc) /\
        in_bounds s loc = true.
Proof.
  eexists. split; [apply parse_coords_run|].
  intros [r c]. simpl. split.
  - intros H.
    destruct (split " " u) as [|a [|b [|x rest]]] eqn:Es; try discriminate.
    apply split_two in Es as (-> & Ha & Hb).
    destruct (int a) as [r'|] eqn:Ea; [|discriminate].
    destruct (int b) as [c'|] eqn:Eb; [|discriminate].
    destruct (in_bounds s (r', c')) eqn:Ein; [|discriminate].
    inversion H; subst. exists a, b.
    split_and!; try reflexivity; assumption.
  - intros (a & b & Hu & Ha & Hb & Ea & Eb & Hin).
    assert (split " " u = [a; b]) as -> by (apply split_two; auto).
    rewrite Ea, Eb, Hin. reflexivity.
Qed.

(** ** Two boards *)

Lemma new_test_board : new (Some test_locations) [] = Ok test_board.
Proof. vm_compute. reflexivity. Qed.

Lemma new_crowded_board : new (Some all_but_first) [] = Ok crowded_board.
Proof. vm_compute. reflexivity. Qed.

Lemma wf_test_board : wf test_board.
Proof. apply (new_wf _ _ _ new_test_board). discriminate. Qed.

Lemma wf_crowded_board : wf crowded_board.
Proof. apply (new_wf _ _ _ new_crowded_board). discriminate. Qed.

(** ** [clear_swept_flags] *)

Lemma zip_with_idem {A B} (f : A -> B -> B) l k :
  (forall a b, f a (f a b) = f a b) ->
  zip_with f l (zip_with f l k) = zip_with f l k.
Proof.
  intros Hf. revert k. induction l as [|a l IH]; intros [|b k]; simpl;
    try reflexivity.
  rewrite Hf, IH. reflexivity.
Qed.

Lemma mask_assign_idem {A} (m : list (list bool)) (v : A) a :
  mask_assign m v (mask_assign m v a) = mask_assign m v a.
Proof.
  unfold mask_assign. apply zip_with_idem. intros mrow row.
  apply zip_with_idem. intros b x. destruct b; reflexivity.
Qed.

(** X3.  [clear_swept_flags] never raises; it lowers the flag of every
    swept cell, keeps the flag of every other cell, and changes no other
    attribute; a second call changes nothing. *)
Theorem X3_clear_swept_flags s :
  exists s1,
    clear_swept_flags s = (Ok tt, s1) /\
    clear_swept_flags s1 = (Ok tt, s1) /\
    set_flagged (flagged s) s1 = s /\
    forall r c w f,
      cell (swept s) r c = Some w -> cell (flagged s) r c = Some f ->
      cell (flagged s1) r c = Some (if w =? 0 then f else 0).
Proof.
  eexists. split; [reflexivity|]. split_and!.
  - unfold clear_swept_flags, modify. simpl. f_equal.
    unfold set_flagged. simpl. f_equal. apply mask_assign_idem.
  - destruct s; reflexivity.
  - intros r c w f Hw Hf. simpl.
    rewrite cell_mask_assign. unfold nonzero_mask.
    rewrite cell_map, Hw, Hf. simpl. destruct (w =? 0); reflexivity.
Qed.

(** ** Sweeping a mine *)

Lemma sweep_tile_cells s loc :
  wf s -> in_bounds s loc = true ->
  exists old s',
    sweep_tile loc s = (Ok tt, s') /\
    getitem (grid s) loc = Ok old /\
    (forall r c,
       cell (grid s') r c =
         if decide (r = Z.to_nat (fst loc) /\ c = Z.to_nat (snd loc))
         then Some (revealed s loc old) else cell (grid s) r c) /\
    (forall r c,
       cell (swept s') r c =
         if decide (r = Z.to_nat (fst loc) /\ c = Z.to_nat (snd loc))
         then Some 1 else cell (swept s) r c) /\
    check_game_state (set_lost (lost s) (set_won (won s) s')) = (Ok tt, s') /\
    flagged s' = flagged s /\ quit s' = quit s /\
    number_of_mines s' = number_of_mines s /\
    rows s' = rows s /\ cols s' = cols s.
Proof.
  intros Hwf Hb.
  pose proof (resolve_in_bounds s loc Hwf Hb) as Hres.
  destruct (sweep_tile_ok s loc _ _ Hwf Hres)
    as (old & grow & srow & Hg & Ho & Hs & Hrun).
  set (r0 := Z.to_nat (fst loc)) in *. set (c0 := Z.to_nat (snd loc)) in *.
  set (s1 := set_grid _ _) in Hrun.
  exists old, (snd (check_game_state s1)).
  destruct (check_game_state_keeps s1) as (Eg & Ew & Ef & Eq & En & Er & Ec).
  pose proof (check_game_state_run s1) as Hcheck.
  assert ((c0 < length grow)%nat) as Hc.
  { rewrite (shape_row _ _ _ _ _ (wf_grid s Hwf) Hg).
    apply in_bounds_spec in Hb. unfold c0. lia. }
  assert ((c0 < length srow)%nat) as Hc'.
  { rewrite (shape_row _ _ _ _ _ (wf_swept s Hwf) Hs).
    apply in_bounds_spec in Hb. unfold c0. lia. }
  split_and!.
  - rewrite Hrun, Hcheck. reflexivity.
  - apply (getitem_resolved (grid s) _ _ loc r0 c0 grow old (wf_grid s Hwf)
             (rows_pos_nat s Hwf) Hres Hg Ho).
  - intros r c. rewrite Eg. unfold s1. simpl.
    apply cell_insert; assumption.
  - intros r c. rewrite Ew. unfold s1. simpl.
    apply cell_insert; assumption.
  - assert (set_lost (lost s) (set_won (won s) (snd (check_game_state s1)))
            = s1) as ->.
    { rewrite Hcheck. cbn [snd].
      destruct (any (eq_mask (grid s1) exploded)); [reflexivity|].
      destruct (negb (any (eq_mask (grid s1) unexplored))); reflexivity. }
    rewrite Hcheck. reflexivity.
  - rewrite Ef. reflexivity.
  - rewrite Eq. reflexivity.
  - rewrite En. reflexivity.
  - rewrite Er. reflexivity.
  - rewrite Ec. reflexivity.
Qed.

(** [sweep_tile] on the board, with its effect on the outcome flags. *)
Lemma sweep_tile_summary s loc :
  wf s -> in_bounds s loc = true ->
  exists old s',
    sweep_tile loc s = (Ok tt, s') /\
    getitem (grid s) loc = Ok old /\
    wf s' /\ rows s' = rows s /\ cols s' = cols s /\
    (forall q, in_bounds s q = true ->
       getitem (grid s') q =
         if decide (q = loc) then Ok (revealed s loc old)
         else getitem (grid s) q) /\
    (forall q, in_bounds s q = true ->
       getitem (swept s') q =
         if decide (q = loc) then Ok 1 else getitem (swept s) q) /\
    lost s' = (if any (eq_mask (grid s') exploded) then true else lost s) /\
    won s' = (if any (eq_mask (grid s') exploded) then won s
              else if any (eq_mask (grid s') unexplored) then won s
                   else true) /\
    flagged s' = flagged s /\ quit s' = quit s /\
    number_of_mines s' = number_of_mines s.
Proof.
  intros Hwf Hb.
  destruct (sweep_tile_cells s loc Hwf Hb)
    as (old & s' & Hrun & Hold & Hg & Hw & Hcheck & Ef & Eq & En & Er & Ec).
  exists old, s'.
  assert (wf s') as Hwf'.
  { replace s' with (snd (sweep_tile loc s)) by (rewrite Hrun; reflexivity).
    apply wf_sweep_tile, Hwf. }
  assert (forall q, in_bounds s q = true -> in_bounds s' q = true) as Hb'.
  { intros q Hq. unfold in_bounds. rewrite Er, Ec. exact Hq. }
  assert (forall {A} (a a' : list (list A)) (v : A),
            shape a (Z.to_nat (rows s)) (Z.to_nat (cols s)) ->
            shape a' (Z.to_nat (rows s)) (Z.to_nat (cols s)) ->
            (forall r c,
               cell a' r c =
                 if decide (r = Z.to_nat (fst loc) /\ c = Z.to_nat (snd loc))
                 then Some v else cell a r c) ->
            forall q, in_bounds s q = true ->
              getitem a' q = if decide (q = loc) then Ok v else getitem a q)
    as Hread.
  { intros A a a' v Hsa Hsa' Hcell q Hq.
    destruct (getitem_in_bounds a' s q Hwf Hsa' Hq) as (x & -> & Hx).
    destruct (getitem_in_bounds a s q Hwf Hsa Hq) as (y & -> & Hy).
    rewrite Hcell in Hx.
    apply in_bounds_spec in Hq. apply in_bounds_spec in Hb.
    destruct (decide (q = loc)) as [->|Hne].
    - rewrite decide_True in Hx by done. congruence.
    - rewrite decide_False in Hx.
      + congruence.
      + intros [E1 E2]. apply Hne.
        destruct q as [qr qc], loc as [lr lc]. simpl in *. f_equal; lia. }
  assert (shape (grid s') (Z.to_nat (rows s)) (Z.to_nat (cols s))) as Hsg
    by (rewrite <- Er, <- Ec; apply (wf_grid s' Hwf')).
  assert (shape (swept s') (Z.to_nat (rows s)) (Z.to_nat (cols s))) as Hsw
    by (rewrite <- Er, <- Ec; apply (wf_swept s' Hwf')).
  rewrite check_game_state_run in Hcheck. cbn [grid set_lost set_won] in Hcheck.
  split_and!; try assumption.
  - apply (Hread _ (grid s) (grid s') _ (wf_grid s Hwf) Hsg Hg).
  - apply (Hread _ (swept s) (swept s') _ (wf_swept s Hwf) Hsw Hw).
  - destruct (any (eq_mask (grid s') exploded)).
    + inversion Hcheck as [E]. rewrite <- E at 1. reflexivity.
    + destruct (negb (any (eq_mask (grid s') unexplored)));
        inversion Hcheck as [E]; rewrite <- E at 1; reflexivity.
  - destruct (any (eq_mask (grid s') exploded)).
    + inversion Hcheck as [E]. rewrite <- E at 1. reflexivity.
    + destruct (any (eq_mask (grid s') unexplored));
        inversion Hcheck as [E]; rewrite <- E at 1; reflexivity.
Qed.

Lemma holds_cell_on_board {A} (a : list (list A)) s q v :
  wf s -> shape a (Z.to_nat (rows s)) (Z.to_nat (cols s)) ->
  in_bounds s q = true -> getitem a q = Ok v ->
  exists r c, cell a r c = Some v.
Proof.
  intros Hwf Hs Hq Hg. apply (getitem_cell a s q v Hwf Hs Hq) in Hg. eauto.
Qed.

(** Every entry of an array of the shape of the board is read by
    [getitem] at a location of the board. *)
Lemma cell_on_board {A} (a : list (list A)) s r c v :
  wf s -> shape a (Z.to_nat (rows s)) (Z.to_nat (cols s)) ->
  cell a r c = Some v ->
  in_bounds s (Z.of_nat r, Z.of_nat c) = true /\
  getitem a (Z.of_nat r, Z.of_nat c) = Ok v.
Proof.
  intros Hwf Hs Hcell.
  destruct (cell_Some_lt a _ _ r c v Hs Hcell) as [Hr Hc].
  assert (in_bounds s (Z.of_nat r, Z.of_nat c) = true) as Hb
    by (apply in_bounds_spec; simpl; lia).
  split; [exact Hb|].
  apply (getitem_cell a s _ v Hwf Hs Hb). simpl. rewrite !Nat2Z.id. exact Hcell.
Qed.

(** X4.  On the board of a well-formed instance [sweep_tile] returns.  If
    the cell held a mine, the cell is exploded and [lost] is set, [won] is
    as it was.  If it did not and no cell of the board was exploded,
    [lost] is as it was. *)
Theorem X4_sweep_tile_loses_on_a_mine s loc :
  wf s -> in_bounds s loc = true ->
  exists old s',
    sweep_tile loc s = (Ok tt, s') /\
    getitem (grid s) loc = Ok old /\
    (old = mine ->
     getitem (grid s') loc = Ok exploded /\
     lost s' = true /\ won s' = won s) /\
    (old <> mine ->
     ~ (exists r c, cell (grid s) r c = Some exploded) ->
     lost s' = lost s).
Proof.
  intros Hwf Hb.
  destruct (sweep_tile_summary s loc Hwf Hb)
    as (old & s' & Hrun & Hold & Hwf' & Er & Ec & Hg & _ & Hl & Hw & _).
  exists old, s'. split_and!; try assumption.
  - intros ->.
    assert (getitem (grid s') loc = Ok exploded) as Hex.
    { rewrite (Hg loc Hb), decide_True by reflexivity. reflexivity. }
    assert (any (eq_mask (grid s') exploded) = true) as Hany.
    { apply any_eq_mask.
      apply (holds_cell_on_board (grid s') s loc exploded Hwf); try assumption.
      rewrite <- Er, <- Ec. apply (wf_grid s' Hwf'). }
    rewrite Hany in Hl, Hw. auto.
  - intros Hne Hnone.
    destruct (any (eq_mask (grid s') exploded)) eqn:Hany; [|exact Hl].
    exfalso. apply any_eq_mask in Hany as (r & c & Hcell).
    assert (shape (grid s') (Z.to_nat (rows s)) (Z.to_nat (cols s))) as Hsg
      by (rewrite <- Er, <- Ec; apply (wf_grid s' Hwf')).
    destruct (cell_on_board (grid s') s r c exploded Hwf Hsg Hcell)
      as [Hq Hget].
    rewrite (Hg _ Hq) in Hget.
    destruct (decide ((Z.of_nat r, Z.of_nat c) = loc)) as [E|E].
    + inversion Hget as [Hrev]. unfold revealed in Hrev.
      replace (old =? mine) with false in Hrev by (symmetry; apply Z.eqb_neq, Hne).
      pose proof (mines_around_bounds s loc Hwf). unfold exploded in Hrev. lia.
    + apply Hnone.
      apply (holds_cell_on_board (grid s) s _ exploded Hwf (wf_grid s Hwf) Hq Hget).
Qed.

(** The mine at [(1, 6)] of the board of the test of [sweep_tile]. *)
Lemma X4_sweep_tile_loses_on_a_mine_witness :
  exists s',
    sweep_tile (1, 6) test_board = (Ok tt, s') /\
    getitem (grid s') (1, 6) = Ok exploded /\ lost s' = true /\ won s' = false.
Proof.
  pose proof wf_test_board as Hwf.
  destruct (X4_sweep_tile_loses_on_a_mine test_board (1, 6) Hwf eq_refl)
    as (old & s' & Hrun & Hold & Hmine & _).
  exists s'. vm_compute in Hold. inversion Hold; subst old.
  destruct (Hmine eq_refl) as (H1 & H2 & H3).
  split_and!; [exact Hrun|exact H1|exact H2|rewrite H3; reflexivity].
Defined.

(** ** What every constructed instance looks like *)

Lemma setitem_Forall {A} (P : A -> Prop) (a a' : list (list A)) loc v :
  setitem a loc v = Ok a' -> Forall (Forall P) a -> P v -> Forall (Forall P) a'.
Proof.
  unfold setitem. intros Hset Ha Hv.
  destruct (norm_index (nrows a) (fst loc)) as [r|]; [|discriminate].
  destruct (norm_index (ncols a) (snd loc)) as [c|]; [|discriminate].
  destruct (a !! r) as [row|] eqn:Er; [|discriminate].
  inversion Hset; subst a'.
  apply Forall_insert; [exact Ha|].
  rewrite Forall_lookup in Ha.
  apply Forall_insert; [exact (Ha r row Er)|exact Hv].
Qed.

Lemma for_each_inv {A} (P : MineClicker -> Prop) (body : A -> M unit) xs :
  (forall x s, P s -> P (snd (body x s))) ->
  forall s, P s -> P (snd (for_each xs body s)).
Proof.
  intros Hbody. induction xs as [|x xs IH]; intros s Hs; simpl; [exact Hs|].
  unfold bind. pose proof (Hbody x s Hs) as Hx.
  destruct (body x s) as [[[]|e] s1]; simpl in *; [apply IH|]; exact Hx.
Qed.

Lemma laying_wf s : laying s -> wf s /\ rows s = 8 /\ cols s = 8.
Proof.
  intros (g & n & -> & Hsh & _). split_and!; try reflexivity.
  apply wf_set_number_of_mines, wf_set_grid; [apply wf_fresh|exact Hsh].
Qed.

Lemma laying_set_grid s g :
  laying s -> setitem (grid s) g.1 mine = Ok g.2 -> laying (set_grid g.2 s).
Proof.
  intros (g0 & n & -> & Hsh & Hall) Hset. simpl in Hset.
  exists g.2, n. split_and!.
  - reflexivity.
  - apply (setitem_shape g0 g.2 8 8 g.1 mine Hsh); [lia|exact Hset].
  - apply (setitem_Forall _ g0 g.2 g.1 mine Hset Hall). right. reflexivity.
Qed.

Lemma laying_place_sampled i s : laying s -> laying (snd (place_sampled i s)).
Proof.
  intros Hs. unfold place_sampled, bind, get, lift, modify.
  destruct (setitem (grid s) (i / cols s, i mod cols s) mine) as [g|e] eqn:E;
    simpl; [|exact Hs].
  apply (laying_set_grid s ((i / cols s, i mod cols s), g) Hs E).
Qed.

Lemma laying_place_if_valid v s : laying s -> laying (snd (place_if_valid v s)).
Proof.
  intros Hs. destruct (laying_wf s Hs) as (Hwf & Hr & Hc).
  destruct (place_if_valid_run v s Hwf Hr Hc)
    as [(e & ->)|[(-> & _)|(p & g & _ & _ & Hset & _ & ->)]]; simpl;
    try exact Hs.
  destruct (laying_set_grid s (p, g) Hs Hset) as (g' & n & E & Hsh & Hall).
  exists g', (number_of_mines s + 1). split_and!; try assumption.
  simpl in E. unfold set_number_of_mines, set_grid in *. simpl in *.
  inversion E. reflexivity.
Qed.

Lemma new_laying locations sample s0 :
  new locations sample = Ok s0 -> laying s0.
Proof.
  unfold new, __init__. intros Hnew.
  assert (forall n, laying (set_number_of_mines n fresh)) as Hstart.
  { intros n. exists (grid fresh), n. split_and!.
    - reflexivity.
    - apply (wf_grid fresh wf_fresh).
    - change (grid fresh) with (np_full 8 8 unexplored). unfold np_full.
      apply Forall_replicate, Forall_replicate. left. reflexivity. }
  destruct locations as [l|]; unfold bind, modify in Hnew.
  - pose proof (for_each_inv laying place_if_valid l
                  laying_place_if_valid _ (Hstart 0)) as H.
    destruct (for_each l place_if_valid (set_number_of_mines 0 fresh))
      as [[[]|e] s']; [|discriminate].
    inversion Hnew; subst. exact H.
  - pose proof (for_each_inv laying place_sampled sample
                  laying_place_sampled _ (Hstart 10)) as H.
    destruct (for_each sample place_sampled (set_number_of_mines 10 fresh))
      as [[[]|e] s']; [|discriminate].
    inversion Hnew; subst. exact H.
Qed.

(** ** The overlay of swept cells follows the grid *)








(** ** Where the constructor lays the mines *)

Lemma ndarray_ext {A} (a b : list (list A)) nr nc :
  shape a nr nc -> shape b nr nc ->
  (forall r c, cell a r c = cell b r c) -> a = b.
Proof.
  intros Ha Hb Hcell. apply list_eq. intros r.
  destruct (a !! r) as [ra|] eqn:Era, (b !! r) as [rb|] eqn:Erb.
  - f_equal. apply list_eq. intros c.
    pose proof (Hcell r c) as H. unfold cell in H. rewrite Era, Erb in H.
    exact H.
  - apply lookup_lt_Some in Era. apply lookup_ge_None in Erb.
    destruct Ha as [Ha _], Hb as [Hb _]. lia.
  - apply lookup_ge_None in Era. apply lookup_lt_Some in Erb.
    destruct Ha as [Ha _], Hb as [Hb _]. lia.
  - reflexivity.
Qed.

(** Two arrays of the shape of the board with the same reads are equal. *)
Lemma board_ext {A} (a b : list (list A)) s :
  wf s ->
  shape a (Z.to_nat (rows s)) (Z.to_nat (cols s)) ->
  shape b (Z.to_nat (rows s)) (Z.to_nat (cols s)) ->
  (forall q, in_bounds s q = true -> getitem a q = getitem b q) -> a = b.
Proof.
  intros Hwf Ha Hb Hread.
  apply (ndarray_ext a b _ _ Ha Hb). intros r c.
  destruct (cell a r c) as [v|] eqn:Ea.
  - destruct (cell_on_board a s r c v Hwf Ha Ea) as [Hq Hg].
    rewrite (Hread _ Hq) in Hg.
    apply (getitem_cell b s _ v Hwf Hb Hq) in Hg. simpl in Hg.
    rewrite !Nat2Z.id in Hg. congruence.
  - destruct (cell b r c) as [v|] eqn:Eb; [|reflexivity].
    destruct (cell_on_board b s r c v Hwf Hb Eb) as [Hq Hg].
    rewrite <- (Hread _ Hq) in Hg.
    apply (getitem_cell a s _ v Hwf Ha Hq) in Hg. simpl in Hg.
    rewrite !Nat2Z.id in Hg. congruence.
Qed.

Lemma valid_location_dims v s s' :
  rows s = rows s' -> cols s = cols s' ->
  fst (valid_location v s) = fst (valid_location v s').
Proof.
  intros Hr Hc. unfold valid_location, bind, get, py_or, lift, ret. simpl.
  rewrite Hr, Hc.
  destruct (unpack2 v) as [[row col]|e]; [|reflexivity].
  destruct (py_ge row (rows s')) as [[|]|]; try reflexivity.
  destruct (py_lt row 0) as [[|]|]; try reflexivity.
  destruct (py_ge col (cols s')) as [[|]|]; try reflexivity.
  destruct (py_lt col 0) as [[|]|]; reflexivity.
Qed.

(** A round of the loop over an explicit list raises when
    [valid_location] does, and when numpy is handed a float. *)
Lemma place_if_valid_returns v s :
  laying s ->
  fst (place_if_valid v s) =
    match fst (valid_location v fresh) with
    | Ok true => if holds_float v then Raise IndexError else Ok tt
    | Ok false => Ok tt
    | Raise e => Raise e
    end.
Proof.
  intros Hlay. destruct (laying_wf s Hlay) as (Hwf & Hr & Hc).
  rewrite <- (valid_location_dims v s fresh Hr Hc).
  pose proof (valid_location_state v s) as Hst.
  unfold place_if_valid, bind.
  destruct (valid_location v s) as [[[|]|e'] s1] eqn:E; simpl in Hst;
    subst s1; cbn [fst]; [|reflexivity|reflexivity].
  destruct (valid_location_true v s) as [(p & -> & Hb)|[Hf Hidx]];
    [rewrite E; reflexivity| |].
  - destruct (setitem_ok (grid s) _ _ p mine (wf_grid s Hwf)
                (rows_pos_nat s Hwf) _ _ (resolve_in_bounds s p Hwf Hb))
      as (g & old & row & Hset & _).
    unfold get, lift, modify. destruct p as [pr pc]. simpl in *.
    rewrite Hset. reflexivity.
  - rewrite Hf. unfold get, lift. rewrite Hidx. reflexivity.
Qed.

Lemma explicit_loop_returns locations : forall s,
  laying s ->
  (exists s', for_each locations place_if_valid s = (Ok tt, s')) <->
  Forall (fun v => fst (valid_location v fresh) = Ok false \/
                   fst (valid_location v fresh) = Ok true /\
                   holds_float v = false) locations.
Proof.
  induction locations as [|v rest IH]; intros s Hlay.
  - split; [constructor|]. intros _. eexists. reflexivity.
  - pose proof (place_if_valid_returns v s Hlay) as Hfst.
    pose proof (laying_place_if_valid v s Hlay) as Hlay'.
    simpl. unfold bind.
    destruct (place_if_valid v s) as [[[]|e] s1]; simpl in *.
    + rewrite (IH s1 Hlay'). split.
      * intros H. constructor; [|exact H].
        destruct (fst (valid_location v fresh)) as [[|]|];
          [|left; reflexivity|discriminate].
        destruct (holds_float v); [discriminate|right; auto].
      * intros H. apply Forall_cons in H as [_ H]. exact H.
    + split; [intros (s' & H); discriminate|].
      intros H. apply Forall_cons in H as [[Hv|[Hv Hf]] _];
        rewrite Hv in Hfst; [discriminate|].
      rewrite Hf in Hfst. discriminate.
Qed.

(** The exception of the loop is the one of the first entry it does not
    get past. *)
Lemma explicit_loop_raises locations : forall s e s',
  laying s -> for_each locations place_if_valid s = (Raise e, s') ->
  exists before v after,
    locations = before ++ v :: after /\
    Forall (fun v => fst (valid_location v fresh) = Ok false \/
                     fst (valid_location v fresh) = Ok true /\
                     holds_float v = false) before /\
    (fst (valid_location v fresh) = Raise TypeError /\ e = TypeError \/
     fst (valid_location v fresh) = Ok true /\ holds_float v = true /\
     e = IndexError).
Proof.
  induction locations as [|v rest IH]; intros s e s' Hlay Hrun.
  - discriminate.
  - pose proof (place_if_valid_returns v s Hlay) as Hfst.
    pose proof (laying_place_if_valid v s Hlay) as Hlay'.
    simpl in Hrun. unfold bind in Hrun.
    destruct (place_if_valid v s) as [[[]|e1] s1]; simpl in *.
    + destruct (IH s1 e s' Hlay' Hrun)
        as (before & w & after & -> & Hall & Hw).
      exists (v :: before), w, after. split_and!; [reflexivity| |exact Hw].
      constructor; [|exact Hall].
      destruct (fst (valid_location v fresh)) as [[|]|];
        [|left; reflexivity|discriminate].
      destruct (holds_float v); [discriminate|right; auto].
    + inversion Hrun; subst e1 s1.
      exists [], v, rest. split_and!; [reflexivity|constructor|].
      destruct (fst (valid_location v fresh)) as [[|]|e2] eqn:E.
      * destruct (holds_float v); [|discriminate].
        inversion Hfst. right. auto.
      * discriminate.
      * pose proof (proj1 (valid_location_raises v fresh e2 E)) as He.
        inversion Hfst. subst. left. auto.
Qed.

Lemma laying_start n : laying (set_number_of_mines n fresh).
Proof.
  exists (grid fresh), n.
  split_and!; [reflexivity|apply (wf_grid fresh wf_fresh)|].
  change (grid fresh) with (np_full 8 8 unexplored). unfold np_full.
  apply Forall_replicate, Forall_replicate. left. reflexivity.
Qed.

Lemma new_explicit_returns locations sample :
  (exists s0, new (Some locations) sample = Ok s0) <->
  Forall (fun v => fst (valid_location v fresh) = Ok false \/
                   fst (valid_location v fresh) = Ok true /\
                   holds_float v = false) locations.
Proof.
  pose proof (explicit_loop_returns locations _ (laying_start 0)) as Hiff.
  unfold new, __init__, bind, modify. rewrite <- Hiff. split.
  - intros (s0 & H).
    destruct (for_each locations place_if_valid (set_number_of_mines 0 fresh))
      as [[[]|e] s']; [eauto|discriminate].
  - intros (s' & ->). eauto.
Qed.

(** The constructor returns for a list of pairs of integers. *)
Lemma new_of_pairs_returns (pairs : list (Z * Z)) sample :
  exists s0, new (Some (loc_value <$> pairs)) sample = Ok s0.
Proof.
  apply new_explicit_returns. apply Forall_fmap, Forall_forall.
  intros p _. cbn [compose]. rewrite valid_location_pair. cbn [fst].
  destruct (in_bounds fresh p); [right|left]; auto.
Qed.

(** X6.  The constructor on a list of [None], integers, floats, strings
    and tuples of these.  It returns an instance for exactly the lists of
    which [valid_location] answers every entry, and answers [True] for no
    tuple that holds a float.  When it does not return, the exception is
    that of the first entry that is not so: the [TypeError] of
    [valid_location], or the [IndexError] of numpy for the float. *)
Theorem X6_constructor_returns locations sample :
  ((exists s0, new (Some locations) sample = Ok s0) <->
   Forall (fun v => fst (valid_location v fresh) = Ok false \/
                    fst (valid_location v fresh) = Ok true /\
                    holds_float v = false) locations)
  /\
  (forall e, new (Some locations) sample = Raise e ->
     exists before v after,
       locations = before ++ v :: after /\
       (exists s1, new (Some before) sample = Ok s1) /\
       (fst (valid_location v fresh) = Raise TypeError /\ e = TypeError \/
        fst (valid_location v fresh) = Ok true /\ holds_float v = true /\
        e = IndexError)).
Proof.
  split; [apply new_explicit_returns|].
  intros e H. unfold new, __init__, bind, modify in H.
  destruct (for_each locations place_if_valid (set_number_of_mines 0 fresh))
    as [[[]|e'] s'] eqn:Hrun; [discriminate|].
  inversion H; subst.
  destruct (explicit_loop_raises locations _ e s' (laying_start 0) Hrun)
    as (before & v & after & Hl & Hall & Hv).
  exists before, v, after. split_and!; [exact Hl| |exact Hv].
  apply new_explicit_returns, Hall.
Qed.

(** The test list of the constructor, on which it returns: an entry off
    the board and a string of seven characters are answered [False]; and
    the same list after a tuple with a float on the board, which
    [valid_location] answers [True] and numpy refuses. *)
Lemma X6_constructor_returns_witness :
  (exists s0,
     new (Some [loc_value (0, 1); loc_value (-1, -1); PyStr "waffles"]) []
       = Ok s0) /\
  new (Some [PyTuple [PyFloat (FNum 3 (-1)); PyInt 2];
             loc_value (0, 1); loc_value (-1, -1); PyStr "waffles"]) []
    = Raise IndexError.
Proof.
  split.
  - apply (proj1 (X6_constructor_returns
                    [loc_value (0, 1); loc_value (-1, -1); PyStr "waffles"]
                    [])).
    constructor; [right; split; reflexivity|].
    constructor; [left; reflexivity|].
    constructor; [left; reflexivity|].
    constructor.
  - destruct (proj2 (X6_constructor_returns
                      [PyTuple [PyFloat (FNum 3 (-1)); PyInt 2];
                       loc_value (0, 1); loc_value (-1, -1);
                       PyStr "waffles"] []) IndexError eq_refl)
      as (before & v & after & _).
    reflexivity.
Defined.

Lemma bool_decide_elem_of_cons {A} `{EqDecision A} (x y : A) (l : list A) :
  bool_decide (x ∈ y :: l) = bool_decide (x = y) || bool_decide (x ∈ l).
Proof.
  destruct (decide (x = y)) as [->|Hne].
  - rewrite (bool_decide_eq_true_2 (y = y)) by reflexivity. simpl.
    apply bool_decide_eq_true_2, elem_of_cons. left. reflexivity.
  - rewrite (bool_decide_eq_false_2 (x = y)) by exact Hne. simpl.
    apply bool_decide_ext. rewrite elem_of_cons. tauto.
Qed.

Lemma explicit_loop_cells locations : forall s s',
  laying s ->
  for_each locations place_if_valid s = (Ok tt, s') ->
  forall q, in_bounds fresh q = true ->
    getitem (grid s') q =
      if bool_decide (q ∈ valid_locations locations) then Ok mine
      else getitem (grid s) q.
Proof.
  induction locations as [|v rest IH]; intros s s' Hlay Hrun q Hq.
  - inversion Hrun; subst. rewrite bool_decide_eq_false_2; [reflexivity|].
    unfold valid_locations. simpl. apply not_elem_of_nil.
  - destruct (laying_wf s Hlay) as (Hwf & Hr & Hc).
    pose proof (laying_place_if_valid v s Hlay) as Hlay'.
    simpl in Hrun. unfold bind in Hrun.
    destruct (place_if_valid_run v s Hwf Hr Hc)
      as [(e & Hstep)|[(Hstep & Hval)|(p & g & -> & Hb & Hset & Hval & Hstep)]];
      rewrite Hstep in Hlay', Hrun; simpl in Hlay'.
    + discriminate.
    + rewrite Hval. apply (IH s s' Hlay Hrun q Hq).
    + rewrite Hval, (IH _ s' Hlay' Hrun q Hq). simpl grid.
      apply in_bounds_spec in Hq as Hq'. simpl in Hq'.
      pose proof Hb as Hb'. apply in_bounds_spec in Hb'. rewrite Hr, Hc in Hb'.
      pose proof (wf_grid s Hwf) as Hsh. rewrite Hr, Hc in Hsh.
      assert (getitem g q = if decide (q = p) then Ok mine
                            else getitem (grid s) q) as ->.
      { apply (getitem_setitem (grid s) g 8 8 p q mine Hsh); try lia.
        exact Hset. }
      rewrite bool_decide_elem_of_cons.
      destruct (decide (q = p)) as [->|Hne].
      * rewrite (bool_decide_eq_true_2 (p = p)) by reflexivity.
        destruct (bool_decide (p ∈ valid_locations rest)); reflexivity.
      * rewrite (bool_decide_eq_false_2 (q = p)) by exact Hne.
        reflexivity.
Qed.

Lemma valid_locations_of_pairs ps :
  Forall (fun p => in_bounds fresh p = true) ps ->
  valid_locations (loc_value <$> ps) = ps.
Proof.
  induction 1 as [|p ps Hp _ IH]; [reflexivity|].
  rewrite fmap_cons, (valid_locations_cons_valid p _ Hp), IH. reflexivity.
Qed.

Lemma count_cells_ext (P Q : Z -> bool) (a : list (list Z)) :
  Forall (Forall (fun v => P v = Q v)) a -> count_cells P a = count_cells Q a.
Proof.
  intros Hall. unfold count_cells. f_equal. f_equal.
  assert (Forall (fun v => P v = Q v) (concat a)) as Hc.
  { induction Hall as [|row a Hrow _ IH]; simpl; [constructor|].
    apply Forall_app. split; assumption. }
  induction Hc as [|v l Hv _ IH]; [reflexivity|].
  rewrite !filter_cons. rewrite IH.
  destruct (decide (P v)) as [H|H], (decide (Q v)) as [H'|H'];
    try reflexivity; exfalso; rewrite Hv in H; auto.
Qed.

Lemma laying_count_mines s :
  laying s ->
  count_cells is_mine (grid s) = count_cells is_mine_or_exploded (grid s).
Proof.
  intros (g & n & -> & _ & Hall). simpl. apply count_cells_ext.
  eapply Forall_impl; [exact Hall|]. intros row Hrow.
  eapply Forall_impl; [exact Hrow|]. intros v [-> | ->]; reflexivity.
Qed.

(** The grid the constructor builds from an explicit list. *)
Lemma new_explicit_cells locations sample s0 :
  new (Some locations) sample = Ok s0 ->
  forall q, in_bounds fresh q = true ->
    getitem (grid s0) q =
      Ok (if bool_decide (q ∈ valid_locations locations) then mine
          else unexplored).
Proof.
  intros Hnew q Hq. unfold new, __init__, bind, modify in Hnew.
  destruct (for_each locations place_if_valid (set_number_of_mines 0 fresh))
    as [[[]|e] s'] eqn:Hrun; [|discriminate].
  inversion Hnew; subst s'.
  rewrite (explicit_loop_cells locations _ s0 (laying_start 0) Hrun q Hq).
  change (grid (set_number_of_mines 0 fresh)) with (grid fresh).
  rewrite (getitem_fresh q Hq).
  destruct (bool_decide (q ∈ valid_locations locations)); reflexivity.
Qed.

Lemma new_explicit_mined locations sample s0 :
  new (Some locations) sample = Ok s0 ->
  count_cells is_mine (grid s0) =
    Z.of_nat (length (remove_dups (valid_locations locations))).
Proof.
  intros Hnew.
  set (ps := remove_dups (valid_locations locations)).
  assert (Forall (fun p => in_bounds fresh p = true) ps) as Hps.
  { apply Forall_forall. intros p Hp. unfold ps in Hp.
    rewrite elem_of_remove_dups in Hp.
    exact (valid_locations_in_bounds _ _ Hp). }
  (* the same grid is built from the list without its repetitions *)
  destruct (new_of_pairs_returns ps sample) as (s1 & Hnew1).
  pose proof (new_laying _ _ _ Hnew) as Hlay.
  pose proof (new_laying _ _ _ Hnew1) as Hlay1.
  destruct (laying_wf s0 Hlay) as (Hwf & Hr & Hc).
  destruct (laying_wf s1 Hlay1) as (Hwf1 & Hr1 & Hc1).
  assert (grid s0 = grid s1) as ->.
  { apply (board_ext (grid s0) (grid s1) s0 Hwf (wf_grid s0 Hwf)).
    - pose proof (wf_grid s1 Hwf1) as Hsh1.
      rewrite Hr1, Hc1 in Hsh1. rewrite Hr, Hc. exact Hsh1.
    - intros q Hq. rewrite (in_bounds_fresh s0 q Hr Hc) in Hq.
      rewrite (new_explicit_cells _ _ _ Hnew q Hq).
      rewrite (new_explicit_cells _ _ _ Hnew1 q Hq).
      rewrite (valid_locations_of_pairs ps Hps).
      rewrite (bool_decide_ext (q ∈ ps) (q ∈ valid_locations locations))
        by (unfold ps; apply elem_of_remove_dups).
      reflexivity. }
  rewrite (laying_count_mines s1 Hlay1).
  destruct (new_explicit _ _ _ Hnew1) as (g & Es1 & _ & Hcount).
  rewrite Hcount.
  - rewrite Es1. simpl. rewrite (valid_locations_of_pairs ps Hps).
    reflexivity.
  - rewrite (valid_locations_of_pairs ps Hps). apply NoDup_remove_dups.
Qed.

(** X7.  When the constructor returns for an explicit list of [None],
    integers, floats, strings and tuples of these, the entries that
    [valid_location] answers [True] are the pairs of integers of the
    board in the list; the counter is their number, each repetition
    counted; the cell of the board at every one of them holds a mine and
    every other cell is unexplored; and the number of mined cells is the
    number of distinct ones. *)
Theorem X7_constructor_explicit locations sample s0 :
  new (Some locations) sample = Ok s0 ->
  (forall v, v ∈ locations ->
     fst (valid_location v fresh) = Ok true <->
     exists p, v = loc_value p /\ p ∈ valid_locations locations) /\
  number_of_mines s0 = Z.of_nat (length (valid_locations locations)) /\
  (forall q, in_bounds fresh q = true ->
     getitem (grid s0) q =
       Ok (if bool_decide (q ∈ valid_locations locations) then mine
           else unexplored)) /\
  count_cells is_mine (grid s0) =
    Z.of_nat (length (remove_dups (valid_locations locations))) /\
  flagged s0 = flagged fresh /\ swept s0 = swept fresh /\
  won s0 = false /\ lost s0 = false /\ quit s0 = false.
Proof.
  intros Hnew. split_and!.
  - intros v Hv. split.
    + intros Htrue.
      pose proof (proj1 (new_explicit_returns locations sample)
                    (ex_intro _ s0 Hnew)) as Hall.
      rewrite Forall_forall in Hall.
      destruct (Hall v Hv) as [Hfalse|[_ Hf]]; [congruence|].
      destruct (valid_location_true v fresh Htrue)
        as [(p & -> & Hb)|[Hf' _]]; [|congruence].
      exists p. split; [reflexivity|].
      unfold valid_locations. apply list_elem_of_omap.
      exists (loc_value p). split; [exact Hv|].
      destruct p as [r c]. simpl in *. rewrite Hb. reflexivity.
    + intros (p & -> & Hp). rewrite valid_location_pair. cbn [fst].
      rewrite (valid_locations_in_bounds _ _ Hp). reflexivity.
  - apply (new_counts_every_valid_entry _ _ _ Hnew).
  - apply (new_explicit_cells _ _ _ Hnew).
  - apply (new_explicit_mined _ _ _ Hnew).
  - destruct (new_laying _ _ _ Hnew) as (g & n & -> & _). reflexivity.
  - destruct (new_laying _ _ _ Hnew) as (g & n & -> & _). reflexivity.
  - destruct (new_laying _ _ _ Hnew) as (g & n & -> & _). reflexivity.
  - destruct (new_laying _ _ _ Hnew) as (g & n & -> & _). reflexivity.
  - destruct (new_laying _ _ _ Hnew) as (g & n & -> & _). reflexivity.
Qed.

(** The list of the test of the constructor, with one entry repeated. *)
Lemma X7_constructor_explicit_witness :
  exists s0,
    new (Some [loc_value (0, 1); loc_value (4, 5); loc_value (0, 1);
               loc_value (-1, -1); PyStr "waffles"]) [] = Ok s0 /\
    number_of_mines s0 = 3 /\
    count_cells is_mine (grid s0) = 2 /\
    getitem (grid s0) (4, 5) = Ok mine /\
    getitem (grid s0) (5, 4) = Ok unexplored.
Proof.
  eexists. split; [reflexivity|].
  destruct (X7_constructor_explicit
              [loc_value (0, 1); loc_value (4, 5); loc_value (0, 1);
               loc_value (-1, -1); PyStr "waffles"] [] _ eq_refl)
    as (_ & Hn & Hcells & Hcount & _).
  split_and!.
  - exact Hn.
  - exact Hcount.
  - apply (Hcells (4, 5) eq_refl).
  - apply (Hcells (5, 4) eq_refl).
Defined.

Lemma sampled_loop_cells sample : forall s,
  laying s ->
  (forall i, i ∈ sample -> 0 <= i < 64) ->
  exists s',
    for_each sample place_sampled s = (Ok tt, s') /\
    laying s' /\ number_of_mines s' = number_of_mines s /\
    forall q, in_bounds fresh q = true ->
      getitem (grid s') q =
        if bool_decide (q ∈ sampled_locations sample) then Ok mine
        else getitem (grid s) q.
Proof.
  induction sample as [|i rest IH]; intros s Hlay Hrange.
  - exists s. split; [reflexivity|]. split; [exact Hlay|].
    split; [reflexivity|].
    intros q _. rewrite bool_decide_eq_false_2; [reflexivity|].
    apply not_elem_of_nil.
  - destruct (laying_wf s Hlay) as (Hwf & Hr & Hc).
    assert (0 <= i < 64) as Hi by (apply Hrange; left).
    pose proof (divmod_in_bounds i Hi) as Hbf.
    assert (in_bounds s (i / 8, i mod 8) = true) as Hb
      by (rewrite (in_bounds_fresh s _ Hr Hc); exact Hbf).
    destruct (setitem_ok (grid s) _ _ (i / 8, i mod 8) mine (wf_grid s Hwf)
                (rows_pos_nat s Hwf) _ _ (resolve_in_bounds s _ Hwf Hb))
      as (g & old & row & Hset & _).
    pose proof (laying_set_grid s ((i / 8, i mod 8), g) Hlay Hset) as Hlay1.
    simpl in Hlay1.
    destruct (IH (set_grid g s) Hlay1) as (s' & Hrun & Hlay' & Hn & Hcells).
    { intros j Hj. apply Hrange. right. exact Hj. }
    exists s'. split_and!; try assumption.
    + simpl. unfold bind. unfold place_sampled at 1.
      unfold bind, get, lift, modify. rewrite Hc, Hset. exact Hrun.
    + intros q Hq. rewrite (Hcells q Hq). simpl grid.
      apply in_bounds_spec in Hq as Hq'. simpl in Hq'.
      apply in_bounds_spec in Hbf as Hb'. simpl in Hb'.
      pose proof (wf_grid s Hwf) as Hsh. rewrite Hr, Hc in Hsh.
      assert (getitem g q = if decide (q = (i / 8, i mod 8)) then Ok mine
                            else getitem (grid s) q) as ->.
      { apply (getitem_setitem (grid s) g 8 8 _ q mine Hsh); simpl; try lia.
        exact Hset. }
      unfold sampled_locations. rewrite fmap_cons.
      rewrite bool_decide_elem_of_cons.
      change (cols fresh) with 8.
      destruct (decide (q = (i / 8, i mod 8))) as [->|Hne].
      * rewrite (bool_decide_eq_true_2 (_ = _)) by reflexivity.
        destruct (bool_decide _); reflexivity.
      * rewrite (bool_decide_eq_false_2 (q = _)) by exact Hne.
        reflexivity.
Qed.

(** X8.  For ten distinct indices of [range(64)] the constructor without
    a list returns an instance that counts 10 mines and has 10 mined cells:
    the cell [divmod(i, 8)] of every index [i] of the sample holds a mine,
    every other cell is unexplored, nothing is flagged or swept and no
    outcome flag is up. *)
Theorem X8_constructor_random sample :
  distinct_placement None sample ->
  exists s0,
    new None sample = Ok s0 /\
    number_of_mines s0 = 10 /\
    count_cells is_mine (grid s0) = 10 /\
    (forall q, in_bounds fresh q = true ->
       getitem (grid s0) q =
         Ok (if bool_decide (q ∈ sampled_locations sample) then mine
             else unexplored)) /\
    flagged s0 = flagged fresh /\ swept s0 = swept fresh /\
    won s0 = false /\ lost s0 = false /\ quit s0 = false.
Proof.
  intros Hplace. pose proof Hplace as (Hnd & Hlen & Hrange).
  destruct (sampled_loop_cells sample _ (laying_start 10))
    as (s0 & Hrun & Hlay & Hn & Hcells).
  { intros i Hi. pose proof (Hrange i Hi) as H. simpl in H. lia. }
  assert (new None sample = Ok s0) as Hnew
    by (unfold new, __init__, bind, modify; rewrite Hrun; reflexivity).
  exists s0. split_and!.
  - exact Hnew.
  - rewrite Hn. reflexivity.
  - rewrite (laying_count_mines s0 Hlay).
    destruct (new_random sample Hplace) as (g & Hnew' & _ & Hcount).
    rewrite Hnew' in Hnew. inversion Hnew; subst s0. exact Hcount.
  - intros q Hq. rewrite (Hcells q Hq).
    change (grid (set_number_of_mines 10 fresh)) with (grid fresh).
    rewrite (getitem_fresh q Hq). destruct (bool_decide _); reflexivity.
  - destruct Hlay as (g & n & -> & _). reflexivity.
  - destruct Hlay as (g & n & -> & _). reflexivity.
  - destruct Hlay as (g & n & -> & _). reflexivity.
  - destruct Hlay as (g & n & -> & _). reflexivity.
  - destruct Hlay as (g & n & -> & _). reflexivity.
Qed.

(** A sample along the diagonal and the start of the first row. *)
Lemma X8_constructor_random_witness :
  exists s0,
    new None [0; 9; 18; 27; 36; 45; 54; 63; 1; 2] = Ok s0 /\
    count_cells is_mine (grid s0) = 10 /\
    getitem (grid s0) (3, 3) = Ok mine /\
    getitem (grid s0) (3, 4) = Ok unexplored.
Proof.
  destruct (X8_constructor_random [0; 9; 18; 27; 36; 45; 54; 63; 1; 2])
    as (s0 & Hnew & _ & Hcount & Hcells & _).
  - split_and!.
    + apply (bool_decide_unpack _). vm_compute. exact I.
    + reflexivity.
    + intros i Hi. simpl.
      repeat (apply elem_of_cons in Hi as [->|Hi]; [lia|]).
      apply elem_of_nil in Hi. destruct Hi.
  - exists s0. split_and!.
    + exact Hnew.
    + exact Hcount.
    + apply (Hcells (3, 3) eq_refl).
    + apply (Hcells (3, 4) eq_refl).
Defined.

(** ** [sum_adjacent_mines] at the border *)

Lemma length_filter_cons_bool {A} (f : A -> bool) x l :
  length (filter (fun p => f p) (x :: l)) =
    ((if f x then 1 else 0) + length (filter (fun p => f p) l))%nat.
Proof.
  destruct (f x) eqn:E.
  - rewrite filter_cons_True by (cbv beta; rewrite E; exact I). reflexivity.
  - rewrite filter_cons_False by (cbv beta; rewrite E; exact id). reflexivity.
Qed.

Lemma length_filter_andb_le {A} (f g : A -> bool) l :
  (length (filter (fun p => f p && g p) l) <=
   length (filter (fun p => f p) l))%nat.
Proof.
  induction l as [|x l IH]; [reflexivity|].
  rewrite (length_filter_cons_bool (fun p => f p && g p)),
          (length_filter_cons_bool f).
  destruct (f x), (g x); simpl; lia.
Qed.

Lemma in_bounds_split s r c :
  in_bounds s (r, c) =
    ((0 <=? r) && (r <? rows s)) && ((0 <=? c) && (c <? cols s)).
Proof. unfold in_bounds. simpl. rewrite <- !andb_assoc. reflexivity. Qed.

(** The candidates around a location that lie on the board: at most 5
    next to a border, at most 3 in a corner. *)
Lemma neighbours_on_board_count s loc :
  let n := length (filter (fun p => in_bounds s p) (adjacent_locations loc)) in
  (n <= 8)%nat /\
  (fst loc <= 0 \/ rows s - 1 <= fst loc \/
   snd loc <= 0 \/ cols s - 1 <= snd loc -> (n <= 5)%nat) /\
  ((fst loc <= 0 \/ rows s - 1 <= fst loc) /\
   (snd loc <= 0 \/ cols s - 1 <= snd loc) -> (n <= 3)%nat).
Proof.
  destruct loc as [r c]. cbv zeta. unfold adjacent_locations. simpl fst. simpl snd.
  rewrite !(length_filter_cons_bool (in_bounds s)), filter_nil.
  rewrite !in_bounds_split.
  assert (r <= 0 -> (0 <=? r - 1) && (r - 1 <? rows s) = false) as Hr1
    by (intros; apply andb_false_iff; lia).
  assert (rows s - 1 <= r -> (0 <=? r + 1) && (r + 1 <? rows s) = false) as Hr2
    by (intros; apply andb_false_iff; lia).
  assert (c <= 0 -> (0 <=? c - 1) && (c - 1 <? cols s) = false) as Hc1
    by (intros; apply andb_false_iff; lia).
  assert (cols s - 1 <= c -> (0 <=? c + 1) && (c + 1 <? cols s) = false) as Hc2
    by (intros; apply andb_false_iff; lia).
  destruct ((0 <=? r - 1) && (r - 1 <? rows s)),
           ((0 <=? r + 1) && (r + 1 <? rows s)),
           ((0 <=? r) && (r <? rows s)),
           ((0 <=? c - 1) && (c - 1 <? cols s)),
           ((0 <=? c + 1) && (c + 1 <? cols s)),
           ((0 <=? c) && (c <? cols s)); simpl;
    (split; [lia|split; intros H]);
    try lia;
    try (destruct H as [H|[H|[H|H]]];
         first [specialize (Hr1 H)|specialize (Hr2 H)
               |specialize (Hc1 H)|specialize (Hc2 H)]; discriminate);
    try (destruct H as [[H|H] [H'|H']];
         first [specialize (Hr1 H)|specialize (Hr2 H)]; 
         first [specialize (Hc1 H')|specialize (Hc2 H')]; discriminate).
Qed.

(** X9.  On a well-formed instance [sum_adjacent_mines] returns at every
    pair of integers, on the board or not, and leaves the instance alone;
    its value is the number of board cells around the location that hold a
    mine: at most 8, at most 5 on or beyond a border of the board and at
    most 3 in or beyond a corner. *)
Theorem X9_sum_adjacent_mines s loc :
  wf s ->
  exists n,
    sum_adjacent_mines loc s = (Ok n, s) /\
    n = mines_around s loc /\ 0 <= n <= 8 /\
    (fst loc <= 0 \/ rows s - 1 <= fst loc \/
     snd loc <= 0 \/ cols s - 1 <= snd loc -> n <= 5) /\
    ((fst loc <= 0 \/ rows s - 1 <= fst loc) /\
     (snd loc <= 0 \/ cols s - 1 <= snd loc) -> n <= 3).
Proof.
  intros Hwf. exists (mines_around s loc).
  pose proof (sum_adjacent_mines_mines_around s loc Hwf) as Hrun.
  pose proof Hrun as Hspec. rewrite (sum_adjacent_mines_spec s loc Hwf) in Hspec.
  assert (mines_around s loc =
          Z.of_nat (length (filter (fun p => in_bounds s p && holds_mine s p)
                              (adjacent_locations loc)))) as E by congruence.
  pose proof (length_filter_andb_le (in_bounds s) (holds_mine s)
                (adjacent_locations loc)) as Hle.
  destruct (neighbours_on_board_count s loc) as (H8 & H5 & H3).
  split_and!; try assumption; try reflexivity; lia.
Qed.

(** The corner [(0, 0)] of a board whose every other cell is mined. *)
Lemma X9_sum_adjacent_mines_witness :
  sum_adjacent_mines (0, 0) crowded_board = (Ok 3, crowded_board).
Proof.
  pose proof wf_crowded_board as Hwf.
  destruct (X9_sum_adjacent_mines crowded_board (0, 0) Hwf)
    as (n & Hrun & Hn & _).
  rewrite Hrun, Hn. vm_compute. reflexivity.
Defined.

(** ** [sweep_tile] and [flag_tile] off the board *)

(** X10.  On a well-formed instance [sweep_tile] raises, and changes
    nothing, at every location whose row is outside [-rows, rows) or whose
    column is outside [-cols, cols): the write to [swept], the first
    statement, is the one that fails.  The exception is the one of numpy:
    an [IndexError] when both indices are C integers of 64 bits, an
    [OverflowError] when the first index that is not one lies from [2^63]
    to [2^64 - 1]. *)
Theorem X10_sweep_tile_out_of_range s r c :
  wf s ->
  rows s <= r \/ r < - rows s \/ cols s <= c \/ c < - cols s ->
  exists e,
    sweep_tile (r, c) s = (Raise e, s) /\
    setitem (swept s) (r, c) 1 = Raise e /\
    (e = IndexError \/ e = OverflowError) /\
    (- 2 ^ 63 <= r < 2 ^ 63 -> - 2 ^ 63 <= c < 2 ^ 63 -> e = IndexError) /\
    (2 ^ 63 <= r < 2 ^ 64 -> e = OverflowError) /\
    (- 2 ^ 63 <= r < 2 ^ 63 -> 2 ^ 63 <= c < 2 ^ 64 -> e = OverflowError).
Proof.
  intros Hwf Hout. exists (index_error (r, c)).
  pose proof (resolve_out_of_range s r c Hwf Hout) as Hres.
  split_and!.
  - apply sweep_tile_raise; assumption.
  - apply (setitem_raise (swept s) _ _ (r, c) 1 _ (wf_swept s Hwf)
             (rows_pos_nat s Hwf) Hres).
  - apply index_error_cases.
  - apply index_error_cases.
  - apply index_error_cases.
  - apply index_error_cases.
Qed.

(** One row past the board, and a column that is no C integer of 64
    bits. *)
Lemma X10_sweep_tile_out_of_range_witness :
  sweep_tile (8, 0) fresh = (Raise IndexError, fresh) /\
  sweep_tile (0, 2 ^ 63) fresh = (Raise OverflowError, fresh).
Proof.
  split.
  - destruct (X10_sweep_tile_out_of_range fresh 8 0 wf_fresh)
      as (e & Hrun & _ & _ & Hidx & _); [left; simpl; lia|].
    rewrite Hrun, Hidx by lia. reflexivity.
  - destruct (X10_sweep_tile_out_of_range fresh 0 (2 ^ 63) wf_fresh)
      as (e & Hrun & _ & _ & _ & _ & Hover); [right; right; left; simpl; lia|].
    rewrite Hrun, Hover by lia. reflexivity.
Defined.

(** X11.  Inside [-rows, rows) and [-cols, cols) a negative index counts
    from the end of its axis.  [flag_tile] does what it does at the cell
    [(row mod rows, col mod cols)].  [sweep_tile] marks that cell swept,
    but what it writes into a cell that held no mine is the number of mines
    around the location as it was given. *)
Theorem X11_negative_indices s r c :
  wf s -> - rows s <= r < rows s -> - cols s <= c < cols s ->
  let target := (r mod rows s, c mod cols s) in
  in_bounds s target = true /\
  flag_tile (r, c) s = flag_tile target s /\
  exists old s',
    sweep_tile (r, c) s = (Ok tt, s') /\
    getitem (grid s) target = Ok old /\
    getitem (swept s') target = Ok 1 /\
    getitem (grid s') target =
      Ok (if old =? mine then exploded else mines_around s (r, c)).
Proof.
  intros Hwf Hr Hc. cbv zeta.
  pose proof (wf_rows s Hwf) as Hrows. pose proof (wf_cols s Hwf) as Hcols.
  pose proof (Z.mod_pos_bound r (rows s) Hrows) as Hmr.
  pose proof (Z.mod_pos_bound c (cols s) Hcols) as Hmc.
  assert (in_bounds s (r mod rows s, c mod cols s) = true) as Hb
    by (apply in_bounds_spec; simpl; lia).
  split; [exact Hb|]. split; [apply flag_tile_wraps; assumption|].
  pose proof (resolve_wrap s r c Hwf Hr Hc) as Hres.
  destruct (sweep_tile_ok s (r, c) _ _ Hwf Hres)
    as (old & grow & srow & Hg & Ho & Hs & Hrun).
  set (r0 := Z.to_nat (r mod rows s)) in *.
  set (c0 := Z.to_nat (c mod cols s)) in *.
  set (s1 := set_grid _ _) in Hrun.
  destruct (check_game_state_keeps s1) as (Eg & Ew & _ & _ & _ & Er & Ec).
  exists old, (snd (check_game_state s1)).
  assert (wf (snd (check_game_state s1))) as Hwf'.
  { rewrite <- Hrun. apply wf_sweep_tile, Hwf. }
  assert (in_bounds (snd (check_game_state s1)) (r mod rows s, c mod cols s)
          = true) as Hb'.
  { unfold in_bounds. rewrite Er, Ec. exact Hb. }
  destruct (resolve_lt _ _ _ _ _ Hres) as [_ Hc0].
  split_and!.
  - rewrite Hrun, check_game_state_run. reflexivity.
  - apply (getitem_cell (grid s) s _ old Hwf (wf_grid s Hwf) Hb).
    unfold cell. simpl. fold r0 c0. rewrite Hg. exact Ho.
  - apply (getitem_cell _ _ _ 1 Hwf' (wf_swept _ Hwf') Hb').
    rewrite Ew. simpl. fold r0 c0. unfold s1. simpl.
    rewrite cell_insert; [|exact Hs|].
    + rewrite decide_True by done. reflexivity.
    + rewrite (shape_row _ _ _ _ _ (wf_swept s Hwf) Hs). exact Hc0.
  - apply (getitem_cell _ _ _ _ Hwf' (wf_grid _ Hwf') Hb').
    rewrite Eg. simpl. fold r0 c0. unfold s1. simpl.
    rewrite cell_insert; [|exact Hg|].
    + rewrite decide_True by done. reflexivity.
    + rewrite (shape_row _ _ _ _ _ (wf_grid s Hwf) Hg). exact Hc0.
Qed.

(** On the board of the test of [sweep_tile], [sweep_tile((-4, -7))] writes
    into the cell [(4, 1)], which lies between two mines, the number of
    mines around [(-4, -7)]: none of its neighbours is on the board. *)
Lemma X11_negative_indices_witness :
  exists s',
    sweep_tile (-4, -7) test_board = (Ok tt, s') /\
    getitem (grid s') (4, 1) = Ok 0 /\
    mines_around test_board (4, 1) = 2.
Proof.
  pose proof wf_test_board as Hwf.
  destruct (X11_negative_indices test_board (-4) (-7) Hwf)
    as (_ & _ & old & s' & H); [simpl; lia|simpl; lia|].
  destruct H as (Hrun & Hold & _ & Hg).
  exists s'. split_and!; [exact Hrun| |vm_compute; reflexivity].
  vm_compute in Hold. inversion Hold; subst old. exact Hg.
Defined.

(** ** What [player_view] shows *)

Lemma player_view_cells s :
  wf s ->
  exists view,
    player_view s = (Ok view, s) /\
    shape view (Z.to_nat (rows s)) (Z.to_nat (cols s)) /\
    forall r c g f,
      cell (grid s) r c = Some g -> cell (flagged s) r c = Some f ->
      cell view r c = Some (shown g f).
Proof.
  intros Hwf. eexists. split; [reflexivity|]. split.
  - unfold mask_assign, eq_mask.
    repeat (apply shape_zip_with || apply shape_map || apply shape_np_full);
      try apply (wf_grid s Hwf); apply (wf_flagged s Hwf).
  - intros r c g f Hg Hf.
    destruct (cell_Some_lt _ _ _ _ _ _ (wf_grid s Hwf) Hg) as [Hr Hc].
    rewrite !cell_mask_assign, cell_zip_with. unfold eq_mask.
    rewrite !cell_map, Hg, Hf, cell_np_full by assumption.
    cbn -[Z.eqb]. unfold shown, mine, unexplored.
    rewrite (Z.eqb_sym 1 f), (Z.eqb_sym 9 g), (Z.eqb_sym 10 g).
    destruct (f =? 1); [reflexivity|].
    destruct (g =? 10), (g =? 9); reflexivity.
Qed.

Lemma cell_None_out {A} (a : list (list A)) nr nc r c :
  shape a nr nc -> ~ ((r < nr)%nat /\ (c < nc)%nat) -> cell a r c = None.
Proof.
  intros Hs Hout. destruct (cell a r c) as [v|] eqn:E; [|reflexivity].
  exfalso. apply Hout. exact (cell_Some_lt a nr nc r c v Hs E).
Qed.

(** X12.  The array returned by [player_view] never holds the number of
    a mine or of an unexplored cell; and two well-formed instances with the
    same flags, whose grids differ only in which unrevealed cells are
    mined, have the same view. *)
Theorem X12_player_view_hides_mines s1 s2 :
  wf s1 -> wf s2 ->
  rows s1 = rows s2 -> cols s1 = cols s2 -> flagged s1 = flagged s2 ->
  (forall r c g1 g2,
     cell (grid s1) r c = Some g1 -> cell (grid s2) r c = Some g2 ->
     g1 = g2 \/
     ((g1 = mine \/ g1 = unexplored) /\ (g2 = mine \/ g2 = unexplored))) ->
  exists view,
    fst (player_view s1) = Ok view /\ fst (player_view s2) = Ok view /\
    forall r c, cell view r c <> Some (fl mine) /\
                cell view r c <> Some (fl unexplored).
Proof.
  intros Hwf1 Hwf2 Er Ec Ef Hrel.
  destruct (player_view_cells s1 Hwf1) as (v1 & Hrun1 & Hsh1 & Hc1).
  destruct (player_view_cells s2 Hwf2) as (v2 & Hrun2 & Hsh2 & Hc2).
  exists v1. rewrite Hrun1, Hrun2. simpl.
  assert (forall r c, cell v1 r c <> Some (fl mine) /\
                      cell v1 r c <> Some (fl unexplored)) as Hhide.
  { intros r c.
    destruct (decide ((r < Z.to_nat (rows s1))%nat /\
                      (c < Z.to_nat (cols s1))%nat)) as [[Hr Hc]|Hout].
    - destruct (cell_lt (grid s1) _ _ r c (wf_grid s1 Hwf1) Hr Hc) as [g Hg].
      destruct (cell_lt (flagged s1) _ _ r c (wf_flagged s1 Hwf1) Hr Hc)
        as [f Hf].
      rewrite (Hc1 r c g f Hg Hf). unfold shown, flag, mine, unexplored.
      destruct (f =? 1); [split; discriminate|].
      destruct (g =? 10) eqn:E1; [split; discriminate|].
      destruct (g =? 9) eqn:E2; [split; discriminate|].
      simpl. split; intros H; inversion H; lia.
    - rewrite (cell_None_out v1 _ _ r c Hsh1 Hout). split; discriminate. }
  split_and!; [reflexivity| |exact Hhide].
  f_equal. symmetry.
  rewrite <- Er, <- Ec in Hsh2.
  apply (ndarray_ext v1 v2 _ _ Hsh1 Hsh2). intros r c.
  destruct (decide ((r < Z.to_nat (rows s1))%nat /\
                    (c < Z.to_nat (cols s1))%nat)) as [[Hr Hc]|Hout].
  - destruct (cell_lt (grid s1) _ _ r c (wf_grid s1 Hwf1) Hr Hc) as [g1 Hg1].
    destruct (cell_lt (flagged s1) _ _ r c (wf_flagged s1 Hwf1) Hr Hc)
      as [f Hf].
    pose proof (wf_grid s2 Hwf2) as Hsg2. rewrite <- Er, <- Ec in Hsg2.
    destruct (cell_lt (grid s2) _ _ r c Hsg2 Hr Hc) as [g2 Hg2].
    rewrite (Hc1 r c g1 f Hg1 Hf).
    rewrite (Hc2 r c g2 f Hg2) by (rewrite <- Ef; exact Hf).
    f_equal. unfold shown.
    destruct (Hrel r c g1 g2 Hg1 Hg2) as [->|[[-> | ->] [-> | ->]]];
      reflexivity.
  - rewrite (cell_None_out v1 _ _ r c Hsh1 Hout).
    rewrite (cell_None_out v2 _ _ r c Hsh2 Hout). reflexivity.
Qed.

(** Two boards with one mine each, at different cells, unflagged. *)
Lemma X12_player_view_hides_mines_witness :
  exists s1 s2 view,
    new (Some [loc_value (0, 0)]) [] = Ok s1 /\
    new (Some [loc_value (7, 7)]) [] = Ok s2 /\
    fst (player_view s1) = Ok view /\ fst (player_view s2) = Ok view.
Proof.
  eexists. eexists.
  match goal with
  | |- exists view, ?n1 = Ok ?s1 /\ ?n2 = Ok ?s2 /\ _ =>
      assert (n1 = Ok s1) as Hnew1 by reflexivity;
      assert (n2 = Ok s2) as Hnew2 by reflexivity
  end.
  pose proof (new_laying _ _ _ Hnew1) as Hlay1.
  pose proof (new_laying _ _ _ Hnew2) as Hlay2.
  destruct (laying_wf _ Hlay1) as (Hwf1 & _).
  destruct (laying_wf _ Hlay2) as (Hwf2 & _).
  destruct (X12_player_view_hides_mines _ _ Hwf1 Hwf2 eq_refl eq_refl eq_refl)
    as (view & H1 & H2 & _).
  - intros r c g1 g2 Hg1 Hg2. right.
    destruct Hlay1 as (ga & na & Ea & _ & Ha).
    destruct Hlay2 as (gb & nb & Eb & _ & Hb).
    assert (forall s g n v,
              s = set_number_of_mines n (set_grid g fresh) ->
              Forall (Forall (fun v => v = unexplored \/ v = mine)) g ->
              cell (grid s) r c = Some v -> v = mine \/ v = unexplored) as Hcase.
    { intros s g n v -> Hall Hv. simpl in Hv. unfold cell in Hv.
      destruct (g !! r) as [row|] eqn:Erow; [|discriminate].
      rewrite Forall_lookup in Hall. pose proof (Hall r row Erow) as Hrow.
      rewrite Forall_lookup in Hrow. destruct (Hrow c v Hv); auto. }
    split; [exact (Hcase _ _ _ _ Ea Ha Hg1)|exact (Hcase _ _ _ _ Eb Hb Hg2)].
  - exists view. split_and!; [exact Hnew1|exact Hnew2|exact H1|exact H2].
Defined.

(** ** Winning *)

Lemma none_on_board (a : list (list Z)) s v :
  wf s -> shape a (Z.to_nat (rows s)) (Z.to_nat (cols s)) ->
  (forall q, in_bounds s q = true -> getitem a q <> Ok v) ->
  any (eq_mask a v) = false.
Proof.
  intros Hwf Hs Hnone.
  destruct (any (eq_mask a v)) eqn:E; [|reflexivity].
  exfalso. apply any_eq_mask in E as (r & c & Hcell).
  destruct (cell_on_board a s r c v Hwf Hs Hcell) as [Hq Hg].
  exact (Hnone _ Hq Hg).
Qed.

Lemma sweeping_step s0 s p rest :
  sweeping s0 s (p :: rest) ->
  in_bounds s0 p = true -> holds_mine s0 p = false ->
  sweeping s0 (after (Sweep p) s) rest /\
  (rest = [] -> won (after (Sweep p) s) = true).
Proof.
  intros (Hwf & Er & Ec & Hl & Hnoex & Hmines & Hun) Hp Hsafe.
  assert (forall q, in_bounds s0 q = in_bounds s q) as Hbq
    by (intros q; unfold in_bounds; rewrite Er, Ec; reflexivity).
  rewrite Hbq in Hp.
  destruct (sweep_tile_summary s p Hwf Hp)
    as (old & s' & Hrun & Hold & Hwf' & Er' & Ec' & Hg & _ & Hl' & Hw' & _).
  unfold after. simpl. rewrite Hrun. simpl.
  assert ((old =? mine) = false) as Hnm.
  { rewrite <- Hbq in Hp. rewrite <- (Hmines p Hp) in Hsafe.
    unfold holds_mine in Hsafe. rewrite Hold in Hsafe. exact Hsafe. }
  pose proof (mines_around_bounds s p Hwf) as Hn.
  assert (forall q, in_bounds s0 q = true ->
            getitem (grid s') q =
              if decide (q = p) then Ok (mines_around s p)
              else getitem (grid s) q) as Hg'.
  { intros q Hq. rewrite Hbq in Hq. rewrite (Hg q Hq).
    unfold revealed. rewrite Hnm. reflexivity. }
  assert (forall q, in_bounds s0 q = true -> getitem (grid s') q <> Ok exploded)
    as Hnoex'.
  { intros q Hq. rewrite (Hg' q Hq). destruct (decide (q = p)).
    - intros H. inversion H. unfold exploded in *. lia.
    - apply Hnoex, Hq. }
  assert (shape (grid s') (Z.to_nat (rows s)) (Z.to_nat (cols s))) as Hsg
    by (rewrite <- Er', <- Ec'; apply (wf_grid s' Hwf')).
  assert (any (eq_mask (grid s') exploded) = false) as Hany.
  { apply (none_on_board (grid s') s exploded Hwf Hsg).
    intros q Hq. apply Hnoex'. rewrite Hbq. exact Hq. }
  rewrite Hany in Hl', Hw'.
  assert (forall q, in_bounds s0 q = true ->
            getitem (grid s') q = Ok unexplored -> q ∈ rest) as Hun'.
  { intros q Hq. rewrite (Hg' q Hq). destruct (decide (q = p)) as [->|Hne].
    - intros H. inversion H. unfold unexplored in *. lia.
    - intros H. pose proof (Hun q Hq H) as Hin.
      apply elem_of_cons in Hin as [Hin|Hin]; [contradiction|exact Hin]. }
  split.
  - split_and!; try assumption; try congruence.
    intros q Hq. rewrite <- (Hmines q Hq). unfold holds_mine.
    rewrite (Hg' q Hq). destruct (decide (q = p)) as [->|Hne]; [|reflexivity].
    rewrite Hold, Hnm. unfold mine. apply Z.eqb_neq. lia.
  - intros ->.
    assert (any (eq_mask (grid s') unexplored) = false) as Hany'.
    { apply (none_on_board (grid s') s unexplored Hwf Hsg).
      intros q Hq H. rewrite <- Hbq in Hq.
      pose proof (Hun' q Hq H) as Hin. apply elem_of_nil in Hin. exact Hin. }
    rewrite Hany' in Hw'. exact Hw'.
Qed.

Lemma sweeping_run s0 rest : forall s,
  sweeping s0 s rest -> rest <> [] ->
  (forall p, p ∈ rest -> in_bounds s0 p = true /\ holds_mine s0 p = false) ->
  won (run (Sweep <$> rest) s) = true /\ lost (run (Sweep <$> rest) s) = false.
Proof.
  induction rest as [|p rest IH]; intros s Hinv Hne Hsafe; [congruence|].
  rewrite fmap_cons, run_cons.
  destruct (Hsafe p) as [Hp Hs]; [left|].
  destruct (sweeping_step s0 s p rest Hinv Hp Hs) as [Hinv' Hlast].
  destruct rest as [|p' rest'].
  - simpl. split; [apply Hlast; reflexivity|].
    destruct Hinv' as (_ & _ & _ & Hl & _). exact Hl.
  - apply IH; [exact Hinv'|discriminate|].
    intros q Hq. apply Hsafe. right. exact Hq.
Qed.

(** X13.  From a constructed instance, sweeping the cells of a list that
    holds no mine and names every cell of the board that is not mined,
    in any order and with any repetitions, ends with [won] set and [lost]
    not set. *)
Theorem X13_sweeping_every_safe_cell_wins locations sample s0 safe :
  new locations sample = Ok s0 ->
  safe <> [] ->
  (forall p, p ∈ safe -> in_bounds s0 p = true /\ holds_mine s0 p = false) ->
  (forall p, in_bounds s0 p = true -> holds_mine s0 p = false -> p ∈ safe) ->
  won (run (Sweep <$> safe) s0) = true /\
  lost (run (Sweep <$> safe) s0) = false.
Proof.
  intros Hnew Hne Hsafe Hall.
  pose proof (new_laying _ _ _ Hnew) as Hlay.
  destruct (laying_wf s0 Hlay) as (Hwf & Hr & Hc).
  apply (sweeping_run s0 safe s0); try assumption.
  assert (forall q v, in_bounds s0 q = true -> getitem (grid s0) q = Ok v ->
            v = unexplored \/ v = mine) as Hcells.
  { intros q v Hq Hv.
    apply (getitem_cell (grid s0) s0 q v Hwf (wf_grid s0 Hwf) Hq) in Hv.
    destruct Hlay as (g & n & -> & _ & Hgall). simpl in Hv. unfold cell in Hv.
    destruct (g !! Z.to_nat (fst q)) as [row|] eqn:Erow; [|discriminate].
    rewrite Forall_lookup in Hgall. pose proof (Hgall _ row Erow) as Hrow.
    rewrite Forall_lookup in Hrow. exact (Hrow _ v Hv). }
  split_and!; try reflexivity; try assumption.
  - destruct Hlay as (g & n & -> & _). reflexivity.
  - intros q Hq H. destruct (Hcells q _ Hq H); discriminate.
  - intros q Hq H. apply Hall; [exact Hq|].
    unfold holds_mine. rewrite H. reflexivity.
Qed.

(** The board of the test of [sweep_tile], swept row by row but for its
    three mines. *)
Lemma X13_sweeping_every_safe_cell_wins_witness :
  let safe := filter (fun p => negb (holds_mine test_board p))
                (cells test_board) in
  won (run (Sweep <$> safe) test_board) = true /\
  lost (run (Sweep <$> safe) test_board) = false.
Proof.
  cbv zeta.
  assert (forall p,
            p ∈ filter (fun p => negb (holds_mine test_board p))
                  (cells test_board) <->
            in_bounds test_board p = true /\ holds_mine test_board p = false)
    as Hsafe.
  { intros p. rewrite list_elem_of_filter, elem_of_cells.
    rewrite negb_True, Is_true_true, not_true_iff_false. tauto. }
  apply (X13_sweeping_every_safe_cell_wins (Some test_locations) []
           test_board _ new_test_board).
  - intros Hnil.
    assert ((0, 0) ∈ (@nil (Z * Z))) as Hin
      by (rewrite <- Hnil; apply Hsafe; split; reflexivity).
    apply elem_of_nil in Hin. exact Hin.
  - intros p Hp. apply Hsafe, Hp.
  - intros p Hq Hm. apply Hsafe. split; assumption.
Defined.

(** ** The command loop *)

Lemma parse_coords_some int u s loc :
  fst (parse_coords int u s) = Ok (Some loc) -> in_bounds s loc = true.
Proof.
  rewrite parse_coords_run. simpl.
  destruct (split " " u) as [|a [|b [|x rest]]]; try discriminate.
  destruct (int a) as [r|]; [|discriminate].
  destruct (int b) as [c|]; [|discriminate].
  destruct (in_bounds s (r, c)) eqn:E; [|discriminate].
  intros H. inversion H; subst. exact E.
Qed.

Lemma flag_tile_returns s loc :
  wf s -> in_bounds s loc = true -> fst (flag_tile loc s) = Ok tt.
Proof.
  intros Hwf Hb.
  destruct (flag_tile_ok s loc _ _ Hwf (resolve_in_bounds s loc Hwf Hb))
    as (old & frow & _ & _ & ->).
  reflexivity.
Qed.

Lemma sweep_tile_returns s loc :
  wf s -> in_bounds s loc = true -> fst (sweep_tile loc s) = Ok tt.
Proof.
  intros Hwf Hb.
  destruct (sweep_tile_marks_swept s loc Hwf Hb) as (s2 & -> & _).
  reflexivity.
Qed.

(** One call of [cli_take_action]: what it prints and the state it
    leaves. *)
Lemma cli_take_action_run int u s :
  wf s ->
  let s' := run (cli_ops int u s) s in
  exists view,
    fst (player_view s) = Ok view /\
    cli_take_action int u s =
      (Ok ([ShowView view; Prompt (number_of_mines s)] ++ cli_tail int u s s'),
       s').
Proof.
  intros Hwf. cbv zeta. eexists. split; [reflexivity|].
  unfold cli_take_action, cli_tail, cli_ops.
  unfold bind at 1. unfold player_view at 1. unfold bind at 1.
  unfold get at 1. unfold ret at 1. unfold bind at 1. unfold get at 1.
  destruct (String.eqb u "q") eqn:Eq.
  - unfold exit_game, show_endgame, bind, modify, get. simpl.
    destruct (won s || lost s); reflexivity.
  - pose proof (parse_coords_some int (strip "f" u) s) as Hsome.
    assert (exists res, parse_coords int (strip "f" u) s = (Ok res, s))
      as (res & Ep) by (eexists; apply parse_coords_run).
    unfold bind at 1. rewrite Ep in *. simpl fst in *.
    destruct res as [loc|]; [|reflexivity].
    pose proof (Hsome loc eq_refl) as Hb.
    destruct (contains "f" u).
    + pose proof (flag_tile_returns s loc Hwf Hb) as Hf.
      unfold bind at 1. unfold bind at 1.
      destruct (flag_tile loc s) as [r1 s1] eqn:E1. simpl in Hf. subst r1.
      unfold run, after. simpl. rewrite E1. simpl.
      unfold show_endgame, bind, get. simpl.
      destruct (won s1 || lost s1); reflexivity.
    + pose proof (sweep_tile_returns s loc Hwf Hb) as Hf.
      unfold bind at 1. unfold bind at 1.
      destruct (sweep_tile loc s) as [r1 s1] eqn:E1. simpl in Hf. subst r1.
      unfold run, after. simpl. rewrite E1. simpl.
      unfold show_endgame, bind, get. simpl.
      destruct (won s1 || lost s1); reflexivity.
Qed.

Lemma cli_ops_on_board int u s :
  Forall (fun o => forall loc, op_location o = Some loc ->
                               in_bounds s loc = true)
    (cli_ops int u s).
Proof.
  unfold cli_ops. destruct (String.eqb u "q").
  - repeat constructor. discriminate.
  - destruct (fst (parse_coords int (strip "f" u) s)) as [[loc|]|] eqn:E;
      try constructor.
    + pose proof (parse_coords_some int _ s loc E) as Hb.
      destruct (contains "f" u); simpl; intros l H; inversion H; subst;
        exact Hb.
    + repeat constructor. discriminate.
Qed.

(** X14.  On a well-formed instance [cli_take_action] never raises,
    whatever line it reads and whatever [int] does.  It leaves the
    instance a run of the methods leaves it: no call for a line that is
    not understood, [exit_game] for [q], and otherwise [flag_tile] or
    [sweep_tile] followed by [clear_swept_flags], at a location of the
    board.  It prints the masked board and the prompt, then the refusal
    of a line that is not understood, or the unmasked board when the game
    is won or lost, and nothing more. *)
Theorem X14_cli_take_action int u s :
  wf s ->
  let ops := cli_ops int u s in
  let s' := run ops s in
  exists view,
    fst (player_view s) = Ok view /\
    cli_take_action int u s =
      (Ok ([ShowView view; Prompt (number_of_mines s)] ++
           match ops with
           | [] => [NotUnderstood]
           | _ => if won s' || lost s'
                  then [ShowEndgame (endgame_board s')] else []
           end), s') /\
    wf s' /\
    (ops = [] \/ ops = [RequestQuit] \/
     exists loc, in_bounds s loc = true /\
       (ops = [ToggleFlag loc; ClearSweptFlags] \/
        ops = [Sweep loc; ClearSweptFlags])).
Proof.
  intros Hwf. cbv zeta.
  destruct (cli_take_action_run int u s Hwf) as (view & Hview & Hrun).
  exists view. split_and!.
  - exact Hview.
  - exact Hrun.
  - apply wf_run, Hwf.
  - pose proof (cli_ops_on_board int u s) as Hon.
    unfold cli_ops in *. destruct (String.eqb u "q"); [auto|].
    destruct (fst (parse_coords int (strip "f" u) s)) as [[loc|]|]; auto.
    right. right. exists loc.
    apply Forall_cons in Hon as [Hloc _].
    destruct (contains "f" u); (split; [apply Hloc; reflexivity|auto]).
Qed.

(** The flag command of the test of flagging, typed at the prompt. *)
Lemma X14_cli_take_action_witness :
  exists out s',
    cli_take_action decimal "f1 2" fresh = (Ok out, s') /\
    getitem (flagged s') (1, 2) = Ok 1 /\
    cli_ops decimal "f1 2" fresh = [ToggleFlag (1, 2); ClearSweptFlags].
Proof.
  destruct (X14_cli_take_action decimal "f1 2" fresh wf_fresh)
    as (view & _ & Hrun & _).
  eexists _, _. split; [exact Hrun|]. split; reflexivity.
Defined.

(** ** Flags along the command loop *)

Lemma clear_after_makes_unflagged s :
  wf s -> swept_unflagged (after ClearSweptFlags s).
Proof.
  intros Hwf.
  destruct (clear_swept_flags_clears s Hwf) as (s' & Hrun & _ & _ & Hall).
  unfold after, run_op. rewrite Hrun. exact Hall.
Qed.

Lemma cli_take_action_unflagged int u s o :
  wf s -> cli_ops int u s = [o; ClearSweptFlags] ->
  swept_unflagged (snd (cli_take_action int u s)).
Proof.
  intros Hwf Hops.
  destruct (cli_take_action_run int u s Hwf) as (view & _ & ->).
  cbn [snd]. rewrite Hops, run_cons. apply clear_after_makes_unflagged.
  apply wf_after, Hwf.
Qed.

Lemma cli_take_action_wf int u s : wf s -> wf (snd (cli_take_action int u s)).
Proof.
  intros Hwf.
  destruct (cli_take_action_run int u s Hwf) as (view & _ & ->).
  apply wf_run, Hwf.
Qed.

Lemma cli_ops_cases int u s :
  cli_ops int u s = [] \/ cli_ops int u s = [RequestQuit] \/
  exists loc, in_bounds s loc = true /\
    (cli_ops int u s = [ToggleFlag loc; ClearSweptFlags] \/
     cli_ops int u s = [Sweep loc; ClearSweptFlags]).
Proof.
  pose proof (cli_ops_on_board int u s) as Hon.
  unfold cli_ops in *. destruct (String.eqb u "q"); [auto|].
  destruct (fst (parse_coords int (strip "f" u) s)) as [[loc|]|]; auto.
  right. right. exists loc.
  apply Forall_cons in Hon as [Hloc _].
  destruct (contains "f" u); (split; [apply Hloc; reflexivity|auto]).
Qed.

Lemma cli_take_action_keeps_unflagged int u s :
  wf s -> swept_unflagged s -> swept_unflagged (snd (cli_take_action int u s)).
Proof.
  intros Hwf Hinv.
  destruct (cli_ops_cases int u s) as [H|[H|(loc & _ & [H|H])]].
  - destruct (cli_take_action_run int u s Hwf) as (view & _ & ->).
    rewrite H. exact Hinv.
  - destruct (cli_take_action_run int u s Hwf) as (view & _ & ->).
    rewrite H. exact Hinv.
  - apply (cli_take_action_unflagged int u s _ Hwf H).
  - apply (cli_take_action_unflagged int u s _ Hwf H).
Qed.

(** X15.  [cli_take_action] keeps the flags off the swept cells: if no
    swept cell is flagged before the call, none is after it; and after a
    flag or a sweep command none is, whatever the instance was. *)
Theorem X15_cli_keeps_swept_cells_unflagged int u s :
  wf s ->
  let s' := snd (cli_take_action int u s) in
  (swept_unflagged s -> swept_unflagged s') /\
  (forall o, cli_ops int u s = [o; ClearSweptFlags] -> swept_unflagged s').
Proof.
  intros Hwf. cbv zeta. split.
  - apply cli_take_action_keeps_unflagged, Hwf.
  - intros o Ho. apply (cli_take_action_unflagged int u s o Hwf Ho).
Qed.

Lemma X15_cli_keeps_swept_cells_unflagged_witness :
  swept_unflagged (snd (cli_take_action decimal "f1 2" fresh)).
Proof.
  destruct (X15_cli_keeps_swept_cells_unflagged decimal "f1 2" fresh wf_fresh)
    as [_ H].
  apply (H (ToggleFlag (1, 2))). reflexivity.
Defined.

(** Flagging a swept cell and clearing the flags of the swept cells
    gives the instance back. *)
Lemma flag_swept_cell_is_undone s loc w :
  wf s -> swept_unflagged s -> in_bounds s loc = true ->
  getitem (swept s) loc = Ok w -> w <> 0 ->
  run [ToggleFlag loc; ClearSweptFlags] s = s.
Proof.
  intros Hwf Hinv Hb Hw Hne.
  pose proof (resolve_in_bounds s loc Hwf Hb) as Hres.
  destruct (flag_tile_ok s loc _ _ Hwf Hres) as (old & frow & Hf & Ho & Hrun).
  set (r0 := Z.to_nat (fst loc)) in *. set (c0 := Z.to_nat (snd loc)) in *.
  unfold run, after. simpl. rewrite Hrun. simpl.
  assert (mask_assign (nonzero_mask (swept s)) 0
            (<[r0 := <[c0 := if old =? 0 then 1 else 0]> frow]> (flagged s))
          = flagged s) as ->; [|destruct s; reflexivity].
  assert (shape (<[r0 := <[c0 := if old =? 0 then 1 else 0]> frow]> (flagged s))
            (Z.to_nat (rows s)) (Z.to_nat (cols s))) as Hsh1
    by (apply shape_insert; [apply (wf_flagged s Hwf)|exact Hf]).
  apply (ndarray_ext _ _ (Z.to_nat (rows s)) (Z.to_nat (cols s))).
  - unfold mask_assign. apply shape_zip_with; [|exact Hsh1].
    unfold nonzero_mask. apply shape_map, (wf_swept s Hwf).
  - apply (wf_flagged s Hwf).
  - intros r c. rewrite cell_mask_assign. unfold nonzero_mask.
    rewrite cell_map.
    destruct (resolve_lt _ _ _ _ _ Hres) as [_ Hc0].
    rewrite cell_insert;
      [|exact Hf|rewrite (shape_row _ _ _ _ _ (wf_flagged s Hwf) Hf); exact Hc0].
    apply (getitem_cell (swept s) s loc w Hwf (wf_swept s Hwf) Hb) in Hw.
    fold r0 c0 in Hw.
    destruct (cell (swept s) r c) as [w'|] eqn:Ew; simpl.
    + destruct (cell_Some_lt _ _ _ _ _ _ (wf_swept s Hwf) Ew) as [Hr Hc].
      destruct (cell_lt (flagged s) _ _ r c (wf_flagged s Hwf) Hr Hc)
        as [f' Hf'].
      destruct (decide (r = r0 /\ c = c0)) as [[-> ->]|Hother].
      * assert (w' = w) as -> by congruence.
        replace (w =? 0) with false by lia. simpl.
        rewrite (Hinv r0 c0 w Ew Hne). reflexivity.
      * rewrite Hf'. destruct (w' =? 0) eqn:E0; simpl; [reflexivity|].
        rewrite (Hinv r c w' Ew) in Hf' by lia. congruence.
    + symmetry. apply (cell_None_out (flagged s) _ _ r c (wf_flagged s Hwf)).
      intros [Hr Hc].
      destruct (cell_lt (swept s) _ _ r c (wf_swept s Hwf) Hr Hc) as [x Hx].
      congruence.
Qed.

(** X16.  At the prompt, a flag command on a cell that is already swept
    changes nothing: the flag raised by [flag_tile] is lowered again by
    [clear_swept_flags], provided no swept cell was flagged before. *)
Theorem X16_cli_flag_on_swept_cell int u s loc w :
  wf s -> swept_unflagged s ->
  cli_ops int u s = [ToggleFlag loc; ClearSweptFlags] ->
  getitem (swept s) loc = Ok w -> w <> 0 ->
  snd (cli_take_action int u s) = s.
Proof.
  intros Hwf Hinv Hops Hw Hne.
  destruct (cli_take_action_run int u s Hwf) as (view & _ & ->). simpl.
  pose proof (cli_ops_on_board int u s) as Hon. rewrite Hops in *.
  apply Forall_cons in Hon as [Hloc _].
  apply (flag_swept_cell_is_undone s loc w); try assumption.
  apply Hloc. reflexivity.
Qed.

(** The third scenario of the test of flagging, at the prompt: the tile
    at [(1, 2)] is swept, then flagged. *)
Lemma X16_cli_flag_on_swept_cell_witness :
  let s := snd (cli_take_action decimal "1 2" fresh) in
  getitem (swept s) (1, 2) = Ok 1 /\
  snd (cli_take_action decimal "f1 2" s) = s.
Proof.
  cbv zeta. split; [reflexivity|].
  pose proof (cli_take_action_wf decimal "1 2" fresh wf_fresh) as Hwf.
  apply (X16_cli_flag_on_swept_cell decimal "f1 2" _ (1, 2) 1 Hwf).
  - apply (cli_take_action_unflagged decimal "1 2" fresh (Sweep (1, 2))
             wf_fresh).
    reflexivity.
  - reflexivity.
  - reflexivity.
  - lia.
Defined.

(** ** A round of the game at the prompt *)

Lemma sweeps_in_play_app ops ops' : forall s,
  sweeps_in_play (ops ++ ops') s =
    sweeps_in_play ops s && sweeps_in_play ops' (run ops s).
Proof.
  induction ops as [|o ops IH]; intros s; [reflexivity|].
  simpl. rewrite IH, andb_assoc. reflexivity.
Qed.

Lemma no_resweep_app ops ops' : forall s,
  no_resweep (ops ++ ops') s =
    no_resweep ops s && no_resweep ops' (run ops s).
Proof.
  induction ops as [|o ops IH]; intros s; [reflexivity|].
  simpl. rewrite IH, andb_assoc. reflexivity.
Qed.

Lemma holds_exploded_any s loc :
  wf s -> holds_exploded s loc = true ->
  any (eq_mask (grid s) exploded) = true.
Proof.
  intros Hwf H. unfold holds_exploded in H.
  destruct (getitem (grid s) loc) as [v|] eqn:Hg; [|discriminate].
  apply Z.eqb_eq in H. subst v. apply any_eq_mask.
  rewrite (getitem_resolve (grid s) _ _ loc (wf_grid s Hwf)
             (rows_pos_nat s Hwf)) in Hg.
  destruct (resolve _ _ loc) as [[r c]|]; [|discriminate].
  destruct (cell (grid s) r c) as [v|] eqn:Hc; [|discriminate].
  inversion Hg; subst. eauto.
Qed.

(** One line read while the game is played. *)
Lemma cli_step int u s :
  wf s -> in_play s -> any (eq_mask (grid s) exploded) = false ->
  let ops := cli_ops int u s in
  let s' := run ops s in
  sweeps_in_play ops s = true /\ no_resweep ops s = true /\
  (one_flag s' \/
   (in_play s' /\ any (eq_mask (grid s') exploded) = false)).
Proof.
  intros Hwf (Hw & Hl & Hq) Hun. cbv zeta.
  destruct (cli_ops_cases int u s) as [H|[H|(loc & Hb & [H|H])]]; rewrite H.
  - split_and!; try reflexivity. right. split; [split_and!|]; assumption.
  - split_and!; try reflexivity. left. right. right.
    unfold run, after. simpl. auto.
  - split_and!; try reflexivity. right.
    pose proof (flag_tile_keeps s loc Hwf) as Hk. cbv zeta in Hk.
    destruct (flag_tile loc s) as [r1 s1] eqn:E1. simpl in Hk.
    destruct Hk as (Eg & _ & Ew & El & Eq & _).
    assert (run [ToggleFlag loc; ClearSweptFlags] s
            = snd (clear_swept_flags s1)) as ->
      by (unfold run, after; simpl; rewrite E1; reflexivity).
    unfold in_play. simpl. rewrite Eg, Ew, El, Eq.
    split; [split_and!|]; assumption.
  - destruct (sweep_tile_summary s loc Hwf Hb)
      as (old & s1 & Hrun & _ & _ & _ & _ & _ & _ & Hl1 & Hw1 & _ & Hq1 & _).
    assert (run [Sweep loc; ClearSweptFlags] s
            = snd (clear_swept_flags s1)) as ->
      by (unfold run, after; simpl; rewrite Hrun; reflexivity).
    split_and!.
    + simpl. rewrite Hw, Hl. reflexivity.
    + simpl. destruct (holds_exploded s loc) eqn:E; [|reflexivity].
      rewrite (holds_exploded_any s loc Hwf E) in Hun. discriminate.
    + unfold in_play, one_flag. simpl. rewrite Hl, Hw in *. rewrite Hq in Hq1.
      destruct (any (eq_mask (grid s1) exploded)) eqn:E1.
      * left. right. left. auto.
      * destruct (any (eq_mask (grid s1) unexplored)).
        -- right. split; [split_and!|]; first [assumption|reflexivity].
        -- left. left. auto.
Qed.

Lemma play_spec int inputs : forall s,
  wf s -> in_play s -> any (eq_mask (grid s) exploded) = false ->
  swept_unflagged s ->
  exists r,
    play int inputs s = Ok r /\
    forall s' rest, r = Some (s', rest) ->
      one_flag s' /\ wf s' /\ swept_unflagged s' /\
      (exists consumed, inputs = consumed ++ rest /\ consumed <> []) /\
      exists ops,
        s' = run ops s /\ sweeps_in_play ops s = true /\
        no_resweep ops s = true.
Proof.
  induction inputs as [|u inputs IH]; intros s Hwf Hplay Hun Hflags.
  - exists None. split; [reflexivity|]. intros s' rest H. discriminate.
  - simpl.
    destruct (cli_take_action_run int u s Hwf) as (view & _ & Hrun).
    pose proof (cli_take_action_keeps_unflagged int u s Hwf Hflags) as Hflags'.
    rewrite Hrun in *. cbn [snd] in Hflags'.
    destruct (cli_step int u s Hwf Hplay Hun) as (Hsip & Hnr & Hcase).
    set (ops := cli_ops int u s) in *. set (s1 := run ops s) in *.
    assert (wf s1) as Hwf1 by (apply wf_run, Hwf).
    destruct Hcase as [Hone|[Hplay1 Hun1]].
    + assert (lost s1 || won s1 || quit s1 = true) as ->
        by (destruct Hone as [(-> & -> & ->)|[(-> & -> & ->)|(-> & -> & ->)]];
            reflexivity).
      eexists. split; [reflexivity|].
      intros s' rest H. inversion H; subst s' rest.
      split_and!; try assumption.
      * exists [u]. split; [reflexivity|discriminate].
      * exists ops. auto.
    + assert (lost s1 || won s1 || quit s1 = false) as ->
        by (destruct Hplay1 as (-> & -> & ->); reflexivity).
      destruct (IH s1 Hwf1 Hplay1 Hun1 Hflags') as (r & Hr & Hspec).
      exists r. split; [exact Hr|].
      intros s' rest H.
      destruct (Hspec s' rest H)
        as (Hone & Hwf' & Hfl & (consumed & -> & _) & ops' & -> & Hs & Hn).
      split_and!; try assumption.
      * exists (u :: consumed). split; [reflexivity|discriminate].
      * exists (ops ++ ops'). rewrite run_app, sweeps_in_play_app, no_resweep_app.
        fold s1. rewrite Hsip, Hnr, Hs, Hn. auto.
Qed.

Lemma laying_in_play s :
  laying s ->
  in_play s /\ any (eq_mask (grid s) exploded) = false /\ swept_unflagged s.
Proof.
  intros Hlay. destruct (laying_wf s Hlay) as (Hwf & _).
  pose proof Hlay as (g & n & -> & Hsh & Hall). split_and!.
  - repeat split.
  - destruct (any (eq_mask (grid (set_number_of_mines n (set_grid g fresh)))
                     exploded)) eqn:E; [|reflexivity].
    apply any_eq_mask in E as (r & c & Hcell). simpl in Hcell.
    unfold cell in Hcell. destruct (g !! r) as [row|] eqn:Er; [|discriminate].
    rewrite Forall_lookup in Hall. pose proof (Hall r row Er) as Hrow.
    rewrite Forall_lookup in Hrow. destruct (Hrow c _ Hcell); discriminate.
  - intros r c w Hw Hne. simpl in Hw.
    destruct (cell_Some_lt _ _ _ _ _ _ (wf_swept fresh wf_fresh) Hw)
      as [Hr Hc].
    unfold fresh in Hw. simpl in Hw.
    rewrite cell_np_full in Hw by assumption. congruence.
Qed.

(** X17.  A round at the prompt, from a constructed instance: [play]
    never raises, whatever the lines and whatever [int] does.  When it
    ends, at least one line was read and exactly one of [won], [lost] and
    [quit] is up; no swept cell is flagged; and the instance is the one a
    run of the methods gives in which [sweep_tile] is only called while
    the game is neither won nor lost and never on an exploded cell, so
    that with a placement that names no cell twice the board still holds
    [number_of_mines] mined cells. *)
Theorem X17_round_at_the_prompt int locations sample s0 inputs :
  new locations sample = Ok s0 ->
  exists r,
    play int inputs s0 = Ok r /\
    forall s' rest, r = Some (s', rest) ->
      one_flag s' /\ wf s' /\ swept_unflagged s' /\
      (exists consumed, inputs = consumed ++ rest /\ consumed <> []) /\
      (exists ops,
         s' = run ops s0 /\ sweeps_in_play ops s0 = true /\
         no_resweep ops s0 = true) /\
      (distinct_placement locations sample ->
       count_cells is_mine_or_exploded (grid s') = number_of_mines s').
Proof.
  intros Hnew. pose proof (new_laying _ _ _ Hnew) as Hlay.
  destruct (laying_wf s0 Hlay) as (Hwf & _).
  destruct (laying_in_play s0 Hlay) as (Hplay & Hun & Hfl).
  destruct (play_spec int inputs s0 Hwf Hplay Hun Hfl) as (r & Hr & Hspec).
  exists r. split; [exact Hr|].
  intros s' rest H.
  destruct (Hspec s' rest H) as (Hone & Hwf' & Hfl' & Hcons & ops & -> & Hs & Hn).
  split_and!; try assumption.
  - exists ops. auto.
  - intros Hplace.
    destruct (new_wf locations sample s0 Hnew) as (_ & _ & _ & _ & Hcount).
    { intros ->. exact Hplace. }
    destruct (run_keeps_mines ops s0 Hwf Hn) as [En Ec].
    rewrite En, Ec. apply Hcount, Hplace.
Qed.

(** The board of the test of [sweep_tile] played at the prompt: a line
    that is not understood, a flag, a sweep next to two mines, a sweep on
    a mine; the line after that is left unread. *)
Lemma X17_round_at_the_prompt_witness :
  exists s',
    play decimal ["4,1"; "f1 6"; "4 1"; "1 6"; "0 0"] test_board
      = Ok (Some (s', ["0 0"])) /\
    one_flag s'.
Proof.
  destruct (X17_round_at_the_prompt decimal _ _ _
              ["4,1"; "f1 6"; "4 1"; "1 6"; "0 0"] new_test_board)
    as (r & Hr & Hspec).
  assert (exists s',
            play decimal ["4,1"; "f1 6"; "4 1"; "1 6"; "0 0"] test_board
            = Ok (Some (s', ["0 0"]))) as (s' & Hplay)
    by (eexists; vm_compute; reflexivity).
  exists s'. split; [exact Hplay|].
  rewrite Hplay in Hr. inversion Hr as [Hr']. symmetry in Hr'.
  destruct (Hspec _ _ Hr') as (Hone & _). exact Hone.
Defined.

(** ** The end of a round and the session: [__main__.py] *)

Lemma answers_keys_NoDup :
  NoDup
    ([("Yes", true); ("yes", true); ("Y", true); ("y", true);
      ("No", false); ("no", false); ("N", false); ("n", false)]%string.*1).
Proof.
  apply (bool_decide_unpack (NoDup _)). vm_compute. exact I.
Qed.

Lemma check_yes_spec u b :
  check_yes u = Some b <->
  (u, b) ∈ [("Yes", true); ("yes", true); ("Y", true); ("y", true);
            ("No", false); ("no", false); ("N", false); ("n", false)]%string.
Proof.
  unfold check_yes, answers. symmetry.
  apply elem_of_list_to_map, answers_keys_NoDup.
Qed.

Lemma ask_until_clear_spec inputs line rest :
  ask_until_clear inputs = Some (line, rest) <->
  exists skipped,
    inputs = skipped ++ line :: rest /\
    Forall (fun l => check_yes l = None) skipped /\
    check_yes line <> None.
Proof.
  induction inputs as [|u inputs IH]; simpl.
  - split; [discriminate|].
    intros (skipped & H & _). destruct skipped; discriminate.
  - destruct (check_yes u) as [b|] eqn:Eu.
    + split.
      * intros H. inversion H; subst. exists []. split_and!.
        -- reflexivity.
        -- constructor.
        -- rewrite Eu. discriminate.
      * intros ([|v skipped] & H & Hs & Hl).
        -- simpl in H. inversion H; subst. reflexivity.
        -- simpl in H. inversion H; subst v.
           apply Forall_cons in Hs as [Hv _]. congruence.
    + rewrite IH. split.
      * intros (skipped & -> & Hs & Hl). exists (u :: skipped). split_and!.
        -- reflexivity.
        -- constructor; assumption.
        -- exact Hl.
      * intros ([|v skipped] & H & Hs & Hl).
        -- simpl in H. inversion H; subst. congruence.
        -- simpl in H. inversion H; subst v.
           apply Forall_cons in Hs as [_ Hs]. exists skipped. auto.
Qed.

Lemma ask_until_clear_None inputs :
  ask_until_clear inputs = None <->
  Forall (fun l => check_yes l = None) inputs.
Proof.
  induction inputs as [|u inputs IH]; simpl.
  - split; [constructor|reflexivity].
  - destruct (check_yes u) as [b|] eqn:Eu.
    + split; [discriminate|].
      intros H. apply Forall_cons in H as [H _]. congruence.
    + rewrite IH. split.
      * intros H. constructor; assumption.
      * intros H. apply Forall_cons in H as [_ H]. exact H.
Qed.

(** With one flag up, one of the three prompts of the end of a round reads
    a line, and the other lines are read by the loop. *)
Lemma end_of_round_one_flag game inputs :
  one_flag game ->
  end_of_round game inputs =
  match ask_until_clear inputs with
  | Some (line, rest) =>
      Some (match check_yes line with Some true => false | _ => true end,
            rest)
  | None => None
  end.
Proof.
  intros Hone. unfold end_of_round.
  destruct Hone as [(-> & -> & ->)|[(-> & -> & ->)|(-> & -> & ->)]];
    (destruct inputs as [|u inputs]; [reflexivity|]);
    cbn [read_if mbind option_bind ask_until_clear];
    (destruct (check_yes u) as [b|] eqn:Eu;
     [cbn [mbind option_bind]; rewrite Eu; destruct b; reflexivity|]);
    (destruct (ask_until_clear inputs) as [[line rest]|]; [|reflexivity]);
    cbn [mbind option_bind];
    destruct (check_yes line) as [[]|]; reflexivity.
Qed.

(** X18.  The end of a round, for a game with exactly one of [won], [lost]
    and [quit] up: the lines that are not keys of the dictionary of
    [check_yes] are skipped, the first line that is one decides, and the
    loop of games is left exactly when that line is one of [No], [no], [N]
    and [n]; the lines after it are left unread.  [input] runs out of
    lines exactly when no line is a key. *)
Theorem X18_end_of_round game inputs :
  one_flag game ->
  (forall q rest,
     end_of_round game inputs = Some (q, rest) <->
     exists skipped line,
       inputs = skipped ++ line :: rest /\
       Forall (fun l => check_yes l = None) skipped /\
       check_yes line = Some (negb q)) /\
  (end_of_round game inputs = None <->
   Forall (fun l => check_yes l = None) inputs) /\
  (forall u, check_yes u = Some true <-> u ∈ ["Yes"; "yes"; "Y"; "y"]%string) /\
  (forall u, check_yes u = Some false <-> u ∈ ["No"; "no"; "N"; "n"]%string).
Proof.
  intros Hone. rewrite (end_of_round_one_flag game inputs Hone). split_and!.
  - intros q rest. split.
    + destruct (ask_until_clear inputs) as [[line rest']|] eqn:Ea;
        [|discriminate].
      intros H. inversion H; subst rest'.
      apply ask_until_clear_spec in Ea as (skipped & -> & Hs & Hl).
      exists skipped, line. split_and!; [reflexivity|exact Hs|].
      destruct (check_yes line) as [[]|]; [reflexivity|reflexivity|].
      contradiction.
    + intros (skipped & line & Hin & Hs & Hl).
      assert (ask_until_clear inputs = Some (line, rest)) as ->.
      { apply ask_until_clear_spec. exists skipped. split_and!; try assumption.
        rewrite Hl. discriminate. }
      rewrite Hl. destruct q; reflexivity.
  - rewrite <- ask_until_clear_None.
    destruct (ask_until_clear inputs) as [[line rest]|];
      split; intros H; first [discriminate|reflexivity].
  - intros u. rewrite check_yes_spec. rewrite !elem_of_cons, !elem_of_nil.
    split.
    + intros H. repeat destruct H as [H|H]; inversion H; subst; tauto.
    + intros H. repeat destruct H as [H|H]; subst; tauto.
  - intros u. rewrite check_yes_spec. rewrite !elem_of_cons, !elem_of_nil.
    split.
    + intros H. repeat destruct H as [H|H]; inversion H; subst; tauto.
    + intros H. repeat destruct H as [H|H]; subst; tauto.
Qed.

(** A game that was quit, then the answers: one that is not understood,
    a yes, and a line left unread. *)
Lemma X18_end_of_round_witness :
  end_of_round (run [RequestQuit] test_board) ["maybe"; "Y"; "0 0"]
  = Some (false, ["0 0"]).
Proof.
  assert (one_flag (run [RequestQuit] test_board)) as Hone
    by (right; right; vm_compute; auto).
  destruct (X18_end_of_round (run [RequestQuit] test_board)
              ["maybe"; "Y"; "0 0"] Hone) as (H & _).
  apply H. exists ["maybe"], "Y". split_and!.
  - reflexivity.
  - constructor; [vm_compute; reflexivity|constructor].
  - vm_compute. reflexivity.
Defined.

(** *** The loop of games *)

Lemma play_length int inputs : forall s s' rest,
  play int inputs s = Ok (Some (s', rest)) ->
  (length rest < length inputs)%nat.
Proof.
  induction inputs as [|u inputs IH]; intros s s' rest H; simpl in H.
  - discriminate.
  - destruct (cli_take_action int u s) as [[out|e] s1]; [|discriminate].
    destruct (lost s1 || won s1 || quit s1).
    + inversion H; subst. simpl. lia.
    + apply IH in H. simpl. lia.
Qed.

Lemma ask_until_clear_length inputs line rest :
  ask_until_clear inputs = Some (line, rest) ->
  (length rest < length inputs)%nat.
Proof.
  intros H. apply ask_until_clear_spec in H as (skipped & -> & _).
  rewrite length_app. simpl. lia.
Qed.

Lemma read_if_length b inputs a a' rest :
  read_if b inputs a = Some (a', rest) -> (length rest <= length inputs)%nat.
Proof.
  unfold read_if. destruct b.
  - destruct inputs; [discriminate|]. intros H. inversion H; subst.
    simpl. lia.
  - intros H. inversion H; subst. lia.
Qed.

Lemma end_of_round_length game inputs q rest :
  end_of_round game inputs = Some (q, rest) ->
  (length rest <= length inputs)%nat.
Proof.
  unfold end_of_round.
  destruct (read_if (won game) inputs None) as [[a1 i1]|] eqn:E1;
    [|discriminate].
  cbn [mbind option_bind].
  destruct (read_if (lost game) i1 a1) as [[a2 i2]|] eqn:E2; [|discriminate].
  cbn [mbind option_bind].
  destruct (read_if (quit game) i2 a2) as [[a3 i3]|] eqn:E3; [|discriminate].
  cbn [mbind option_bind].
  apply read_if_length in E1, E2, E3.
  destruct a3 as [cs|]; [|discriminate]. cbn [mbind option_bind].
  destruct (check_yes cs) as [b|] eqn:Ec.
  - cbn [mbind option_bind]. rewrite Ec.
    destruct b; intros H; inversion H; subst; lia.
  - destruct (ask_until_clear i3) as [[line rest']|] eqn:Ea; [|discriminate].
    cbn [mbind option_bind]. apply ask_until_clear_length in Ea.
    destruct (check_yes line) as [[]|]; intros H; inversion H; subst; lia.
Qed.

(** Every game reads a line: the loop of games does not depend on the
    bound on their number once it exceeds the number of lines. *)
Lemma games_loop_fuel int locations sample : forall fuel fuel' n inputs played,
  (length inputs < fuel)%nat -> (length inputs < fuel')%nat ->
  games_loop fuel int locations sample n inputs played
  = games_loop fuel' int locations sample n inputs played.
Proof.
  induction fuel as [|fuel IH]; intros fuel' n inputs played H H'; [lia|].
  destruct fuel' as [|fuel']; [lia|]. simpl.
  destruct (new locations (sample n)) as [game|e]; [|reflexivity].
  destruct (play int inputs game) as [[[game' rest]|]|e] eqn:Ep;
    try reflexivity.
  apply play_length in Ep.
  destruct (end_of_round game' rest) as [[[] rest']|] eqn:Ee; try reflexivity.
  apply end_of_round_length in Ee. apply IH; lia.
Qed.

(** A round from a constructed instance. *)
Lemma play_from_new int locations sample s0 inputs :
  new locations sample = Ok s0 ->
  exists r,
    play int inputs s0 = Ok r /\
    forall s' rest, r = Some (s', rest) ->
      one_flag s' /\ wf s' /\ swept_unflagged s'.
Proof.
  intros Hnew. pose proof (new_laying _ _ _ Hnew) as Hlay.
  destruct (laying_wf s0 Hlay) as (Hwf & _).
  destruct (laying_in_play s0 Hlay) as (Hplay & Hun & Hfl).
  destruct (play_spec int inputs s0 Hwf Hplay Hun Hfl) as (r & Hr & Hspec).
  exists r. split; [exact Hr|].
  intros s' rest H. destruct (Hspec s' rest H) as (H1 & H2 & H3 & _). auto.
Qed.

Lemma games_loop_spec int locations sample :
  (forall n, exists s0, new locations (sample n) = Ok s0) ->
  forall fuel n inputs played,
    Forall ended played ->
    exists games,
      (games_loop fuel int locations sample n inputs played = Thanks games /\
       games <> [] \/
       games_loop fuel int locations sample n inputs played
       = AwaitingInput games) /\
      Forall ended games /\
      (length games <= length played + length inputs)%nat.
Proof.
  intros Hnew.
  induction fuel as [|fuel IH]; intros n inputs played Hall; simpl.
  - exists played. split_and!; [right; reflexivity|exact Hall|lia].
  - destruct (Hnew n) as (s0 & Hs0). rewrite Hs0.
    destruct (play_from_new int _ _ s0 inputs Hs0) as (r & Hr & Hspec).
    rewrite Hr. destruct r as [[game rest]|].
    + pose proof (Hspec _ _ eq_refl) as Hended.
      pose proof (play_length _ _ _ _ _ Hr) as Hlen.
      assert (Forall ended (played ++ [game])) as Hall'
        by (apply Forall_app; split;
            [exact Hall|constructor; [exact Hended|constructor]]).
      destruct (end_of_round game rest) as [[[] rest']|] eqn:Ee.
      * exists (played ++ [game]). split_and!.
        -- left. split; [reflexivity|]. destruct played; discriminate.
        -- exact Hall'.
        -- rewrite length_app. simpl. lia.
      * apply end_of_round_length in Ee.
        destruct (IH (S n) rest' (played ++ [game]) Hall')
          as (games & Hg & Hall'' & Hlen').
        exists games. split_and!; [exact Hg|exact Hall''|].
        rewrite length_app in Hlen'. simpl in Hlen'. lia.
      * exists (played ++ [game]). split_and!.
        -- right. reflexivity.
        -- exact Hall'.
        -- rewrite length_app. simpl. lia.
    + exists played. split_and!; [right; reflexivity|exact Hall|lia].
Qed.

(** X19.  [run_cli_game], when the constructor returns for every game:
    no exception escapes, whatever the lines and whatever [int] does.  It
    ends with the thanks after at least one game, or waits for a line
    that does not come; every game played to its end has exactly one of
    [won], [lost] and [quit] up and no swept cell flagged, and there are
    no more games than lines.  Every game reads a line, so that the bound
    the model puts on the number of games is never reached. *)
Theorem X19_run_cli_game int locations sample inputs :
  (forall n, exists s0, new locations (sample n) = Ok s0) ->
  (exists games,
     (run_cli_game int locations sample inputs = Thanks games /\
      games <> [] \/
      run_cli_game int locations sample inputs = AwaitingInput games) /\
     Forall ended games /\
     (length games <= length inputs)%nat) /\
  (forall fuel,
     (length inputs < fuel)%nat ->
     games_loop fuel int locations sample 0 inputs []
     = run_cli_game int locations sample inputs).
Proof.
  intros Hnew. unfold run_cli_game. split.
  - destruct (games_loop_spec int locations sample Hnew (S (length inputs))
                0%nat inputs [] (Forall_nil_2 _)) as (games & H & Hall & Hlen).
    exists games. simpl in Hlen. auto.
  - intros fuel Hfuel. apply games_loop_fuel; lia.
Qed.

(** Two lines on the board of the test of [sweep_tile]: the game is quit
    and no new one is asked for. *)
Lemma X19_run_cli_game_witness :
  run_cli_game decimal (Some test_locations) (fun _ => []) ["q"; "n"]
  = Thanks [run [RequestQuit] test_board] /\
  ended (run [RequestQuit] test_board).
Proof.
  destruct (X19_run_cli_game decimal (Some test_locations) (fun _ => [])
              ["q"; "n"]) as ((games & H & Hall & _) & _).
  - intros n. exists test_board. exact new_test_board.
  - assert (run_cli_game decimal (Some test_locations) (fun _ => [])
              ["q"; "n"] = Thanks [run [RequestQuit] test_board]) as Hrun
      by (vm_compute; reflexivity).
    split; [exact Hrun|]. rewrite Hrun in H.
    destruct H as [[H _]|H]; [|discriminate].
    inversion H; subst games. apply Forall_cons in Hall as [Hall _].
    exact Hall.
Defined.

(** *** The command line *)

Lemma parse_args_spec int strings : forall locations,
  parse_args int strings = Ok locations <->
  Forall2
    (fun string location =>
       exists a b rest row col,
         split "," string = a :: b :: rest /\
         int a = Ok row /\ int b = Ok col /\
         location = loc_value (row, col))
    strings locations.
Proof.
  induction strings as [|s strings IH]; intros locations.
  - simpl. split.
    + intros H. inversion H. constructor.
    + intros H. inversion H. reflexivity.
  - cbn [parse_args]. split.
    + destruct (split "," s) as [|a [|b rest]] eqn:Es;
        unfold list_item; cbn [lookup list_lookup bind_result];
        try discriminate.
      * destruct (int a); discriminate.
      * destruct (int a) as [row|] eqn:Ea; [|discriminate].
        cbn [bind_result].
        destruct (int b) as [col|] eqn:Eb; [|discriminate].
        cbn [bind_result].
        destruct (parse_args int strings) as [locs|] eqn:Ep; [|discriminate].
        cbn [bind_result]. intros H. inversion H; subst locations.
        constructor; [|apply IH; reflexivity].
        exists a, b, rest, row, col. auto.
    + intros H. inversion H as [|s' v strings' locs Hv Hrest]; subst.
      destruct Hv as (a & b & rest & row & col & -> & Ea & Eb & ->).
      unfold list_item; cbn [lookup list_lookup bind_result].
      rewrite Ea. cbn [bind_result]. rewrite Eb. cbn [bind_result].
      apply IH in Hrest. rewrite Hrest. reflexivity.
Qed.

(** X20.  The locations of the command line: the list is built exactly
    when every argument has a comma and [int] accepts the text before the
    first comma and the text after it, up to the second comma if there is
    one; what follows a second comma is ignored.  The list then has one
    pair of integers for each argument, in their order, and the
    constructor returns an instance for it. *)
Theorem X20_parse_args int strings locations :
  (parse_args int strings = Ok locations <->
   Forall2
     (fun string location =>
        exists a b rest row col,
          split "," string = a :: b :: rest /\
          int a = Ok row /\ int b = Ok col /\
          location = loc_value (row, col))
     strings locations) /\
  (parse_args int strings = Ok locations ->
   length locations = length strings /\
   forall sample, exists s0, new (Some locations) sample = Ok s0).
Proof.
  split; [apply parse_args_spec|].
  intros H. apply parse_args_spec in H. split.
  - symmetry. apply (Forall2_length _ _ _ H).
  - intros sample. apply new_explicit_returns.
    clear sample. induction H as [|s v strings' locs' Hv _ IH];
      constructor; [|exact IH].
    destruct Hv as (a & b & rest & row & col & _ & _ & _ & ->).
    rewrite valid_location_pair. cbn [fst].
    destruct (in_bounds fresh (row, col)); [right|left]; auto.
Qed.

Lemma main_locations_return int argv (sample : nat -> list Z) :
  (forall n, distinct_placement None (sample n)) ->
  let locations :=
    if (1 <? length argv)%nat then
      match parse_args int (tail argv) with
      | Ok locations => Some locations
      | Raise _ => None
      end
    else None in
  forall n, exists s0, new locations (sample n) = Ok s0.
Proof.
  intros Hsample locations n.
  assert (exists s0, new None (sample n) = Ok s0) as Hnone.
  { destruct (new_random (sample n) (Hsample n)) as (g & Hnew & _). eauto. }
  unfold locations. destruct (1 <? length argv)%nat; [|exact Hnone].
  destruct (parse_args int (tail argv)) as [locs|e] eqn:Ep; [|exact Hnone].
  apply new_explicit_returns.
  apply parse_args_spec in Ep.
  induction Ep as [|s v strings locs' Hv _ IH]; constructor; [|exact IH].
  destruct Hv as (a & b & rest & row & col & _ & _ & _ & ->).
  rewrite valid_location_pair. cbn [fst].
  destruct (in_bounds fresh (row, col)); [right|left]; auto.
Qed.

(** Two arguments, the first with a third field. *)
Lemma X20_parse_args_witness :
  parse_args decimal ["1,6,x"; "3,1"] = Ok [loc_value (1, 6); loc_value (3, 1)]
  /\ exists s0,
       new (Some [loc_value (1, 6); loc_value (3, 1)]) [] = Ok s0.
Proof.
  destruct (X20_parse_args decimal ["1,6,x"; "3,1"]
              [loc_value (1, 6); loc_value (3, 1)]) as (Hiff & Hnew).
  assert (parse_args decimal ["1,6,x"; "3,1"]
          = Ok [loc_value (1, 6); loc_value (3, 1)]) as Hparse.
  { apply Hiff. repeat constructor.
    - exists "1", "6", ["x"], 1, 6. repeat split.
    - exists "3", "1", [], 3, 1. repeat split. }
  split; [exact Hparse|]. apply (Hnew Hparse).
Defined.

(** X21.  The program, whatever its arguments, the lines it reads and
    what [int] does, with samples of ten distinct cells of the board: no
    exception escapes.  It ends with the thanks after at least one game,
    or waits for a line that does not come; arguments from which no list
    of locations is built give the games with random mines. *)
Theorem X21_main int argv sample inputs :
  (forall n, distinct_placement None (sample n)) ->
  (exists games,
     (main int argv sample inputs = Thanks games /\ games <> [] \/
      main int argv sample inputs = AwaitingInput games) /\
     Forall ended games) /\
  ((length argv <= 1)%nat \/
   (exists e, parse_args int (tail argv) = Raise e) ->
   main int argv sample inputs = run_cli_game int None sample inputs).
Proof.
  intros Hsample. split.
  - unfold main.
    destruct (games_loop_spec int _ sample
                (main_locations_return int argv sample Hsample)
                (S (length inputs)) 0%nat inputs [] (Forall_nil_2 _))
      as (games & H & Hall & _).
    exists games. split; [exact H|exact Hall].
  - unfold main. intros [Hlen|(e & He)].
    + destruct (Nat.ltb_spec 1 (length argv)); [lia|reflexivity].
    + rewrite He. destruct (1 <? length argv)%nat; reflexivity.
Qed.

(** The program started with an argument that has no comma, on a sample
    along the diagonal and the start of the first row. *)
Lemma X21_main_witness :
  main decimal ["mineclicker"; "3"]
    (fun _ => [0; 9; 18; 27; 36; 45; 54; 63; 1; 2]) ["0 0"; "no"]
  = run_cli_game decimal None
      (fun _ => [0; 9; 18; 27; 36; 45; 54; 63; 1; 2]) ["0 0"; "no"].
Proof.
  apply (X21_main decimal ["mineclicker"; "3"]
           (fun _ => [0; 9; 18; 27; 36; 45; 54; 63; 1; 2]) ["0 0"; "no"]).
  - intros n. split_and!.
    + apply (bool_decide_unpack _). vm_compute. exact I.
    + reflexivity.
    + intros i Hi. simpl.
      repeat (apply elem_of_cons in Hi as [->|Hi]; [lia|]).
      apply elem_of_nil in Hi. destruct Hi.
  - right. exists IndexError. vm_compute. reflexivity.
Defined.

(** ** The board printed at the end of a game *)

(** X22.  The board [cli_take_action] prints once the game is won or
    lost has the shape of the grid and shows every cell of the grid as it
    is but the unexplored ones, which are [nan]: a mine that [player_view]
    hides as [nan] or under a flag is printed with its number. *)
Theorem X22_endgame_board s :
  wf s ->
  shape (endgame_board s) (Z.to_nat (rows s)) (Z.to_nat (cols s)) /\
  (forall r c g,
     cell (grid s) r c = Some g ->
     cell (endgame_board s) r c
     = Some (if g =? unexplored then nan else fl g)) /\
  (forall r c,
     cell (grid s) r c = Some mine ->
     cell (endgame_board s) r c = Some (fl mine) /\
     exists view,
       player_view s = (Ok view, s) /\
       (cell view r c = Some nan \/ cell view r c = Some (fl flag))).
Proof.
  intros Hwf.
  assert (forall r c g,
            cell (grid s) r c = Some g ->
            cell (endgame_board s) r c
            = Some (if g =? unexplored then nan else fl g)) as Hcells.
  { intros r c g Hg.
    destruct (cell_Some_lt _ _ _ _ _ _ (wf_grid s Hwf) Hg) as [Hr Hc].
    unfold endgame_board, float_eq_mask.
    rewrite cell_mask_assign, cell_map, cell_zip_with.
    rewrite Hg, cell_np_full by assumption.
    cbn -[Z.eqb]. destruct (g =? unexplored); reflexivity. }
  split_and!.
  - unfold endgame_board, mask_assign, float_eq_mask.
    repeat (apply shape_zip_with || apply shape_map || apply shape_np_full);
      apply (wf_grid s Hwf).
  - exact Hcells.
  - intros r c Hg. split; [apply (Hcells r c mine Hg)|].
    destruct (player_view_cells s Hwf) as (view & Hrun & Hsh & Hview).
    exists view. split; [exact Hrun|].
    destruct (cell_Some_lt _ _ _ _ _ _ (wf_grid s Hwf) Hg) as [Hr Hc].
    destruct (cell_lt (flagged s) _ _ r c (wf_flagged s Hwf) Hr Hc) as [f Hf].
    rewrite (Hview r c mine f Hg Hf). unfold shown.
    destruct (f =? 1); [right|left]; reflexivity.
Qed.

(** The mine at [(1, 6)] of the board of the test of [sweep_tile]. *)
Lemma X22_endgame_board_witness :
  cell (endgame_board test_board) 1 6 = Some (fl mine) /\
  cell (endgame_board test_board) 0 0 = Some nan.
Proof.
  destruct (X22_endgame_board test_board wf_test_board) as (_ & Hcells & _).
  split.
  - apply (Hcells 1%nat 6%nat mine). vm_compute. reflexivity.
  - apply (Hcells 0%nat 0%nat unexplored). vm_compute. reflexivity.
Defined.
